(** * Descriptor set layouts, pools and writers of the Vulkan backend

    A shallow embedding of
    [Source/Engine/GraphicsDevice/Vulkan/DescriptorSetVulkan.cpp].

    Conventions.
    - A C++ [uint8]/[uint32]/[uint64] is a [Z] with the wrap-around written
      out ([wrap8], [wrap32], [wrap64]).
    - A heap object owned through a pointer is an entry of a [gmap] keyed
      by its address; [New] picks an address that is not live, [Delete]
      removes the entry.
    - [ASSERT], [CRASH] and [VALIDATE_VULKAN_RESULT] end the program; a
      call that can hit one of them returns an [Outcome].
    - The Vulkan driver is outside the repository.  The calls the code makes
      into it are taken as parameters of the sections that need them, or
      modelled by the small amount of driver state the code relies on.

    The first part is the embedding, one module per class of the source;
    the second part states and proves the properties. *)

From Stdlib Require Import ZArith List Lia Bool.

From stdpp Require Import gmap list.

Local Open Scope Z_scope.

(** ** Machine integers *)

Definition wrap8 (x : Z) : Z := x mod 2 ^ 8.

Definition wrap32 (x : Z) : Z := x mod 2 ^ 32.

Definition wrap64 (x : Z) : Z := x mod 2 ^ 64.

(** ** Fatal exits *)

Inductive Outcome (A : Type) : Type :=
| Returned (a : A)
| AssertionFailed
| VulkanResultFailed
| Crashed.

Arguments Returned {A} a.

Arguments AssertionFailed {A}.

Arguments VulkanResultFailed {A}.

Arguments Crashed {A}.

(** ** Descriptor types

    [VULKAN_DESCRIPTOR_TYPE_BEGIN .. VULKAN_DESCRIPTOR_TYPE_END] is the core
    range [VK_DESCRIPTOR_TYPE_SAMPLER .. VK_DESCRIPTOR_TYPE_INPUT_ATTACHMENT]
    of the Vulkan headers, the index range of [_layoutTypes]. *)

Inductive VkDescriptorType : Set :=
| VK_DESCRIPTOR_TYPE_SAMPLER
| VK_DESCRIPTOR_TYPE_COMBINED_IMAGE_SAMPLER
| VK_DESCRIPTOR_TYPE_SAMPLED_IMAGE
| VK_DESCRIPTOR_TYPE_STORAGE_IMAGE
| VK_DESCRIPTOR_TYPE_UNIFORM_TEXEL_BUFFER
| VK_DESCRIPTOR_TYPE_STORAGE_TEXEL_BUFFER
| VK_DESCRIPTOR_TYPE_UNIFORM_BUFFER
| VK_DESCRIPTOR_TYPE_STORAGE_BUFFER
| VK_DESCRIPTOR_TYPE_UNIFORM_BUFFER_DYNAMIC
| VK_DESCRIPTOR_TYPE_STORAGE_BUFFER_DYNAMIC
| VK_DESCRIPTOR_TYPE_INPUT_ATTACHMENT.

Global Instance VkDescriptorType_eq_dec : EqDecision VkDescriptorType.
Proof. solve_decision. Defined.

Definition VkDescriptorType_value (t : VkDescriptorType) : Z :=
  match t with
  | VK_DESCRIPTOR_TYPE_SAMPLER => 0
  | VK_DESCRIPTOR_TYPE_COMBINED_IMAGE_SAMPLER => 1
  | VK_DESCRIPTOR_TYPE_SAMPLED_IMAGE => 2
  | VK_DESCRIPTOR_TYPE_STORAGE_IMAGE => 3
  | VK_DESCRIPTOR_TYPE_UNIFORM_TEXEL_BUFFER => 4
  | VK_DESCRIPTOR_TYPE_STORAGE_TEXEL_BUFFER => 5
  | VK_DESCRIPTOR_TYPE_UNIFORM_BUFFER => 6
  | VK_DESCRIPTOR_TYPE_STORAGE_BUFFER => 7
  | VK_DESCRIPTOR_TYPE_UNIFORM_BUFFER_DYNAMIC => 8
  | VK_DESCRIPTOR_TYPE_STORAGE_BUFFER_DYNAMIC => 9
  | VK_DESCRIPTOR_TYPE_INPUT_ATTACHMENT => 10
  end.

(** The types in index order, [VULKAN_DESCRIPTOR_TYPE_BEGIN] first. *)
Definition VULKAN_DESCRIPTOR_TYPES : list VkDescriptorType :=
  [ VK_DESCRIPTOR_TYPE_SAMPLER; VK_DESCRIPTOR_TYPE_COMBINED_IMAGE_SAMPLER;
    VK_DESCRIPTOR_TYPE_SAMPLED_IMAGE; VK_DESCRIPTOR_TYPE_STORAGE_IMAGE;
    VK_DESCRIPTOR_TYPE_UNIFORM_TEXEL_BUFFER; VK_DESCRIPTOR_TYPE_STORAGE_TEXEL_BUFFER;
    VK_DESCRIPTOR_TYPE_UNIFORM_BUFFER; VK_DESCRIPTOR_TYPE_STORAGE_BUFFER;
    VK_DESCRIPTOR_TYPE_UNIFORM_BUFFER_DYNAMIC; VK_DESCRIPTOR_TYPE_STORAGE_BUFFER_DYNAMIC;
    VK_DESCRIPTOR_TYPE_INPUT_ATTACHMENT ].

(** The Vulkan types whose bindings take a byte offset at bind time. *)
Definition hasDynamicOffset (t : VkDescriptorType) : bool :=
  match t with
  | VK_DESCRIPTOR_TYPE_UNIFORM_BUFFER_DYNAMIC
  | VK_DESCRIPTOR_TYPE_STORAGE_BUFFER_DYNAMIC => true
  | _ => false
  end.

(** ** Shader reflection data ([SpirvShaderDescriptorInfo])

    Only the fields this file reads.  [DescriptorTypes] holds the first
    [DescriptorTypesCount] entries of the fixed array, so the count is the
    length of the list. *)

Record Descriptor : Set := {
  DescriptorType : VkDescriptorType;
  Count : Z
}.

Definition SpirvShaderDescriptorInfo : Set := list Descriptor.

Definition DescriptorTypesCount (info : SpirvShaderDescriptorInfo) : Z :=
  Z.of_nat (length info).

(** ** Layout signatures *)

Record VkDescriptorSetLayoutBinding : Set := {
  binding : Z;
  descriptorType : VkDescriptorType;
  descriptorCount : Z;
  stageFlags : Z
}.

Record SetLayout : Set := { LayoutBindings : list VkDescriptorSetLayoutBinding }.

(** The per-type histogram [uint32 _layoutTypes[VULKAN_DESCRIPTOR_TYPE_END + 1]]. *)
Definition TypesUsage : Set := VkDescriptorType -> Z.

Definition TypesUsage_incr (h : TypesUsage) (t : VkDescriptorType) : TypesUsage :=
  fun u => if decide (u = t) then wrap32 (h u + 1) else h u.

(** The words of the array as [Crc::MemCrc32] reads them. *)
Definition TypesUsage_memory (h : TypesUsage) : list Z :=
  map h VULKAN_DESCRIPTOR_TYPES.

(** The words of one binding ([pImmutableSamplers] is null). *)
Definition Binding_memory (b : VkDescriptorSetLayoutBinding) : list Z :=
  [ binding b; VkDescriptorType_value (descriptorType b); descriptorCount b;
    stageFlags b; 0 ].

(** The process-wide statics of [CacheTypesUsageID]. *)
Record TypesUsageCache : Type := {
  uniqueID : Z;
  typesUsageHashMap : gmap Z Z
}.

Definition TypesUsageCache_init : TypesUsageCache :=
  {| uniqueID := 1; typesUsageHashMap := ∅ |}.

(** A stand-in for [Crc::MemCrc32], which lives in another file: used only
    to run the definitions below on concrete inputs. *)
Definition sampleCrc32 (data : list Z) (crc : Z) : Z :=
  fold_left (fun a w => wrap32 (a * 31 + w + 7)) data crc.

Module DescriptorSetLayoutInfoVulkan.

Record t : Type := {
  _layoutTypes : TypesUsage;
  _setLayouts : list SetLayout;
  _hash : Z;
  _typesUsageID : Z
}.

(** A fresh signature: no bindings, [_typesUsageID = ~0]. *)
Definition empty : t :=
  {| _layoutTypes := fun _ => 0; _setLayouts := []; _hash := 0;
     _typesUsageID := wrap32 (-1) |}.

Definition GetTypesUsed (l : t) (ty : VkDescriptorType) : Z := _layoutTypes l ty.

Section WithCrc.

(** [Crc::MemCrc32 (data, length, crc)] over the words of [data]. *)
Variable MemCrc32 : list Z -> Z -> Z.

Definition CacheTypesUsageID (l : t) (c : TypesUsageCache) : t * TypesUsageCache :=
  let typesUsageHash := MemCrc32 (TypesUsage_memory (_layoutTypes l)) 0 in
  let '(id, c') :=
    match typesUsageHashMap c !! typesUsageHash with
    | Some id => (id, c)
    | None =>
        (uniqueID c,
         {| uniqueID := wrap32 (uniqueID c + 1);
            typesUsageHashMap := <[typesUsageHash := uniqueID c]> (typesUsageHashMap c) |})
    end in
  ({| _layoutTypes := _layoutTypes l; _setLayouts := _setLayouts l;
      _hash := _hash l; _typesUsageID := id |}, c').

(** [_setLayouts.Resize (n)]: grows with empty groups, never shrinks here. *)
Definition Resize (n : nat) (ls : list SetLayout) : list SetLayout :=
  ls ++ replicate (n - length ls)%nat {| LayoutBindings := [] |}.

(** The loop body of [AddBindingsForStage] from [descriptorIndex] on. *)
Fixpoint AddBindings_loop (stage : Z) (descriptorIndex : Z)
    (ds : list Descriptor) (acc : TypesUsage * list VkDescriptorSetLayoutBinding * Z)
    : TypesUsage * list VkDescriptorSetLayoutBinding * Z :=
  match ds with
  | [] => acc
  | d :: ds' =>
      let '(types, bindings, hash) := acc in
      let b := {| binding := descriptorIndex; descriptorType := DescriptorType d;
                  descriptorCount := Count d; stageFlags := stage |} in
      AddBindings_loop stage (wrap32 (descriptorIndex + 1)) ds'
        (TypesUsage_incr types (descriptorType b), bindings ++ [b],
         MemCrc32 (Binding_memory b) hash)
  end.

Definition AddBindingsForStage (stage : Z) (descSet : nat)
    (descriptorInfo : SpirvShaderDescriptorInfo) (l : t) : t :=
  let layouts :=
    if decide (length (_setLayouts l) <= descSet)%nat
    then Resize (descSet + 1) (_setLayouts l) else _setLayouts l in
  let old := default [] (LayoutBindings <$> layouts !! descSet) in
  let '(types, bindings, hash) :=
    AddBindings_loop stage 0 descriptorInfo (_layoutTypes l, old, _hash l) in
  {| _layoutTypes := types;
     _setLayouts := <[descSet := {| LayoutBindings := bindings |}]> layouts;
     _hash := hash;
     _typesUsageID := _typesUsageID l |}.

(** A run of calls against the shared cache, one per signature, in the
    order given; the IDs are returned in call order. *)
Fixpoint CacheTypesUsageID_calls (ls : list t) (c : TypesUsageCache)
    : list Z * TypesUsageCache :=
  match ls with
  | [] => ([], c)
  | l :: ls' =>
      let '(l', c') := CacheTypesUsageID l c in
      let '(ids, c'') := CacheTypesUsageID_calls ls' c' in
      (_typesUsageID l' :: ids, c'')
  end.

(** The key of a signature in [typesUsageHashMap]. *)
Definition typesUsageHash (l : t) : Z :=
  MemCrc32 (TypesUsage_memory (_layoutTypes l)) 0.

(** A signature as callers build it: [AddBindingsForStage] calls on a fresh
    signature, each given as (stage flags, set index, metadata), oldest
    first. *)
Definition build (calls : list (Z * nat * SpirvShaderDescriptorInfo)) : t :=
  fold_left (fun l '(stage, descSet, descriptorInfo) =>
               AddBindingsForStage stage descSet descriptorInfo l)
            calls empty.

End WithCrc.

(** The bindings [AddBindingsForStage] appends for [descriptorInfo]: binding
    index [k] (as [uint32]) for the [k]-th descriptor. *)
Definition addedBindings (stage : Z) (descriptorInfo : SpirvShaderDescriptorInfo)
    : list VkDescriptorSetLayoutBinding :=
  imap (fun k d => {| binding := wrap32 (Z.of_nat k);
                      descriptorType := DescriptorType d;
                      descriptorCount := Count d;
                      stageFlags := stage |}) descriptorInfo.

(** The number of bindings of type [ty] in all groups. *)
Definition bindingsOfType (ty : VkDescriptorType) (groups : list SetLayout) : Z :=
  Z.of_nat (length (List.filter (fun b => bool_decide (descriptorType b = ty))
                                (concat (LayoutBindings <$> groups)))).

(** The bytes of a binding array, as [Platform::MemoryCompare] reads them
    (the struct has no padding). *)
Definition Bindings_memory (bs : list VkDescriptorSetLayoutBinding) : list Z :=
  concat (Binding_memory <$> bs).

(** [Platform::MemoryCompare] on two arrays of the same size: [true] for a
    non-zero result. *)
Definition MemoryCompare (a b : list Z) : bool := negb (bool_decide (a = b)).

(** The [for] loop of [operator==] over the groups of [this] and of
    [other], which are equally many. *)
Fixpoint equals_loop (mine other : list SetLayout) : bool :=
  match mine, other with
  | m :: mine', o :: other' =>
      let bindingsCount := length (LayoutBindings m) in
      if negb (bool_decide (length (LayoutBindings o) = bindingsCount)) then false
      else if negb (bool_decide (bindingsCount = 0%nat))
              && MemoryCompare (Bindings_memory (LayoutBindings o))
                               (Bindings_memory (LayoutBindings m))
      then false
      else equals_loop mine' other'
  | _, _ => true
  end.

(** [operator==]. *)
Definition equals (l other : t) : bool :=
  if negb (bool_decide (length (_setLayouts other) = length (_setLayouts l))) then false
  else if negb (bool_decide (_typesUsageID other = _typesUsageID l)) then false
  else equals_loop (_setLayouts l) (_setLayouts other).

(** The statics of [CacheTypesUsageID] after at most [n] calls: the counter
    is one above the IDs handed out, and no ID stands under two hashes. *)
Definition cacheWellFormed (n : Z) (c : TypesUsageCache) : Prop :=
  1 <= uniqueID c <= n + 1
  /\ (forall h id, typesUsageHashMap c !! h = Some id -> 1 <= id < uniqueID c)
  /\ (forall h1 h2 id, typesUsageHashMap c !! h1 = Some id ->
                       typesUsageHashMap c !! h2 = Some id -> h1 = h2).

(** Three signatures: [sigA] and [sigA'] differ in group structure but
    have the same histogram, [sigB] has another one. *)
Definition sigA : t :=
  AddBindingsForStage sampleCrc32 1 0
    [ {| DescriptorType := VK_DESCRIPTOR_TYPE_UNIFORM_BUFFER; Count := 1 |};
      {| DescriptorType := VK_DESCRIPTOR_TYPE_SAMPLED_IMAGE; Count := 1 |} ] empty.

Definition sigB : t :=
  AddBindingsForStage sampleCrc32 1 0
    [ {| DescriptorType := VK_DESCRIPTOR_TYPE_SAMPLER; Count := 1 |} ] empty.

Definition sigA' : t :=
  AddBindingsForStage sampleCrc32 16 1
    [ {| DescriptorType := VK_DESCRIPTOR_TYPE_SAMPLED_IMAGE; Count := 4 |} ]
    (AddBindingsForStage sampleCrc32 1 0
       [ {| DescriptorType := VK_DESCRIPTOR_TYPE_UNIFORM_BUFFER; Count := 1 |} ] empty).

End DescriptorSetLayoutInfoVulkan.

(** ** Compiled layouts *)

Definition VkHandle : Set := Z.

Definition VK_NULL_HANDLE : VkHandle := 0.

(** The fields of [VkPhysicalDeviceLimits] that [Compile] reads ([uint32]). *)
Record VkPhysicalDeviceLimits : Set := {
  maxDescriptorSetSamplers : Z;
  maxDescriptorSetUniformBuffers : Z;
  maxDescriptorSetUniformBuffersDynamic : Z;
  maxDescriptorSetStorageBuffers : Z;
  maxDescriptorSetStorageBuffersDynamic : Z;
  maxDescriptorSetSampledImages : Z;
  maxDescriptorSetStorageImages : Z
}.

Record VkDescriptorSetAllocateInfo : Set := {
  descriptorSetCount : Z;
  pSetLayouts : list VkHandle
}.

(** What [Compile] reads and writes outside the object: the layout objects
    the driver has created so far, oldest first, each with the bindings it
    was created from, and the statics of [CacheTypesUsageID]. *)
Record CompileWorld : Type := {
  nativeLayouts : list (list VkDescriptorSetLayoutBinding);
  usageCache : TypesUsageCache
}.

Module DescriptorSetLayoutVulkan.

Import DescriptorSetLayoutInfoVulkan.

Record t : Type := {
  info : DescriptorSetLayoutInfoVulkan.t;
  _handles : list VkHandle;
  _allocateInfo : VkDescriptorSetAllocateInfo
}.

Definition GetLayouts (l : t) : list SetLayout := _setLayouts (info l).

Definition GetHandles (l : t) : list VkHandle := _handles l.

Definition GetAllocateInfo (l : t) : VkDescriptorSetAllocateInfo := _allocateInfo l.

Definition GetTypesUsageID (l : t) : Z := _typesUsageID (info l).

Definition typesUsed (l : t) (ty : VkDescriptorType) : Z := _layoutTypes (info l) ty.

(** The left-hand sides of the seven limit assertions, as [uint32] sums. *)
Definition samplersTotal (l : t) : Z :=
  wrap32 (typesUsed l VK_DESCRIPTOR_TYPE_SAMPLER
          + typesUsed l VK_DESCRIPTOR_TYPE_COMBINED_IMAGE_SAMPLER).

Definition uniformBuffersTotal (l : t) : Z :=
  wrap32 (typesUsed l VK_DESCRIPTOR_TYPE_UNIFORM_BUFFER
          + typesUsed l VK_DESCRIPTOR_TYPE_UNIFORM_BUFFER_DYNAMIC).

Definition uniformBuffersDynamicTotal (l : t) : Z :=
  typesUsed l VK_DESCRIPTOR_TYPE_UNIFORM_BUFFER_DYNAMIC.

Definition storageBuffersTotal (l : t) : Z :=
  wrap32 (typesUsed l VK_DESCRIPTOR_TYPE_STORAGE_BUFFER
          + typesUsed l VK_DESCRIPTOR_TYPE_STORAGE_BUFFER_DYNAMIC).

Definition storageBuffersDynamicTotal (l : t) : Z :=
  typesUsed l VK_DESCRIPTOR_TYPE_STORAGE_BUFFER_DYNAMIC.

Definition sampledImagesTotal (l : t) : Z :=
  wrap32 (wrap32 (typesUsed l VK_DESCRIPTOR_TYPE_COMBINED_IMAGE_SAMPLER
                  + typesUsed l VK_DESCRIPTOR_TYPE_SAMPLED_IMAGE)
          + typesUsed l VK_DESCRIPTOR_TYPE_UNIFORM_TEXEL_BUFFER).

Definition storageImagesTotal (l : t) : Z :=
  wrap32 (typesUsed l VK_DESCRIPTOR_TYPE_STORAGE_IMAGE
          + typesUsed l VK_DESCRIPTOR_TYPE_STORAGE_TEXEL_BUFFER).

(** Each category total paired with the device limit it is checked against,
    in the order of the assertions. *)
Definition categoryChecks (limits : VkPhysicalDeviceLimits) (l : t) : list (Z * Z) :=
  [ (samplersTotal l, maxDescriptorSetSamplers limits);
    (uniformBuffersTotal l, maxDescriptorSetUniformBuffers limits);
    (uniformBuffersDynamicTotal l, maxDescriptorSetUniformBuffersDynamic limits);
    (storageBuffersTotal l, maxDescriptorSetStorageBuffers limits);
    (storageBuffersDynamicTotal l, maxDescriptorSetStorageBuffersDynamic limits);
    (sampledImagesTotal l, maxDescriptorSetSampledImages limits);
    (storageImagesTotal l, maxDescriptorSetStorageImages limits) ].

(** Calls that may end the program, threading the world. *)
Definition M (A : Type) : Type := CompileWorld -> Outcome A * CompileWorld.

Definition ret {A} (a : A) : M A := fun w => (Returned a, w).

Definition bind {A B} (c : M A) (k : A -> M B) : M B :=
  fun w =>
    match c w with
    | (Returned a, w') => k a w'
    | (AssertionFailed, w') => (AssertionFailed, w')
    | (VulkanResultFailed, w') => (VulkanResultFailed, w')
    | (Crashed, w') => (Crashed, w')
    end.

Notation "x <- c ;; k" := (bind c (fun x => k))
  (at level 100, c at next level, right associativity).

Notation "c ;;; k" := (bind c (fun _ => k))
  (at level 100, right associativity).

Definition ASSERT (b : bool) : M unit :=
  fun w => if b then (Returned tt, w) else (AssertionFailed, w).

Section WithDriver.

Variable MemCrc32 : list Z -> Z -> Z.

(** [vkCreateDescriptorSetLayout]: from the layout objects that exist and the
    bindings of the create info, the new handle on [VK_SUCCESS], [None] on
    any other result. *)
Variable vkCreateDescriptorSetLayout :
  list (list VkDescriptorSetLayoutBinding) -> list VkDescriptorSetLayoutBinding -> option VkHandle.

(** [VALIDATE_VULKAN_RESULT (vkCreateDescriptorSetLayout (...))]. *)
Definition createLayout (bindings : list VkDescriptorSetLayoutBinding) : M VkHandle :=
  fun w =>
    match vkCreateDescriptorSetLayout (nativeLayouts w) bindings with
    | Some h =>
        (Returned h, {| nativeLayouts := nativeLayouts w ++ [bindings];
                        usageCache := usageCache w |})
    | None => (VulkanResultFailed, w)
    end.

(** The loop filling [_handles[i]], one native layout per group. *)
Fixpoint createLayouts (groups : list SetLayout) : M (list VkHandle) :=
  match groups with
  | [] => ret []
  | g :: gs =>
      h <- createLayout (LayoutBindings g) ;;
      hs <- createLayouts gs ;;
      ret (h :: hs)
  end.

Definition cacheTypesUsageID (i : DescriptorSetLayoutInfoVulkan.t)
    : M DescriptorSetLayoutInfoVulkan.t :=
  fun w =>
    let '(i', c') := CacheTypesUsageID MemCrc32 i (usageCache w) in
    (Returned i', {| nativeLayouts := nativeLayouts w; usageCache := c' |}).

Definition Compile (limits : VkPhysicalDeviceLimits) (l : t) : M t :=
  ASSERT (bool_decide (_handles l = [])) ;;;
  ASSERT (bool_decide (samplersTotal l < maxDescriptorSetSamplers limits)) ;;;
  ASSERT (bool_decide (uniformBuffersTotal l < maxDescriptorSetUniformBuffers limits)) ;;;
  ASSERT (bool_decide (uniformBuffersDynamicTotal l < maxDescriptorSetUniformBuffersDynamic limits)) ;;;
  ASSERT (bool_decide (storageBuffersTotal l < maxDescriptorSetStorageBuffers limits)) ;;;
  ASSERT (bool_decide (storageBuffersDynamicTotal l < maxDescriptorSetStorageBuffersDynamic limits)) ;;;
  ASSERT (bool_decide (sampledImagesTotal l < maxDescriptorSetSampledImages limits)) ;;;
  ASSERT (bool_decide (storageImagesTotal l < maxDescriptorSetStorageImages limits)) ;;;
  handles <- createLayouts (_setLayouts (info l)) ;;
  i <- (if bool_decide (_typesUsageID (info l) = wrap32 (-1))
        then cacheTypesUsageID (info l) else ret (info l)) ;;
  ret {| info := i; _handles := handles;
         _allocateInfo := {| descriptorSetCount := Z.of_nat (length handles);
                             pSetLayouts := handles |} |}.

(** The precondition as the specification words it: every category total
    is within its device limit. *)
Definition withinLimits (limits : VkPhysicalDeviceLimits) (l : t) : Prop :=
  Forall (fun p : Z * Z => p.1 <= p.2) (categoryChecks limits l).

(** The precondition the assertions state: strictly below. *)
Definition belowLimits (limits : VkPhysicalDeviceLimits) (l : t) : Prop :=
  Forall (fun p : Z * Z => p.1 < p.2) (categoryChecks limits l).

(** Some category total reaches or passes its limit. *)
Definition reachesSomeLimit (limits : VkPhysicalDeviceLimits) (l : t) : Prop :=
  Exists (fun p : Z * Z => p.2 <= p.1) (categoryChecks limits l).

(** Some category total is above its limit. *)
Definition exceedsSomeLimit (limits : VkPhysicalDeviceLimits) (l : t) : Prop :=
  Exists (fun p : Z * Z => p.2 < p.1) (categoryChecks limits l).

(** Histogram entries small enough that no [uint32] sum wraps. *)
Definition histogramBounded (l : t) : Prop :=
  forall ty, 0 <= typesUsed l ty < 2 ^ 30.

End WithDriver.

(** A driver that always succeeds and numbers its objects from 1: used to
    run [Compile] on concrete inputs. *)
Definition sampleDriver (created : list (list VkDescriptorSetLayoutBinding))
    (_ : list VkDescriptorSetLayoutBinding) : option VkHandle :=
  Some (Z.of_nat (length created) + 1).

Definition limitsWith (samplers : Z) : VkPhysicalDeviceLimits :=
  {| maxDescriptorSetSamplers := samplers;
     maxDescriptorSetUniformBuffers := 16;
     maxDescriptorSetUniformBuffersDynamic := 16;
     maxDescriptorSetStorageBuffers := 16;
     maxDescriptorSetStorageBuffersDynamic := 16;
     maxDescriptorSetSampledImages := 16;
     maxDescriptorSetStorageImages := 16 |}.

(** A layout of one group with a single sampler binding, not yet compiled. *)
Definition oneSampler : t :=
  {| info := DescriptorSetLayoutInfoVulkan.sigB; _handles := [];
     _allocateInfo := {| descriptorSetCount := 0; pSetLayouts := [] |} |}.

Definition world0 : CompileWorld :=
  {| nativeLayouts := []; usageCache := TypesUsageCache_init |}.

(** A layout object holding a signature, before [Compile]. *)
Definition uncompiled (i : DescriptorSetLayoutInfoVulkan.t) : t :=
  {| info := i; _handles := [];
     _allocateInfo := {| descriptorSetCount := 0; pSetLayouts := [] |} |}.

End DescriptorSetLayoutVulkan.

(** ** Descriptor writes *)

Module VkWriteDescriptorSet.

(** The fields [SetupDescriptorWrites] assigns.  A resource pointer is the
    element offset from the start of the array the caller passed, [None]
    for a null pointer. *)
Record t : Set := {
  dstBinding : Z;
  descriptorCount : Z;
  descriptorType : VkDescriptorType;
  pImageInfo : option Z;
  pBufferInfo : option Z;
  pTexelBufferView : option Z
}.

(** A zeroed entry, as the caller hands the array in. *)
Definition zero : t :=
  {| dstBinding := 0; descriptorCount := 0;
     descriptorType := VK_DESCRIPTOR_TYPE_SAMPLER;
     pImageInfo := None; pBufferInfo := None; pTexelBufferView := None |}.

End VkWriteDescriptorSet.

(** The three resource-info arrays a write can point into. *)
Inductive InfoArray : Set := ImageInfoArray | BufferInfoArray | TexelBufferViewArray.

Global Instance InfoArray_eq_dec : EqDecision InfoArray.
Proof. solve_decision. Defined.

Module DescriptorSetWriterVulkan.

Import VkWriteDescriptorSet.

(** The members the call sets. *)
Record t : Set := {
  WriteDescriptors : list VkWriteDescriptorSet.t;
  WritesCount : Z;
  BindingToDynamicOffset : list Z
}.

(** The locals of the loop: the two out arrays (in C++ reached through the
    caller's pointers; an index past the end of the list stands for an
    out-of-bounds store and is never taken when the arrays hold at least
    [DescriptorTypesCount] entries), the slot counter and the three cursors,
    each an element offset from the pointer passed in. *)
Record Locals : Set := {
  writeDescriptors : list VkWriteDescriptorSet.t;
  bindingToDynamicOffset : list Z;
  dynamicOffsetIndex : Z;
  imageInfo : Z;
  bufferInfo : Z;
  texelBufferView : Z
}.

(** The assignments before the [switch]. *)
Definition header (i : nat) (descriptor : Descriptor) (w : VkWriteDescriptorSet.t)
    : VkWriteDescriptorSet.t :=
  {| dstBinding := Z.of_nat i;
     descriptorCount := Count descriptor;
     descriptorType := DescriptorType descriptor;
     pImageInfo := pImageInfo w; pBufferInfo := pBufferInfo w;
     pTexelBufferView := pTexelBufferView w |}.

Definition set_pImageInfo (p : Z) (w : VkWriteDescriptorSet.t) : VkWriteDescriptorSet.t :=
  {| dstBinding := dstBinding w; descriptorCount := descriptorCount w;
     descriptorType := descriptorType w;
     pImageInfo := Some p; pBufferInfo := pBufferInfo w;
     pTexelBufferView := pTexelBufferView w |}.

Definition set_pBufferInfo (p : Z) (w : VkWriteDescriptorSet.t) : VkWriteDescriptorSet.t :=
  {| dstBinding := dstBinding w; descriptorCount := descriptorCount w;
     descriptorType := descriptorType w;
     pImageInfo := pImageInfo w; pBufferInfo := Some p;
     pTexelBufferView := pTexelBufferView w |}.

Definition set_pTexelBufferView (p : Z) (w : VkWriteDescriptorSet.t) : VkWriteDescriptorSet.t :=
  {| dstBinding := dstBinding w; descriptorCount := descriptorCount w;
     descriptorType := descriptorType w;
     pImageInfo := pImageInfo w; pBufferInfo := pBufferInfo w;
     pTexelBufferView := Some p |}.

(** One iteration: the body of the [for] loop at index [i]. *)
Definition body (i : nat) (descriptor : Descriptor) (st : Locals) : Outcome Locals :=
  let w := header i descriptor (default zero (writeDescriptors st !! i)) in
  match descriptorType w with
  | VK_DESCRIPTOR_TYPE_UNIFORM_BUFFER_DYNAMIC =>
      Returned
        {| writeDescriptors := <[i := set_pBufferInfo (bufferInfo st) w]> (writeDescriptors st);
           bindingToDynamicOffset :=
             <[i := wrap8 (dynamicOffsetIndex st)]> (bindingToDynamicOffset st);
           dynamicOffsetIndex := wrap32 (dynamicOffsetIndex st + 1);
           imageInfo := imageInfo st;
           bufferInfo := bufferInfo st + 1;
           texelBufferView := texelBufferView st |}
  | VK_DESCRIPTOR_TYPE_UNIFORM_BUFFER
  | VK_DESCRIPTOR_TYPE_STORAGE_BUFFER =>
      Returned
        {| writeDescriptors := <[i := set_pBufferInfo (bufferInfo st) w]> (writeDescriptors st);
           bindingToDynamicOffset := bindingToDynamicOffset st;
           dynamicOffsetIndex := dynamicOffsetIndex st;
           imageInfo := imageInfo st;
           bufferInfo := bufferInfo st + Count descriptor;
           texelBufferView := texelBufferView st |}
  | VK_DESCRIPTOR_TYPE_SAMPLER
  | VK_DESCRIPTOR_TYPE_COMBINED_IMAGE_SAMPLER
  | VK_DESCRIPTOR_TYPE_SAMPLED_IMAGE
  | VK_DESCRIPTOR_TYPE_STORAGE_IMAGE =>
      Returned
        {| writeDescriptors := <[i := set_pImageInfo (imageInfo st) w]> (writeDescriptors st);
           bindingToDynamicOffset := bindingToDynamicOffset st;
           dynamicOffsetIndex := dynamicOffsetIndex st;
           imageInfo := imageInfo st + Count descriptor;
           bufferInfo := bufferInfo st;
           texelBufferView := texelBufferView st |}
  | VK_DESCRIPTOR_TYPE_STORAGE_TEXEL_BUFFER
  | VK_DESCRIPTOR_TYPE_UNIFORM_TEXEL_BUFFER =>
      Returned
        {| writeDescriptors :=
             <[i := set_pTexelBufferView (texelBufferView st) w]> (writeDescriptors st);
           bindingToDynamicOffset := bindingToDynamicOffset st;
           dynamicOffsetIndex := dynamicOffsetIndex st;
           imageInfo := imageInfo st;
           bufferInfo := bufferInfo st;
           texelBufferView := texelBufferView st + Count descriptor |}
  | _ => Crashed
  end.

(** The [for] loop from index [i] over the descriptors still to visit. *)
Fixpoint loop (i : nat) (ds : list Descriptor) (st : Locals) : Outcome Locals :=
  match ds with
  | [] => Returned st
  | d :: ds' =>
      match body i d st with
      | Returned st' => loop (S i) ds' st'
      | other => other
      end
  end.

Section WithMaxDescriptors.

(** [SpirvShaderDescriptorInfo::MaxDescriptors], declared in another file. *)
Variable MaxDescriptors : Z.

Definition SetupDescriptorWrites (info : SpirvShaderDescriptorInfo)
    (writeDescriptors0 : list VkWriteDescriptorSet.t)
    (imageInfo0 bufferInfo0 texelBufferView0 : Z)
    (bindingToDynamicOffset0 : list Z) : Outcome (Z * t) :=
  if bool_decide (DescriptorTypesCount info <= MaxDescriptors) then
    match loop 0 info
            {| writeDescriptors := writeDescriptors0;
               bindingToDynamicOffset := bindingToDynamicOffset0;
               dynamicOffsetIndex := 0;
               imageInfo := imageInfo0; bufferInfo := bufferInfo0;
               texelBufferView := texelBufferView0 |} with
    | Returned st =>
        Returned (dynamicOffsetIndex st,
                  {| WriteDescriptors := writeDescriptors st;
                     WritesCount := DescriptorTypesCount info;
                     BindingToDynamicOffset := bindingToDynamicOffset st |})
    | AssertionFailed => AssertionFailed
    | VulkanResultFailed => VulkanResultFailed
    | Crashed => Crashed
    end
  else AssertionFailed.

(** *** What the loop is compared with *)

(** The array a descriptor type is routed to by the [switch]; [None] for
    the types that take the [default] branch. *)
Definition routedTo (ty : VkDescriptorType) : option InfoArray :=
  match ty with
  | VK_DESCRIPTOR_TYPE_UNIFORM_BUFFER_DYNAMIC
  | VK_DESCRIPTOR_TYPE_UNIFORM_BUFFER
  | VK_DESCRIPTOR_TYPE_STORAGE_BUFFER => Some BufferInfoArray
  | VK_DESCRIPTOR_TYPE_SAMPLER
  | VK_DESCRIPTOR_TYPE_COMBINED_IMAGE_SAMPLER
  | VK_DESCRIPTOR_TYPE_SAMPLED_IMAGE
  | VK_DESCRIPTOR_TYPE_STORAGE_IMAGE => Some ImageInfoArray
  | VK_DESCRIPTOR_TYPE_STORAGE_TEXEL_BUFFER
  | VK_DESCRIPTOR_TYPE_UNIFORM_TEXEL_BUFFER => Some TexelBufferViewArray
  | VK_DESCRIPTOR_TYPE_STORAGE_BUFFER_DYNAMIC
  | VK_DESCRIPTOR_TYPE_INPUT_ATTACHMENT => None
  end.

Definition handledBySwitch (d : Descriptor) : Prop :=
  is_Some (routedTo (DescriptorType d)).

Definition cursor (a : InfoArray) (st : Locals) : Z :=
  match a with
  | ImageInfoArray => imageInfo st
  | BufferInfoArray => bufferInfo st
  | TexelBufferViewArray => texelBufferView st
  end.

Definition pointerInto (a : InfoArray) (w : VkWriteDescriptorSet.t) : option Z :=
  match a with
  | ImageInfoArray => pImageInfo w
  | BufferInfoArray => pBufferInfo w
  | TexelBufferViewArray => pTexelBufferView w
  end.

(** How far the code moves the cursor past one binding. *)
Definition cursorStep (d : Descriptor) : Z :=
  match DescriptorType d with
  | VK_DESCRIPTOR_TYPE_UNIFORM_BUFFER_DYNAMIC => 1
  | _ => Count d
  end.

(** The sum of [step] over the bindings of [ds] routed to array [a]. *)
Fixpoint advance (step : Descriptor -> Z) (a : InfoArray) (ds : list Descriptor) : Z :=
  match ds with
  | [] => 0
  | d :: ds' =>
      (if bool_decide (routedTo (DescriptorType d) = Some a) then step d else 0)
      + advance step a ds'
  end.

(** The number of bindings of [ds] whose type carries a dynamic offset. *)
Definition dynamicCount (ds : list Descriptor) : Z :=
  Z.of_nat (length (List.filter (fun d => hasDynamicOffset (DescriptorType d)) ds)).

End WithMaxDescriptors.

(** *** Sample metadata *)

Definition descriptor (ty : VkDescriptorType) (n : Z) : Descriptor :=
  {| DescriptorType := ty; Count := n |}.

(** Five bindings, those at positions 1, 3 and 4 with a dynamic offset. *)
Definition fiveBindings : SpirvShaderDescriptorInfo :=
  [ descriptor VK_DESCRIPTOR_TYPE_SAMPLED_IMAGE 2;
    descriptor VK_DESCRIPTOR_TYPE_UNIFORM_BUFFER_DYNAMIC 1;
    descriptor VK_DESCRIPTOR_TYPE_STORAGE_BUFFER 3;
    descriptor VK_DESCRIPTOR_TYPE_UNIFORM_BUFFER_DYNAMIC 1;
    descriptor VK_DESCRIPTOR_TYPE_UNIFORM_BUFFER_DYNAMIC 1 ].

(** The same five bindings with a dynamic storage buffer at position 3:
    positions 1, 3 and 4 carry a dynamic offset. *)
Definition fiveBindingsStorageDynamic : SpirvShaderDescriptorInfo :=
  [ descriptor VK_DESCRIPTOR_TYPE_SAMPLED_IMAGE 2;
    descriptor VK_DESCRIPTOR_TYPE_UNIFORM_BUFFER_DYNAMIC 1;
    descriptor VK_DESCRIPTOR_TYPE_STORAGE_BUFFER 3;
    descriptor VK_DESCRIPTOR_TYPE_STORAGE_BUFFER_DYNAMIC 1;
    descriptor VK_DESCRIPTOR_TYPE_UNIFORM_BUFFER_DYNAMIC 1 ].

(** A layout whose only binding is one dynamic storage buffer. *)
Definition oneStorageBufferDynamic : DescriptorSetLayoutVulkan.t :=
  {| DescriptorSetLayoutVulkan.info :=
       DescriptorSetLayoutInfoVulkan.AddBindingsForStage sampleCrc32 1 0
         [descriptor VK_DESCRIPTOR_TYPE_STORAGE_BUFFER_DYNAMIC 1]
         DescriptorSetLayoutInfoVulkan.empty;
     DescriptorSetLayoutVulkan._handles := [];
     DescriptorSetLayoutVulkan._allocateInfo :=
       {| descriptorSetCount := 0; pSetLayouts := [] |} |}.

(** A dynamic uniform buffer of two elements, then a uniform buffer. *)
Definition dynamicArrayThenBuffer : SpirvShaderDescriptorInfo :=
  [ descriptor VK_DESCRIPTOR_TYPE_UNIFORM_BUFFER_DYNAMIC 2;
    descriptor VK_DESCRIPTOR_TYPE_UNIFORM_BUFFER 1 ].

End DescriptorSetWriterVulkan.

(** ** Descriptor pools *)

Record VkDescriptorPoolSize : Set := {
  poolSize_type : VkDescriptorType;
  poolSize_descriptorCount : Z
}.

Record VkDescriptorPoolCreateInfo : Set := {
  poolSizes : list VkDescriptorPoolSize;
  maxSets : Z
}.

(** The driver calls on descriptor pools.  [NativePool] is the state the
    driver keeps behind a [VkDescriptorPool] handle.  Creation and allocation
    give [None] for a result other than [VK_SUCCESS]; a reset always
    succeeds. *)
Class VulkanDriver : Type := {
  NativePool : Type;
  vkCreateDescriptorPool : VkDescriptorPoolCreateInfo -> option NativePool;
  vkAllocateDescriptorSets :
    NativePool -> VkDescriptorSetAllocateInfo -> option (NativePool * list VkHandle);
  vkResetDescriptorPool : NativePool -> NativePool
}.

Module DescriptorPoolVulkan.

Section WithDriver.

Context `{VulkanDriver}.

(** The compile-time switch [VULKAN_HASH_POOLS_WITH_TYPES_USAGE_ID]. *)
Variable VULKAN_HASH_POOLS_WITH_TYPES_USAGE_ID : bool.

(** [_handle] is [None] for [VK_NULL_HANDLE]. *)
Record t : Type := {
  _handle : option NativePool;
  _descriptorSetsMax : Z;
  _allocatedDescriptorSetsCount : Z;
  _allocatedDescriptorSetsCountMax : Z;
  _layout : DescriptorSetLayoutVulkan.t
}.

Definition MaxSetsAllocations : Z := 256.

(** The pool sizes gathered by the loop over the descriptor types. *)
Definition poolSizesFor (layout : DescriptorSetLayoutVulkan.t) : list VkDescriptorPoolSize :=
  omap (fun ty =>
          let typesUsed := DescriptorSetLayoutVulkan.typesUsed layout ty in
          if bool_decide (0 < typesUsed)
          then Some {| poolSize_type := ty;
                       poolSize_descriptorCount := wrap32 (typesUsed * MaxSetsAllocations) |}
          else None)
       VULKAN_DESCRIPTOR_TYPES.

(** The constructor. *)
Definition new (layout : DescriptorSetLayoutVulkan.t) : Outcome t :=
  let descriptorSetsMax :=
    wrap32 (MaxSetsAllocations *
            (if VULKAN_HASH_POOLS_WITH_TYPES_USAGE_ID then 1
             else Z.of_nat (length (DescriptorSetLayoutVulkan.GetLayouts layout)))) in
  match vkCreateDescriptorPool
          {| poolSizes := poolSizesFor layout; maxSets := descriptorSetsMax |} with
  | Some native =>
      Returned {| _handle := Some native;
                  _descriptorSetsMax := descriptorSetsMax;
                  _allocatedDescriptorSetsCount := 0;
                  _allocatedDescriptorSetsCountMax := 0;
                  _layout := layout |}
  | None => VulkanResultFailed
  end.

Definition Reset (pool : t) : t :=
  {| _handle := vkResetDescriptorPool <$> _handle pool;
     _descriptorSetsMax := _descriptorSetsMax pool;
     _allocatedDescriptorSetsCount := 0;
     _allocatedDescriptorSetsCountMax := _allocatedDescriptorSetsCountMax pool;
     _layout := _layout pool |}.

(** [true] with the pool after the call and the sets on [VK_SUCCESS];
    otherwise [false] and the pool as it was.  A call on a null handle is
    counted as a failure. *)
Definition AllocateDescriptorSets (descriptorSetAllocateInfo : VkDescriptorSetAllocateInfo)
    (pool : t) : bool * t * list VkHandle :=
  match _handle pool with
  | Some native =>
      match vkAllocateDescriptorSets native descriptorSetAllocateInfo with
      | Some (native', sets) =>
          (true,
           {| _handle := Some native';
              _descriptorSetsMax := _descriptorSetsMax pool;
              _allocatedDescriptorSetsCount := _allocatedDescriptorSetsCount pool;
              _allocatedDescriptorSetsCountMax := _allocatedDescriptorSetsCountMax pool;
              _layout := _layout pool |},
           sets)
      | None => (false, pool, [])
      end
  | None => (false, pool, [])
  end.

Section Tracking.
(** The build switch [BUILD_RELEASE]. *)
Variable BUILD_RELEASE : bool.

(** The loop of assertions shared by [Track] and [TrackRemoveUsage]: the
    layout passed uses each descriptor type as often as the pool's own. *)
Definition sameTypesUsed (pool : t) (layout : DescriptorSetLayoutVulkan.t) : bool :=
  forallb (fun ty =>
             bool_decide (DescriptorSetLayoutVulkan.typesUsed (_layout pool) ty
                          = DescriptorSetLayoutVulkan.typesUsed layout ty))
          VULKAN_DESCRIPTOR_TYPES.

Definition Track (layout : DescriptorSetLayoutVulkan.t) (pool : t) : Outcome t :=
  if negb BUILD_RELEASE && negb (sameTypesUsed pool layout) then AssertionFailed
  else
    let allocated :=
      wrap32 (_allocatedDescriptorSetsCount pool
              + Z.of_nat (length (DescriptorSetLayoutVulkan.GetLayouts layout))) in
    Returned {| _handle := _handle pool;
                _descriptorSetsMax := _descriptorSetsMax pool;
                _allocatedDescriptorSetsCount := allocated;
                _allocatedDescriptorSetsCountMax :=
                  Z.max allocated (_allocatedDescriptorSetsCountMax pool);
                _layout := _layout pool |}.

Definition TrackRemoveUsage (layout : DescriptorSetLayoutVulkan.t) (pool : t) : Outcome t :=
  if negb (sameTypesUsed pool layout) then AssertionFailed
  else
    Returned {| _handle := _handle pool;
                _descriptorSetsMax := _descriptorSetsMax pool;
                _allocatedDescriptorSetsCount :=
                  wrap32 (_allocatedDescriptorSetsCount pool
                          - Z.of_nat (length (DescriptorSetLayoutVulkan.GetLayouts layout)));
                _allocatedDescriptorSetsCountMax := _allocatedDescriptorSetsCountMax pool;
                _layout := _layout pool |}.

End Tracking.

End WithDriver.

End DescriptorPoolVulkan.

(** ** Pool chains *)

Module TypedDescriptorPoolSetVulkan.

Section WithDriver.

Context `{VulkanDriver}.

Variable VULKAN_HASH_POOLS_WITH_TYPES_USAGE_ID : bool.

(** The [PoolList] nodes reachable from [_poolListHead], in link order, and
    [_poolListCurrent] as the position of its node in that list ([None] for
    a null pointer).  [_poolListHead] is the first node. *)
Record t : Type := {
  pools : list DescriptorPoolVulkan.t;
  _poolListCurrent : option nat;
  _layout : DescriptorSetLayoutVulkan.t
}.

(** [PushNewPool]: the new node becomes the successor of the current one
    (whatever followed it is unlinked) and the current node. *)
Definition PushNewPool (s : t) : Outcome t :=
  match DescriptorPoolVulkan.new VULKAN_HASH_POOLS_WITH_TYPES_USAGE_ID (_layout s) with
  | Returned newPool =>
      Returned
        match _poolListCurrent s with
        | Some i => {| pools := take (S i) (pools s) ++ [newPool];
                       _poolListCurrent := Some (S i);
                       _layout := _layout s |}
        | None => {| pools := [newPool]; _poolListCurrent := Some 0%nat;
                     _layout := _layout s |}
        end
  | AssertionFailed => AssertionFailed
  | VulkanResultFailed => VulkanResultFailed
  | Crashed => Crashed
  end.

(** [GetFreePool]; the pool returned is the one under the cursor of the
    state returned.  A null [_poolListCurrent] is dereferenced: [Crashed]. *)
Definition GetFreePool (forceNewPool : bool) (s : t) : Outcome t :=
  match _poolListCurrent s with
  | None => Crashed
  | Some i =>
      if negb forceNewPool then Returned s
      else if bool_decide (S i < length (pools s))%nat
      then Returned {| pools := pools s; _poolListCurrent := Some (S i);
                       _layout := _layout s |}
      else PushNewPool s
  end.

(** The [while] loop of [AllocateDescriptorSets], at most [fuel] attempts:
    [None] when the attempts run out. *)
Fixpoint allocateLoop (fuel : nat) (info : VkDescriptorSetAllocateInfo) (s : t)
    : option (Outcome (t * list VkHandle)) :=
  match fuel with
  | O => None
  | S fuel' =>
      match _poolListCurrent s with
      | None => Some Crashed
      | Some i =>
          match pools s !! i with
          | None => Some Crashed
          | Some pool =>
              match DescriptorPoolVulkan.AllocateDescriptorSets info pool with
              | (true, pool', sets) =>
                  Some (Returned ({| pools := <[i := pool']> (pools s);
                                     _poolListCurrent := _poolListCurrent s;
                                     _layout := _layout s |}, sets))
              | (false, _, _) =>
                  match GetFreePool true s with
                  | Returned s' => allocateLoop fuel' info s'
                  | AssertionFailed => Some AssertionFailed
                  | VulkanResultFailed => Some VulkanResultFailed
                  | Crashed => Some Crashed
                  end
              end
          end
      end
  end.

Definition AllocateDescriptorSets (fuel : nat) (layout : DescriptorSetLayoutVulkan.t)
    (s : t) : option (Outcome (t * list VkHandle)) :=
  if bool_decide (DescriptorSetLayoutVulkan.GetHandles layout <> [])
  then allocateLoop fuel (DescriptorSetLayoutVulkan.GetAllocateInfo layout) s
  else Some (Returned (s, [])).

Definition Reset (s : t) : t :=
  {| pools := DescriptorPoolVulkan.Reset <$> pools s;
     _poolListCurrent := if pools s is [] then None else Some 0%nat;
     _layout := _layout s |}.

(** [n] calls of [AllocateDescriptorSets] in a row for the same layout. *)
Fixpoint allocateRun (fuel : nat) (layout : DescriptorSetLayoutVulkan.t) (n : nat) (s : t)
    : option (Outcome t) :=
  match n with
  | O => Some (Returned s)
  | S n' =>
      match AllocateDescriptorSets fuel layout s with
      | Some (Returned (s', _)) => allocateRun fuel layout n' s'
      | Some AssertionFailed => Some AssertionFailed
      | Some VulkanResultFailed => Some VulkanResultFailed
      | Some Crashed => Some Crashed
      | None => None
      end
  end.

(** The allocations a pool has served since it was created or last reset,
    where [allocated] reads that count off the driver's state. *)
Definition served (allocated : NativePool -> nat) (pool : DescriptorPoolVulkan.t)
    : option nat :=
  allocated <$> DescriptorPoolVulkan._handle pool.

End WithDriver.

(** A driver whose pools hold two allocations each; the state of a pool is
    the number it has served. *)
#[local] Instance twoPerPool : VulkanDriver := {|
  NativePool := nat;
  vkCreateDescriptorPool := fun _ => Some 0%nat;
  vkAllocateDescriptorSets := fun served info =>
    if bool_decide (served < 2)%nat
    then Some (S served, replicate (Z.to_nat (descriptorSetCount info)) 1)
    else None;
  vkResetDescriptorPool := fun _ => 0%nat
|}.

(** The sampler layout of above, compiled. *)
Definition compiledSampler : DescriptorSetLayoutVulkan.t :=
  {| DescriptorSetLayoutVulkan.info := DescriptorSetLayoutInfoVulkan.sigB;
     DescriptorSetLayoutVulkan._handles := [1];
     DescriptorSetLayoutVulkan._allocateInfo :=
       {| descriptorSetCount := 1; pSetLayouts := [1] |} |}.

Definition poolServing (served : nat) : DescriptorPoolVulkan.t :=
  {| DescriptorPoolVulkan._handle := Some served;
     DescriptorPoolVulkan._descriptorSetsMax := 256;
     DescriptorPoolVulkan._allocatedDescriptorSetsCount := 0;
     DescriptorPoolVulkan._allocatedDescriptorSetsCountMax := 0;
     DescriptorPoolVulkan._layout := compiledSampler |}.

(** A pool of the sampler layout with the tracked count given. *)
Definition trackedPool (allocated : Z) : DescriptorPoolVulkan.t :=
  {| DescriptorPoolVulkan._handle := Some 0%nat;
     DescriptorPoolVulkan._descriptorSetsMax := 256;
     DescriptorPoolVulkan._allocatedDescriptorSetsCount := allocated;
     DescriptorPoolVulkan._allocatedDescriptorSetsCountMax := allocated;
     DescriptorPoolVulkan._layout := compiledSampler |}.

Definition chainOf (ps : list DescriptorPoolVulkan.t) (current : nat) : t :=
  {| pools := ps; _poolListCurrent := Some current; _layout := compiledSampler |}.

End TypedDescriptorPoolSetVulkan.

(** ** Registries of pool chains *)

Module DescriptorPoolSetContainerVulkan.

Section WithDriver.

Context `{VulkanDriver}.

Record t : Type := {
  _typedDescriptorPools : gmap Z TypedDescriptorPoolSetVulkan.t;
  _lastFrameUsed : Z;
  _used : bool
}.

(** The constructor, run while [Engine::FrameCount] is [FrameCount]. *)
Definition new (FrameCount : Z) : t :=
  {| _typedDescriptorPools := ∅; _lastFrameUsed := FrameCount; _used := true |}.

Definition Reset (c : t) : t :=
  {| _typedDescriptorPools := TypedDescriptorPoolSetVulkan.Reset <$> _typedDescriptorPools c;
     _lastFrameUsed := _lastFrameUsed c;
     _used := _used c |}.

Definition SetUsed (FrameCount : Z) (used : bool) (c : t) : t :=
  {| _typedDescriptorPools := _typedDescriptorPools c;
     _lastFrameUsed := if used then FrameCount else _lastFrameUsed c;
     _used := used |}.

(** Modelled from the spec: the inline accessor [IsUnused] of the header,
    which this file does not hold; a registry "marked free" is one whose
    used flag is off. *)
Definition IsUnused (c : t) : bool := negb (_used c).

(** Modelled from the spec: the inline accessor [GetLastFrameUsed] of the
    header: the registry's "last used frame" timestamp. *)
Definition GetLastFrameUsed (c : t) : Z := _lastFrameUsed c.

(** [SetUsed] as the specification words it: the timestamp is taken when the
    registry is marked free, and kept otherwise. *)
Definition SetUsed_as_specified (FrameCount : Z) (used : bool) (c : t) : t :=
  {| _typedDescriptorPools := _typedDescriptorPools c;
     _lastFrameUsed := if used then _lastFrameUsed c else FrameCount;
     _used := used |}.

End WithDriver.

(** A registry last marked used in frame 3 and still in use. *)
Definition usedSinceFrame3 : t (H := TypedDescriptorPoolSetVulkan.twoPerPool) :=
  {| _typedDescriptorPools := ∅; _lastFrameUsed := 3; _used := true |}.

End DescriptorPoolSetContainerVulkan.

(** ** The manager of registries *)

Module DescriptorPoolsManagerVulkan.

Import DescriptorPoolSetContainerVulkan.

(** Modelled from the spec: [Array::RemoveAt] of the engine's array class,
    declared in Array.h, which this file does not hold.  The item at [index]
    is removed (the "removes" of the specification); the engine's array does
    it by moving the last item into the hole and dropping the count by one,
    so the items after [index] do not keep their order.  [GC] calls it with
    an index below the count only. *)
Definition RemoveAt {A : Type} (index : nat) (l : list A) : list A :=
  match last l with
  | Some x => take (length l - 1) (<[index := x]> l)
  | None => l
  end.

(** The calls one operation makes on registries, in order. *)
Inductive Call : Set :=
| CallNew (p : positive)
| CallSetUsed (p : positive) (used : bool)
| CallReset (p : positive)
| CallDelete (p : positive).

Section WithDriver.

Context `{VulkanDriver}.

(** [VULKAN_RESOURCE_DELETE_SAFE_FRAMES_COUNT], defined in another file. *)
Variable VULKAN_RESOURCE_DELETE_SAFE_FRAMES_COUNT : Z.

(** [_poolSets] holds addresses; [objects] is the heap of live registries
    they point to. *)
Record t : Type := {
  _poolSets : list positive;
  objects : gmap positive DescriptorPoolSetContainerVulkan.t
}.

Definition new : t := {| _poolSets := []; objects := ∅ |}.

(** [poolSet->IsUnused ()] through the pointer. *)
Definition IsUnusedAt (m : t) (p : positive) : bool :=
  match objects m !! p with
  | Some c => IsUnused c
  | None => false
  end.

Definition AcquirePoolSetContainer (frameCount : Z) (m : t) : positive * t * list Call :=
  match List.find (IsUnusedAt m) (_poolSets m) with
  | Some p =>
      (p,
       {| _poolSets := _poolSets m;
          objects := alter (fun c => Reset (SetUsed frameCount true c)) p (objects m) |},
       [CallSetUsed p true; CallReset p])
  | None =>
      let p := fresh (dom (objects m)) in
      (p,
       {| _poolSets := _poolSets m ++ [p];
          objects := <[p := DescriptorPoolSetContainerVulkan.new frameCount]> (objects m) |},
       [CallNew p])
  end.

Definition ReleasePoolSet (frameCount : Z) (p : positive) (m : t) : t * list Call :=
  ({| _poolSets := _poolSets m;
      objects := alter (SetUsed frameCount false) p (objects m) |},
   [CallSetUsed p false]).

(** The condition of the [if] in [GC], [uint64] subtraction included. *)
Definition collectable (frameCount : Z) (m : t) (p : positive) : bool :=
  match objects m !! p with
  | Some c =>
      IsUnused c
      && bool_decide (VULKAN_RESOURCE_DELETE_SAFE_FRAMES_COUNT
                      < wrap64 (frameCount - GetLastFrameUsed c))
  | None => false
  end.

(** The [for] loop of [GC] with [n] entries left to visit: the next index
    is [n - 1]. *)
Fixpoint GC_loop (frameCount : Z) (n : nat) (m : t) : t * list Call :=
  match n with
  | O => (m, [])
  | S i =>
      match _poolSets m !! i with
      | Some p =>
          if collectable frameCount m p
          then ({| _poolSets := RemoveAt i (_poolSets m);
                   objects := delete p (objects m) |}, [CallDelete p])
          else GC_loop frameCount i m
      | None => GC_loop frameCount i m
      end
  end.

Definition GC (frameCount : Z) (m : t) : t * list Call :=
  GC_loop frameCount (length (_poolSets m)) m.

(** *** Callers *)

(** The manager, [Engine::FrameCount], and the leases that are out: the
    addresses returned by [AcquirePoolSetContainer] and not yet handed to
    [ReleasePoolSet]. *)
Record System : Type := {
  manager : t;
  FrameCount : Z;
  leases : list positive
}.

Inductive Event : Type :=
| Acquire
| Release (p : positive)
| CollectGarbage
| NextFrame
| Work (p : positive) (chains : gmap Z TypedDescriptorPoolSetVulkan.t).

Fixpoint removeFirst (p : positive) (l : list positive) : list positive :=
  match l with
  | [] => []
  | q :: l' => if decide (q = p) then l' else q :: removeFirst p l'
  end.

(** One call.  A caller releases, or works with, only a registry it holds:
    [None] otherwise.  [Work] stands for whatever the holder does with the
    registry's pool chains. *)
Definition step (e : Event) (s : System) : option System :=
  match e with
  | Acquire =>
      let '(p, m, _) := AcquirePoolSetContainer (FrameCount s) (manager s) in
      Some {| manager := m; FrameCount := FrameCount s; leases := p :: leases s |}
  | Release p =>
      if decide (p ∈ leases s)
      then Some {| manager := (ReleasePoolSet (FrameCount s) p (manager s)).1;
                   FrameCount := FrameCount s;
                   leases := removeFirst p (leases s) |}
      else None
  | CollectGarbage =>
      Some {| manager := (GC (FrameCount s) (manager s)).1;
              FrameCount := FrameCount s; leases := leases s |}
  | NextFrame =>
      Some {| manager := manager s; FrameCount := wrap64 (FrameCount s + 1);
              leases := leases s |}
  | Work p chains =>
      if decide (p ∈ leases s)
      then Some {| manager :=
                     {| _poolSets := _poolSets (manager s);
                        objects :=
                          alter (fun c => {| _typedDescriptorPools := chains;
                                             _lastFrameUsed := _lastFrameUsed c;
                                             _used := _used c |})
                                p (objects (manager s)) |};
                   FrameCount := FrameCount s; leases := leases s |}
      else None
  end.

(** The calls of [es], oldest first. *)
Fixpoint run (es : list Event) (s : System) : option System :=
  match es with
  | [] => Some s
  | e :: es' =>
      match step e s with
      | Some s' => run es' s'
      | None => None
      end
  end.

Definition initial (frameCount : Z) : System :=
  {| manager := new; FrameCount := frameCount; leases := [] |}.

(** Whether a call is made by the holder of [p] on its registry. *)
Definition touches (p : positive) (e : Event) : bool :=
  match e with
  | Release q => bool_decide (q = p)
  | Work q _ => bool_decide (q = p)
  | _ => false
  end.

(** The frames that pass during [es]. *)
Definition nextFrames (es : list Event) : nat :=
  length (List.filter (fun e => match e with NextFrame => true | _ => false end) es).

(** The greatest number of leases out at one time during [es], from [held]
    leases out and a greatest number of [peak] so far. *)
Fixpoint peakLeases (held peak : nat) (es : list Event) : nat :=
  match es with
  | [] => peak
  | Acquire :: es' => peakLeases (S held) (Nat.max peak (S held)) es'
  | Release _ :: es' => peakLeases (Nat.pred held) peak es'
  | _ :: es' => peakLeases held peak es'
  end.

(** [n] calls of [GC] in a row within one frame. *)
Fixpoint GC_calls (frameCount : Z) (n : nat) (m : t) : t :=
  match n with
  | O => m
  | S n' => GC_calls frameCount n' (GC frameCount m).1
  end.

(** What holds of the system after any sequence of calls. *)
Record Invariant (es : list Event) (s : System) : Prop := {
  inv_poolSets_NoDup : NoDup (_poolSets (manager s));
  inv_poolSets_live :
    forall p, p ∈ _poolSets (manager s) <-> is_Some (objects (manager s) !! p);
  inv_leases_NoDup : NoDup (leases s);
  inv_leases_used :
    forall p, p ∈ leases s <->
              exists c, objects (manager s) !! p = Some c /\ _used c = true;
  inv_free_released :
    forall p c, objects (manager s) !! p = Some c -> _used c = false ->
                Release p ∈ es
}.

End WithDriver.

(** *** Concrete runs, with a safety margin of two frames *)

#[local] Existing Instance TypedDescriptorPoolSetVulkan.twoPerPool.

Definition registry (lastFrameUsed : Z) (used : bool)
    : DescriptorPoolSetContainerVulkan.t :=
  {| _typedDescriptorPools := ∅; _lastFrameUsed := lastFrameUsed; _used := used |}.

(** Four registries in frame 10: free since long, in use, free and stale,
    free but recent. *)
Definition fourRegistries : t :=
  {| _poolSets := [1; 2; 3; 4]%positive;
     objects := {[ 1%positive := registry 1 false; 2%positive := registry 2 true;
                   3%positive := registry 3 false; 4%positive := registry 9 false ]} |}.

(** Two callers acquire, the first releases, a third acquires twice. *)
Definition sampleCalls : list Event :=
  [Acquire; Acquire; NextFrame; Release 1%positive; Acquire; Acquire].

End DescriptorPoolsManagerVulkan.


(** * Properties *)

(** ** Machine integers *)


Lemma wrap8_small x : 0 <= x < 256 -> wrap8 x = x.
Proof. intros H. unfold wrap8. apply Z.mod_small. lia. Qed.

Lemma wrap32_small x : 0 <= x < 2 ^ 32 -> wrap32 x = x.
Proof. intros H. unfold wrap32. apply Z.mod_small. lia. Qed.

Lemma wrap64_small x : 0 <= x < 2 ^ 64 -> wrap64 x = x.
Proof. intros H. unfold wrap64. apply Z.mod_small. lia. Qed.

(** ** The usage-ID cache *)

Section LayoutInfoFacts.
Import DescriptorSetLayoutInfoVulkan.
Variable MemCrc32 : list Z -> Z -> Z.
Local Abbreviation CacheTypesUsageID := (CacheTypesUsageID MemCrc32).
Local Abbreviation CacheTypesUsageID_calls := (CacheTypesUsageID_calls MemCrc32).
Local Abbreviation typesUsageHash := (typesUsageHash MemCrc32).

Lemma TypesUsage_memory_ext (h1 h2 : TypesUsage) :
  (forall ty, h1 ty = h2 ty) -> TypesUsage_memory h1 = TypesUsage_memory h2.
Proof.
  intros E. unfold TypesUsage_memory.
  apply map_ext_in. intros ty _. apply E.
Qed.

Lemma typesUsageHash_ext (l1 l2 : t) :
  (forall ty, GetTypesUsed l1 ty = GetTypesUsed l2 ty) ->
  typesUsageHash l1 = typesUsageHash l2.
Proof.
  intros E. unfold typesUsageHash. f_equal.
  apply TypesUsage_memory_ext, E.
Qed.

(** One call leaves the ID it assigned in the map under the signature's
    hash, and keeps every entry the map had. *)
Lemma CacheTypesUsageID_entry (l l' : t) (c c' : TypesUsageCache) :
  CacheTypesUsageID l c = (l', c') ->
  typesUsageHashMap c' !! typesUsageHash l = Some (_typesUsageID l')
  /\ typesUsageHashMap c ⊆ typesUsageHashMap c'.
Proof.
  unfold CacheTypesUsageID, typesUsageHash.
  destruct (typesUsageHashMap c !! _) as [id|] eqn:E; intros [= <- <-]; simpl.
  - done.
  - split; [apply lookup_insert_eq | by apply insert_subseteq].
Qed.

Lemma CacheTypesUsageID_calls_entries (ls : list t) :
  forall (c c' : TypesUsageCache) (ids : list Z),
  CacheTypesUsageID_calls ls c = (ids, c') ->
  typesUsageHashMap c ⊆ typesUsageHashMap c'
  /\ length ids = length ls
  /\ forall (i : nat) (l : t) (id : Z),
       ls !! i = Some l -> ids !! i = Some id ->
       typesUsageHashMap c' !! typesUsageHash l = Some id.
Proof.
  induction ls as [|l ls IH]; intros c c' ids; simpl.
  - intros [= <- <-]. repeat split; [done|]. intros i l id H; by destruct i.
  - destruct (CacheTypesUsageID l c) as [l1 c1] eqn:E1.
    destruct (CacheTypesUsageID_calls ls c1) as [ids1 c2] eqn:E2.
    intros [= <- <-].
    destruct (CacheTypesUsageID_entry _ _ _ _ E1) as [Hid Hsub1].
    destruct (IH _ _ _ E2) as (Hsub2 & Hlen & Hrest).
    split; [by etrans|]. split; [simpl; by rewrite Hlen|].
    intros [|i] l0 id; simpl.
    + intros [= <-] [= <-]. eapply lookup_weaken; eauto.
    + apply Hrest.
Qed.

(** C3.  In any run of [CacheTypesUsageID] calls against the shared cache,
    started from any cache state, two signatures whose histograms agree on
    every descriptor type are given the same usage ID, wherever the two
    calls stand in the run and whatever is called in between. *)
Theorem CacheTypesUsageID_equal_histograms
    (ls : list t) (c c' : TypesUsageCache) (ids : list Z)
    (i j : nat) (l1 l2 : t) (id1 id2 : Z) :
  CacheTypesUsageID_calls ls c = (ids, c') ->
  ls !! i = Some l1 -> ls !! j = Some l2 ->
  (forall ty, GetTypesUsed l1 ty = GetTypesUsed l2 ty) ->
  ids !! i = Some id1 -> ids !! j = Some id2 ->
  id1 = id2.
Proof.
  intros Hrun Hi Hj Heq Hid1 Hid2.
  destruct (CacheTypesUsageID_calls_entries _ _ _ _ Hrun) as (_ & _ & Hent).
  pose proof (Hent _ _ _ Hi Hid1) as H1.
  pose proof (Hent _ _ _ Hj Hid2) as H2.
  rewrite (typesUsageHash_ext _ _ Heq) in H1. congruence.
Qed.

Lemma CacheTypesUsageID_calls_length (ls : list t) (c : TypesUsageCache) :
  length (CacheTypesUsageID_calls ls c).1 = length ls.
Proof.
  destruct (CacheTypesUsageID_calls ls c) as [ids c'] eqn:E.
  by destruct (CacheTypesUsageID_calls_entries _ _ _ _ E) as (_ & ? & _).
Qed.

End LayoutInfoFacts.

Section LayoutInfoExamples.
Import DescriptorSetLayoutInfoVulkan.

Example CacheTypesUsageID_calls_sample :
  (CacheTypesUsageID_calls sampleCrc32 [sigA; sigB; sigA'; sigB] TypesUsageCache_init).1
  = [1; 2; 1; 2].
Proof. vm_compute. reflexivity. Qed.

(** An instance: the first and the third of four calls, two signatures with
    the same histogram and different groups, get the same ID. *)
Lemma CacheTypesUsageID_equal_histograms_witness :
  let ids :=
    (CacheTypesUsageID_calls sampleCrc32 [sigA; sigB; sigA'; sigB] TypesUsageCache_init).1 in
  default 0 (ids !! 0%nat) = default 0 (ids !! 2%nat).
Proof.
  cbv zeta.
  destruct (CacheTypesUsageID_calls sampleCrc32 [sigA; sigB; sigA'; sigB] TypesUsageCache_init)
    as [ids c'] eqn:Hrun.
  assert (ids = [1; 2; 1; 2]) as Hids.
  { change ids with (ids, c').1. rewrite <- Hrun. vm_compute. reflexivity. }
  apply (CacheTypesUsageID_equal_histograms sampleCrc32
           [sigA; sigB; sigA'; sigB] TypesUsageCache_init c' ids 0%nat 2%nat sigA sigA').
  - exact Hrun.
  - reflexivity.
  - reflexivity.
  - intros []; vm_compute; reflexivity.
  - rewrite Hids. reflexivity.
  - rewrite Hids. reflexivity.
Defined.

End LayoutInfoExamples.

(** ** The usage IDs handed out *)

Section UsageCacheFacts.
Import DescriptorSetLayoutInfoVulkan.
Variable MemCrc32 : list Z -> Z -> Z.
Local Abbreviation CacheTypesUsageID := (CacheTypesUsageID MemCrc32).
Local Abbreviation CacheTypesUsageID_calls := (CacheTypesUsageID_calls MemCrc32).
Local Abbreviation typesUsageHash := (typesUsageHash MemCrc32).

Lemma cacheWellFormed_init : cacheWellFormed 0 TypesUsageCache_init.
Proof.
  unfold cacheWellFormed. simpl. split; [lia|].
  split; intros ? ?; by rewrite lookup_empty.
Qed.

Lemma CacheTypesUsageID_wellFormed (n : Z) (l l' : t) (c c' : TypesUsageCache) :
  cacheWellFormed n c -> n + 1 < 2 ^ 32 - 1 ->
  CacheTypesUsageID l c = (l', c') ->
  cacheWellFormed (n + 1) c' /\ 1 <= _typesUsageID l' <= n + 1.
Proof.
  intros (Hu & Hids & Hinj) Hn.
  unfold DescriptorSetLayoutInfoVulkan.CacheTypesUsageID.
  destruct (typesUsageHashMap c !! _) as [id|] eqn:E; intros [= <- <-]; simpl.
  - pose proof (Hids _ _ E). split; [|lia].
    split; [lia|]. split; [done|]. apply Hinj.
  - assert (2 ^ 32 = 4294967296) as E32 by reflexivity.
    split; [|lia]. unfold cacheWellFormed. simpl.
    rewrite wrap32_small by lia. split; [lia|]. split.
    + intros h id. destruct (decide (MemCrc32 (TypesUsage_memory (_layoutTypes l)) 0 = h))
        as [<-|Hne].
      * rewrite lookup_insert_eq. intros [= <-]. lia.
      * rewrite lookup_insert_ne by done. intros Hh. pose proof (Hids _ _ Hh). lia.
    + intros h1 h2 id.
      destruct (decide (MemCrc32 (TypesUsage_memory (_layoutTypes l)) 0 = h1)) as [<-|Hne1];
        destruct (decide (MemCrc32 (TypesUsage_memory (_layoutTypes l)) 0 = h2)) as [<-|Hne2];
        rewrite ?lookup_insert_eq, ?lookup_insert_ne by done.
      * done.
      * intros [= <-] Hh. pose proof (Hids _ _ Hh). lia.
      * intros Hh [= <-]. pose proof (Hids _ _ Hh). lia.
      * apply Hinj.
Qed.

Lemma CacheTypesUsageID_calls_wellFormed (ls : list t) :
  forall (n : Z) (c c' : TypesUsageCache) (ids : list Z),
  cacheWellFormed n c -> n + Z.of_nat (length ls) < 2 ^ 32 - 1 ->
  CacheTypesUsageID_calls ls c = (ids, c') ->
  cacheWellFormed (n + Z.of_nat (length ls)) c'
  /\ Forall (fun id => 1 <= id <= n + Z.of_nat (length ls)) ids.
Proof.
  induction ls as [|l ls IH]; intros n c c' ids Hwf Hn; simpl.
  - intros [= <- <-]. by rewrite Z.add_0_r.
  - destruct (CacheTypesUsageID l c) as [l1 c1] eqn:E1.
    destruct (CacheTypesUsageID_calls ls c1) as [ids1 c2] eqn:E2.
    intros [= <- <-]. simpl length in Hn.
    destruct (CacheTypesUsageID_wellFormed n _ _ _ _ Hwf ltac:(lia) E1) as [Hwf1 Hid].
    destruct (IH (n + 1) _ _ _ Hwf1 ltac:(lia) E2) as [Hwf2 Hall].
    assert (n + Z.of_nat (S (length ls)) = n + 1 + Z.of_nat (length ls)) as -> by lia.
    split; [exact Hwf2|]. constructor; [lia | exact Hall].
Qed.

(** X16.  From the initial statics ([uniqueID = 1], empty map), in a run of
    fewer than [2^32 - 1] calls of [CacheTypesUsageID]: every ID handed out
    lies between 1 and the number of calls, so the counter has not wrapped
    and no ID is [~0], the value that marks a signature without ID; and two
    calls hand out the same ID exactly when the hashes of the two histograms
    are equal. *)
Theorem CacheTypesUsageID_ids_distinct
    (ls : list t) (c' : TypesUsageCache) (ids : list Z) :
  Z.of_nat (length ls) < 2 ^ 32 - 1 ->
  CacheTypesUsageID_calls ls TypesUsageCache_init = (ids, c') ->
  (forall i id, ids !! i = Some id ->
                1 <= id <= Z.of_nat (length ls) /\ id <> wrap32 (-1))
  /\ (forall i j l1 l2 id1 id2,
        ls !! i = Some l1 -> ls !! j = Some l2 ->
        ids !! i = Some id1 -> ids !! j = Some id2 ->
        id1 = id2 <-> typesUsageHash l1 = typesUsageHash l2).
Proof.
  intros Hn Hrun.
  destruct (CacheTypesUsageID_calls_wellFormed ls 0 _ _ _ cacheWellFormed_init
              ltac:(lia) Hrun) as [(_ & _ & Hinj) Hall].
  destruct (CacheTypesUsageID_calls_entries MemCrc32 _ _ _ _ Hrun) as (_ & _ & Hent).
  split.
  - intros i id Hid. rewrite Forall_lookup in Hall. specialize (Hall i id Hid).
    assert (2 ^ 32 = 4294967296) as E32 by reflexivity.
    change (wrap32 (-1)) with 4294967295. lia.
  - intros i j l1 l2 id1 id2 Hi Hj Hid1 Hid2.
    pose proof (Hent _ _ _ Hi Hid1) as H1.
    pose proof (Hent _ _ _ Hj Hid2) as H2.
    split.
    + intros <-. by apply (Hinj _ _ id1).
    + intros Heq. rewrite Heq in H1. congruence.
Qed.

End UsageCacheFacts.

Section UsageCacheExamples.
Import DescriptorSetLayoutInfoVulkan.

(** An instance: the four calls of above; the first two hand out different
    IDs, for different hashes. *)
Lemma CacheTypesUsageID_ids_distinct_witness :
  let ids :=
    (CacheTypesUsageID_calls sampleCrc32 [sigA; sigB; sigA'; sigB] TypesUsageCache_init).1 in
  ids !! 0%nat <> ids !! 1%nat
  /\ typesUsageHash sampleCrc32 sigA <> typesUsageHash sampleCrc32 sigB.
Proof.
  cbv zeta.
  destruct (CacheTypesUsageID_calls sampleCrc32 [sigA; sigB; sigA'; sigB] TypesUsageCache_init)
    as [ids c'] eqn:Hrun.
  assert (ids = [1; 2; 1; 2]) as Hids.
  { change ids with (ids, c').1. rewrite <- Hrun. vm_compute. reflexivity. }
  destruct (CacheTypesUsageID_ids_distinct sampleCrc32
              [sigA; sigB; sigA'; sigB] c' ids) as [_ Hsame].
  - simpl. lia.
  - exact Hrun.
  - assert (ids !! 0%nat = Some 1) as H0 by (by rewrite Hids).
    assert (ids !! 1%nat = Some 2) as H1 by (by rewrite Hids).
    split; [simpl; congruence|]. intros Heq.
    pose proof (proj2 (Hsame 0%nat 1%nat sigA sigB 1 2 eq_refl eq_refl H0 H1) Heq).
    discriminate.
Defined.

End UsageCacheExamples.

(** ** Building and comparing signatures *)

Section LayoutInfoMore.
Import DescriptorSetLayoutInfoVulkan.
Variable MemCrc32 : list Z -> Z -> Z.
Local Abbreviation AddBindings_loop := (AddBindings_loop MemCrc32).
Local Abbreviation AddBindingsForStage := (AddBindingsForStage MemCrc32).
Local Abbreviation build := (build MemCrc32).

Lemma wrap32_add_l (x y : Z) : wrap32 (wrap32 x + y) = wrap32 (x + y).
Proof. unfold wrap32. apply Zplus_mod_idemp_l. Qed.

(** The descriptors of type [ty] in metadata, counted once each whatever
    their element count. *)
Lemma typeCount_cons (ty : VkDescriptorType) (d : Descriptor) (ds : list Descriptor) :
  Z.of_nat (length (List.filter (fun d => bool_decide (DescriptorType d = ty)) (d :: ds)))
  = (if bool_decide (DescriptorType d = ty) then 1 else 0)
    + Z.of_nat (length (List.filter (fun d => bool_decide (DescriptorType d = ty)) ds)).
Proof. simpl. case_bool_decide; simpl length; lia. Qed.

Lemma AddBindings_loop_spec (stage : Z) (ds : list Descriptor) :
  forall (z : Z) (types : TypesUsage) (bindings : list VkDescriptorSetLayoutBinding)
         (hash : Z),
  let r := AddBindings_loop stage (wrap32 z) ds (types, bindings, hash) in
  r.1.2 = bindings
          ++ imap (fun k d => {| binding := wrap32 (z + Z.of_nat k);
                                 descriptorType := DescriptorType d;
                                 descriptorCount := Count d;
                                 stageFlags := stage |}) ds
  /\ forall ty,
       let n := Z.of_nat (length (List.filter
                                    (fun d => bool_decide (DescriptorType d = ty)) ds)) in
       r.1.1 ty = if bool_decide (n = 0) then types ty else wrap32 (types ty + n).
Proof.
  induction ds as [|d ds IH]; intros z types bindings hash; cbv zeta.
  - simpl. split; [by rewrite app_nil_r | done].
  - cbn [DescriptorSetLayoutInfoVulkan.AddBindings_loop].
    rewrite wrap32_add_l.
    destruct (IH (z + 1)
                (TypesUsage_incr types (DescriptorType d))
                (bindings ++ [{| binding := wrap32 z; descriptorType := DescriptorType d;
                                 descriptorCount := Count d; stageFlags := stage |}])
                (MemCrc32 (Binding_memory
                             {| binding := wrap32 z; descriptorType := DescriptorType d;
                                descriptorCount := Count d; stageFlags := stage |}) hash))
      as [Hb Ht].
    cbv zeta in Hb, Ht. simpl descriptorType. split.
    + rewrite Hb, <- app_assoc. f_equal. simpl. f_equal.
      * by rewrite Z.add_0_r.
      * apply imap_ext. intros k x _. simpl. do 2 f_equal. lia.
    + intros ty. rewrite Ht, typeCount_cons. unfold TypesUsage_incr.
      pose proof (Nat2Z.is_nonneg
                    (length (List.filter
                               (fun d => bool_decide (DescriptorType d = ty)) ds))) as Hn.
      destruct (decide (ty = DescriptorType d)) as [->|Hne].
      * rewrite (bool_decide_eq_true_2 (DescriptorType d = DescriptorType d)) by done.
        rewrite (bool_decide_eq_false_2 (1 + _ = 0)) by lia.
        case_bool_decide as H0; [by rewrite H0, Z.add_0_r|].
        rewrite wrap32_add_l. f_equal. lia.
      * rewrite (bool_decide_eq_false_2 (DescriptorType d = ty)) by done.
        by rewrite Z.add_0_l.
Qed.

Lemma AddBindingsForStage_fields (stage : Z) (descSet : nat)
    (descriptorInfo : SpirvShaderDescriptorInfo) (l : t) :
  let layouts :=
    if decide (length (_setLayouts l) <= descSet)%nat
    then Resize (descSet + 1) (_setLayouts l) else _setLayouts l in
  let old := default [] (LayoutBindings <$> layouts !! descSet) in
  _setLayouts (AddBindingsForStage stage descSet descriptorInfo l)
  = <[descSet := {| LayoutBindings := old ++ addedBindings stage descriptorInfo |}]> layouts
  /\ (forall ty,
        let n := Z.of_nat (length (List.filter
                                     (fun d => bool_decide (DescriptorType d = ty))
                                     descriptorInfo)) in
        _layoutTypes (AddBindingsForStage stage descSet descriptorInfo l) ty
        = if bool_decide (n = 0) then _layoutTypes l ty
          else wrap32 (_layoutTypes l ty + n))
  /\ _typesUsageID (AddBindingsForStage stage descSet descriptorInfo l) = _typesUsageID l.
Proof.
  cbv zeta. unfold DescriptorSetLayoutInfoVulkan.AddBindingsForStage.
  set (layouts := if decide (length (_setLayouts l) <= descSet)%nat
                  then Resize (descSet + 1) (_setLayouts l) else _setLayouts l).
  set (old := default [] (LayoutBindings <$> layouts !! descSet)).
  destruct (AddBindings_loop_spec stage descriptorInfo 0 (_layoutTypes l) old (_hash l))
    as [Hb Ht].
  cbv zeta in Hb, Ht. change (wrap32 0) with 0 in Hb, Ht.
  destruct (AddBindings_loop stage 0 descriptorInfo (_layoutTypes l, old, _hash l))
    as [[types bindings] hash].
  simpl in *. rewrite Hb. split; [|by split].
  do 3 f_equal.
Qed.

Lemma Resize_length (n : nat) (ls : list SetLayout) :
  length (Resize n ls) = Nat.max n (length ls).
Proof. unfold Resize. rewrite length_app, length_replicate. lia. Qed.

Lemma Resize_lookup (n : nat) (ls : list SetLayout) (g : nat) :
  Resize n ls !! g
  = if decide (g < length ls)%nat then ls !! g
    else if decide (g < n)%nat then Some {| LayoutBindings := [] |} else None.
Proof.
  unfold Resize. case_decide.
  - by rewrite lookup_app_l.
  - rewrite lookup_app_r by lia. case_decide.
    + apply lookup_replicate_2. lia.
    + apply lookup_ge_None. rewrite length_replicate. lia.
Qed.

(** X5.  [AddBindingsForStage] grows the group list to hold the set index
    and never shrinks it; it appends to the named group one binding per
    descriptor of the metadata, in order, with binding indices restarting
    at 0 for the call, the descriptor's type and element count, and the
    stage flags given; every other group is as before (a group created by
    the growth is empty), and the usage ID is not touched. *)
Theorem AddBindingsForStage_groups (stage : Z) (descSet : nat)
    (descriptorInfo : SpirvShaderDescriptorInfo) (l : t) :
  length (_setLayouts (AddBindingsForStage stage descSet descriptorInfo l))
  = Nat.max (length (_setLayouts l)) (S descSet)
  /\ _setLayouts (AddBindingsForStage stage descSet descriptorInfo l) !! descSet
     = Some {| LayoutBindings :=
                 default [] (LayoutBindings <$> _setLayouts l !! descSet)
                 ++ addedBindings stage descriptorInfo |}
  /\ (forall g, g <> descSet ->
        _setLayouts (AddBindingsForStage stage descSet descriptorInfo l) !! g
        = if decide (g < length (_setLayouts l))%nat then _setLayouts l !! g
          else if decide (g < descSet)%nat then Some {| LayoutBindings := [] |}
          else None)
  /\ _typesUsageID (AddBindingsForStage stage descSet descriptorInfo l) = _typesUsageID l.
Proof.
  destruct (AddBindingsForStage_fields stage descSet descriptorInfo l) as (Hg & _ & Hid).
  cbv zeta in Hg. rewrite Hg. split; [|split; [|split; [|done]]].
  - rewrite length_insert. case_decide; [rewrite Resize_length|]; lia.
  - rewrite list_lookup_insert_eq.
    + do 3 f_equal. case_decide as Hd; [|done].
      rewrite Resize_lookup. rewrite decide_False by lia.
      rewrite decide_True by lia. rewrite (lookup_ge_None_2 (_setLayouts l)) by lia. done.
    + case_decide; [rewrite Resize_length|]; lia.
  - intros g Hne. rewrite list_lookup_insert_ne by done.
    case_decide as Hd.
    + rewrite Resize_lookup. case_decide; [done|].
      case_decide; case_decide; try done; lia.
    + case_decide; [done|]. rewrite decide_False by lia.
      apply lookup_ge_None_2. lia.
Qed.

Lemma bindingsOfType_app (ty : VkDescriptorType) (g1 g2 : list SetLayout) :
  bindingsOfType ty (g1 ++ g2) = bindingsOfType ty g1 + bindingsOfType ty g2.
Proof.
  unfold bindingsOfType. rewrite fmap_app, concat_app, List.filter_app, length_app. lia.
Qed.

Lemma bindingsOfType_empty_groups (ty : VkDescriptorType) (n : nat) :
  bindingsOfType ty (replicate n {| LayoutBindings := [] |}) = 0.
Proof.
  induction n as [|n IH]; [done|].
  change (replicate (S n) {| LayoutBindings := [] |})
    with ([{| LayoutBindings := [] |}] ++ replicate n {| LayoutBindings := [] |}).
  rewrite bindingsOfType_app, IH. done.
Qed.

Lemma bindingsOfType_insert (ty : VkDescriptorType) (groups : list SetLayout)
    (g : nat) (old new : list VkDescriptorSetLayoutBinding) :
  groups !! g = Some {| LayoutBindings := old |} ->
  bindingsOfType ty (<[g := {| LayoutBindings := old ++ new |}]> groups)
  = bindingsOfType ty groups
    + Z.of_nat (length (List.filter (fun b => bool_decide (descriptorType b = ty)) new)).
Proof.
  intros Hg. pose proof (lookup_lt_Some _ _ _ Hg) as Hlt.
  rewrite insert_take_drop by done.
  rewrite <- (take_drop_middle groups g _ Hg) at 3.
  rewrite !bindingsOfType_app.
  change (?x :: drop (S g) groups) with ([x] ++ drop (S g) groups).
  rewrite !bindingsOfType_app. unfold bindingsOfType at 2 5. simpl.
  rewrite !app_nil_r, List.filter_app, length_app. lia.
Qed.

Lemma addedBindings_typeCount (ty : VkDescriptorType) (stage : Z)
    (ds : list Descriptor) :
  length (List.filter (fun b => bool_decide (descriptorType b = ty))
                      (addedBindings stage ds))
  = length (List.filter (fun d => bool_decide (DescriptorType d = ty)) ds).
Proof.
  unfold addedBindings.
  assert (forall f : nat -> Z,
            length (List.filter (fun b => bool_decide (descriptorType b = ty))
                      (imap (fun k d => {| binding := f k;
                                           descriptorType := DescriptorType d;
                                           descriptorCount := Count d;
                                           stageFlags := stage |}) ds))
            = length (List.filter (fun d => bool_decide (DescriptorType d = ty)) ds))
    as Hgen.
  { induction ds as [|d ds IH]; intros f; simpl; [done|].
    case_bool_decide; simpl; by rewrite <- (IH (f ∘ S)). }
  apply (Hgen (fun k => wrap32 (Z.of_nat k))).
Qed.

Lemma AddBindingsForStage_histogram (stage : Z) (descSet : nat)
    (descriptorInfo : SpirvShaderDescriptorInfo) (l : t) (ty : VkDescriptorType) :
  _layoutTypes l ty = wrap32 (bindingsOfType ty (_setLayouts l)) ->
  _layoutTypes (AddBindingsForStage stage descSet descriptorInfo l) ty
  = wrap32 (bindingsOfType ty
              (_setLayouts (AddBindingsForStage stage descSet descriptorInfo l))).
Proof.
  intros Hinv.
  destruct (AddBindingsForStage_fields stage descSet descriptorInfo l) as (Hg & Ht & _).
  cbv zeta in Hg, Ht. rewrite Hg, Ht. clear Hg Ht.
  set (layouts := if decide (length (_setLayouts l) <= descSet)%nat
                  then Resize (descSet + 1) (_setLayouts l) else _setLayouts l).
  assert (bindingsOfType ty layouts = bindingsOfType ty (_setLayouts l)) as Hsame.
  { unfold layouts. case_decide; [|done]. unfold Resize.
    by rewrite bindingsOfType_app, bindingsOfType_empty_groups, Z.add_0_r. }
  assert (exists x, layouts !! descSet = Some x) as [[old] Hold].
  { apply lookup_lt_is_Some_2. unfold layouts.
    case_decide; [rewrite Resize_length|]; lia. }
  rewrite Hold. simpl.
  rewrite (bindingsOfType_insert ty layouts descSet old _ Hold), Hsame.
  rewrite addedBindings_typeCount.
  case_bool_decide as H0; [by rewrite H0, Z.add_0_r|].
  by rewrite Hinv, wrap32_add_l.
Qed.

(** X6.  In a signature built by any sequence of [AddBindingsForStage]
    calls, the histogram entry of each descriptor type is the number of
    bindings of that type over all groups, as a [uint32]: a binding counts
    once whatever its element count. *)
Theorem build_histogram_counts_bindings
    (calls : list (Z * nat * SpirvShaderDescriptorInfo)) (ty : VkDescriptorType) :
  GetTypesUsed (build calls) ty
  = wrap32 (bindingsOfType ty (_setLayouts (build calls))).
Proof.
  unfold GetTypesUsed, DescriptorSetLayoutInfoVulkan.build.
  induction calls as [|[[stage descSet] descriptorInfo] calls IH] using rev_ind.
  - reflexivity.
  - rewrite fold_left_app. simpl. by apply AddBindingsForStage_histogram.
Qed.

Lemma VkDescriptorType_value_inj (a b : VkDescriptorType) :
  VkDescriptorType_value a = VkDescriptorType_value b -> a = b.
Proof. by destruct a, b. Qed.

Lemma Bindings_memory_inj (a b : list VkDescriptorSetLayoutBinding) :
  length a = length b -> Bindings_memory a = Bindings_memory b -> a = b.
Proof.
  revert b. induction a as [|x a IH]; intros [|y b]; simpl; try done.
  intros [= Hlen]. unfold Bindings_memory. simpl.
  intros [= Hb Ht Hc Hs Hrest]. f_equal; [|by apply IH].
  destruct x, y. simpl in *. apply VkDescriptorType_value_inj in Ht. congruence.
Qed.

Lemma equals_loop_true (mine other : list SetLayout) :
  length other = length mine ->
  equals_loop mine other = true <-> other = mine.
Proof.
  revert other. induction mine as [|m mine IH]; intros [|o other]; simpl; try done.
  intros [= Hlen].
  case_bool_decide as Hc; simpl.
  - destruct (decide (length (LayoutBindings m) = 0%nat)) as [H0|H0].
    + rewrite (bool_decide_eq_true_2 _ H0). simpl. rewrite (IH other Hlen).
      destruct m as [bm], o as [bo]. simpl in *.
      destruct bm; [|done]. destruct bo; [|done].
      split; [by intros -> | by intros [= ->]].
    + rewrite (bool_decide_eq_false_2 _ H0). simpl. unfold MemoryCompare.
      case_bool_decide as Hm; simpl.
      * rewrite (IH other Hlen). apply Bindings_memory_inj in Hm; [|done].
        destruct m as [bm], o as [bo]. simpl in *. subst.
        split; [by intros -> | by intros [= ->]].
      * split; [done|]. intros [= -> ->]. done.
  - split; [done|]. intros [= -> ->]. done.
Qed.

(** X7.  [operator==] answers [true] exactly when the two signatures have
    the same usage ID and the same groups with the same bindings in the same
    order.  The content hash and the histogram play no part in it. *)
Theorem equals_true_iff (l other : t) :
  equals l other = true
  <-> _typesUsageID other = _typesUsageID l /\ _setLayouts other = _setLayouts l.
Proof.
  unfold equals. case_bool_decide as Hlen; simpl.
  - case_bool_decide as Hid; simpl.
    + rewrite (equals_loop_true _ _ Hlen). tauto.
    + split; [done | tauto].
  - split; [done|]. intros [_ Heq]. by rewrite Heq in Hlen.
Qed.

End LayoutInfoMore.

(** ** Compiling a layout *)

Section CompileFacts.
Import DescriptorSetLayoutInfoVulkan DescriptorSetLayoutVulkan.
Variable MemCrc32 : list Z -> Z -> Z.
Variable vkCreateDescriptorSetLayout :
  list (list VkDescriptorSetLayoutBinding) -> list VkDescriptorSetLayoutBinding -> option VkHandle.
Local Abbreviation createLayout := (createLayout vkCreateDescriptorSetLayout).
Local Abbreviation createLayouts := (createLayouts vkCreateDescriptorSetLayout).
Local Abbreviation cacheTypesUsageID := (cacheTypesUsageID MemCrc32).
Local Abbreviation Compile := (Compile MemCrc32 vkCreateDescriptorSetLayout).

Lemma categoryTotals_exact (l : t) :
  histogramBounded l ->
  samplersTotal l = typesUsed l VK_DESCRIPTOR_TYPE_SAMPLER
                    + typesUsed l VK_DESCRIPTOR_TYPE_COMBINED_IMAGE_SAMPLER
  /\ uniformBuffersTotal l = typesUsed l VK_DESCRIPTOR_TYPE_UNIFORM_BUFFER
                    + typesUsed l VK_DESCRIPTOR_TYPE_UNIFORM_BUFFER_DYNAMIC
  /\ storageBuffersTotal l = typesUsed l VK_DESCRIPTOR_TYPE_STORAGE_BUFFER
                    + typesUsed l VK_DESCRIPTOR_TYPE_STORAGE_BUFFER_DYNAMIC
  /\ sampledImagesTotal l = typesUsed l VK_DESCRIPTOR_TYPE_COMBINED_IMAGE_SAMPLER
                    + typesUsed l VK_DESCRIPTOR_TYPE_SAMPLED_IMAGE
                    + typesUsed l VK_DESCRIPTOR_TYPE_UNIFORM_TEXEL_BUFFER
  /\ storageImagesTotal l = typesUsed l VK_DESCRIPTOR_TYPE_STORAGE_IMAGE
                    + typesUsed l VK_DESCRIPTOR_TYPE_STORAGE_TEXEL_BUFFER.
Proof.
  intros B.
  pose proof (B VK_DESCRIPTOR_TYPE_SAMPLER). pose proof (B VK_DESCRIPTOR_TYPE_COMBINED_IMAGE_SAMPLER).
  pose proof (B VK_DESCRIPTOR_TYPE_SAMPLED_IMAGE). pose proof (B VK_DESCRIPTOR_TYPE_STORAGE_IMAGE).
  pose proof (B VK_DESCRIPTOR_TYPE_UNIFORM_TEXEL_BUFFER). pose proof (B VK_DESCRIPTOR_TYPE_STORAGE_TEXEL_BUFFER).
  pose proof (B VK_DESCRIPTOR_TYPE_UNIFORM_BUFFER). pose proof (B VK_DESCRIPTOR_TYPE_STORAGE_BUFFER).
  pose proof (B VK_DESCRIPTOR_TYPE_UNIFORM_BUFFER_DYNAMIC). pose proof (B VK_DESCRIPTOR_TYPE_STORAGE_BUFFER_DYNAMIC).
  unfold samplersTotal, uniformBuffersTotal, storageBuffersTotal, sampledImagesTotal, storageImagesTotal.
  assert (2 ^ 30 = 1073741824) as E30 by reflexivity.
  assert (2 ^ 32 = 4294967296) as E32 by reflexivity.
  rewrite !(wrap32_small (typesUsed _ _ + typesUsed _ _)) by lia.
  by rewrite !wrap32_small by lia.
Qed.

(** The creation loop never asserts; where it returns it has made one
    layout object per group, in group order. *)
Lemma createLayouts_outcome (groups : list SetLayout) :
  forall w : CompileWorld,
  match createLayouts groups w with
  | (Returned hs, w') =>
      length hs = length groups
      /\ nativeLayouts w' = nativeLayouts w ++ map LayoutBindings groups
      /\ usageCache w' = usageCache w
  | (VulkanResultFailed, _) =>
      exists created bs, vkCreateDescriptorSetLayout created bs = None
  | _ => False
  end.
Proof.
  induction groups as [|g gs IH]; intros w; simpl.
  - unfold ret. by rewrite app_nil_r.
  - unfold bind, createLayout.
    destruct (vkCreateDescriptorSetLayout (nativeLayouts w) (LayoutBindings g)) as [h|] eqn:E;
      [|eauto].
    specialize (IH {| nativeLayouts := nativeLayouts w ++ [LayoutBindings g];
                      usageCache := usageCache w |}).
    destruct (createLayouts gs _) as [[hs| | |] w']; try done.
    unfold ret. simpl in *. destruct IH as (-> & -> & ->).
    by rewrite <- app_assoc.
Qed.

Lemma Compile_asserts (limits : VkPhysicalDeviceLimits) (l : t) (w : CompileWorld) :
  _handles l <> [] \/ reachesSomeLimit limits l ->
  Compile limits l w = (AssertionFailed, w).
Proof.
  intros H. unfold Compile, bind, ASSERT.
  repeat (case_bool_decide; [|reflexivity]).
  exfalso. destruct H as [H|H]; [done|].
  unfold reachesSomeLimit, categoryChecks in H.
  rewrite !Exists_cons, Exists_nil in H. simpl in H. lia.
Qed.

Lemma Compile_passes (limits : VkPhysicalDeviceLimits) (l : t) (w : CompileWorld) :
  _handles l = [] -> belowLimits limits l ->
  Compile limits l w =
    (handles <- createLayouts (_setLayouts (info l)) ;;
     i <- (if bool_decide (_typesUsageID (info l) = wrap32 (-1))
           then cacheTypesUsageID (info l) else ret (info l)) ;;
     ret {| info := i; _handles := handles;
            _allocateInfo := {| descriptorSetCount := Z.of_nat (length handles);
                                pSetLayouts := handles |} |}) w.
Proof.
  intros Hh Hb. unfold belowLimits, categoryChecks in Hb.
  rewrite !Forall_cons in Hb. simpl in Hb.
  destruct Hb as (?&?&?&?&?&?&?&_).
  unfold Compile, ASSERT.
  rewrite (bool_decide_eq_true_2 (_handles l = [])) by done.
  do 7 rewrite (bool_decide_eq_true_2 (_ < _)) by assumption.
  reflexivity.
Qed.

(** C4, as the code has it.  [Compile] stops on an assertion, with no layout
    object created, when the layout was compiled before or when some
    category total (a [uint32] sum) reaches or exceeds its device limit.
    When the layout has no handles yet and every category total is strictly
    below its limit, no assertion fires, and where every driver call
    succeeds [Compile] returns with one new layout object and one handle per
    group, listed in the allocation template. *)
Theorem Compile_validates_limits
    (limits : VkPhysicalDeviceLimits) (l : t) (w : CompileWorld) :
  (_handles l <> [] \/ reachesSomeLimit limits l ->
     Compile limits l w = (AssertionFailed, w))
  /\ (_handles l = [] -> belowLimits limits l ->
       (Compile limits l w).1 <> AssertionFailed
       /\ ((forall created bs, is_Some (vkCreateDescriptorSetLayout created bs)) ->
           exists (l' : t) (w' : CompileWorld),
             Compile limits l w = (Returned l', w')
             /\ length (_handles l') = length (_setLayouts (info l))
             /\ nativeLayouts w' =
                  nativeLayouts w ++ map LayoutBindings (_setLayouts (info l))
             /\ _allocateInfo l' =
                  {| descriptorSetCount := Z.of_nat (length (_setLayouts (info l)));
                     pSetLayouts := _handles l' |})).
Proof.
  split; [apply Compile_asserts|].
  intros Hh Hb. rewrite (Compile_passes _ _ _ Hh Hb).
  unfold bind.
  pose proof (createLayouts_outcome (_setLayouts (info l)) w) as Hc.
  destruct (createLayouts (_setLayouts (info l)) w) as [[hs| | |] w1] eqn:E; try done.
  - destruct Hc as (Hlen & Hlog & Hcache).
    assert (exists i c, (if bool_decide (_typesUsageID (info l) = wrap32 (-1))
                         then cacheTypesUsageID (info l) else ret (info l)) w1
                        = (Returned i, {| nativeLayouts := nativeLayouts w1; usageCache := c |}))
      as (i & c & Hi).
    { case_bool_decide.
      - unfold cacheTypesUsageID.
        destruct (CacheTypesUsageID MemCrc32 (info l) (usageCache w1)) as [i c]. eauto.
      - unfold ret. exists (info l), (usageCache w1). by destruct w1. }
    rewrite Hi. unfold ret. simpl. split; [done|].
    intros _. eexists _, _. split; [reflexivity|]. simpl.
    by rewrite Hlen.
  - simpl. split; [done|]. intros Hok.
    destruct Hc as (created & bs & Hnone).
    destruct (Hok created bs) as [h Hh']. congruence.
Qed.

End CompileFacts.

Section CompileExamples.
Import DescriptorSetLayoutInfoVulkan DescriptorSetLayoutVulkan.

(** C4 as the specification states it fails where a total equals its limit:
    one sampler against a device limit of one sampler is within the limit,
    yet [Compile] stops on the assertion. *)
Lemma Compile_at_limit_counterexample :
  withinLimits (limitsWith 1) oneSampler
  /\ _handles oneSampler = []
  /\ Compile sampleCrc32 sampleDriver (limitsWith 1) oneSampler world0
     = (AssertionFailed, world0).
Proof.
  split; [|split; reflexivity].
  unfold withinLimits. repeat constructor; vm_compute; discriminate.
Qed.

(** An instance: the sampler layout against a limit of one sampler, and
    against a limit of two. *)
Lemma Compile_validates_limits_witness :
  Compile sampleCrc32 sampleDriver (limitsWith 1) oneSampler world0
    = (AssertionFailed, world0)
  /\ exists (l' : t) (w' : CompileWorld),
       Compile sampleCrc32 sampleDriver (limitsWith 2) oneSampler world0 = (Returned l', w')
       /\ length (_handles l') = 1%nat
       /\ nativeLayouts w' = map LayoutBindings (_setLayouts (info oneSampler))
       /\ _allocateInfo l' = {| descriptorSetCount := 1; pSetLayouts := _handles l' |}.
Proof.
  split.
  - apply (proj1 (Compile_validates_limits sampleCrc32 sampleDriver
                    (limitsWith 1) oneSampler world0)).
    right. apply Exists_cons_hd. vm_compute. discriminate.
  - assert (belowLimits (limitsWith 2) oneSampler) as Hb
      by (repeat constructor; vm_compute; reflexivity).
    destruct (proj2 (Compile_validates_limits sampleCrc32 sampleDriver
                       (limitsWith 2) oneSampler world0) eq_refl Hb) as [_ Hrun].
    apply Hrun. intros created bs. by eexists.
Defined.

End CompileExamples.

(** ** More on compiling a layout *)

Section CompileMore.
Import DescriptorSetLayoutInfoVulkan DescriptorSetLayoutVulkan.
Variable MemCrc32 : list Z -> Z -> Z.
Variable vkCreateDescriptorSetLayout :
  list (list VkDescriptorSetLayoutBinding) -> list VkDescriptorSetLayoutBinding -> option VkHandle.
Local Abbreviation createLayouts := (createLayouts vkCreateDescriptorSetLayout).
Local Abbreviation Compile := (Compile MemCrc32 vkCreateDescriptorSetLayout).
Local Abbreviation typesUsageHash := (typesUsageHash MemCrc32).

Lemma belowLimits_or_reaches (limits : VkPhysicalDeviceLimits) (l : t) :
  belowLimits limits l \/ reachesSomeLimit limits l.
Proof.
  unfold belowLimits, reachesSomeLimit.
  destruct (Forall_Exists_dec (fun p : Z * Z => p.1 < p.2) (fun p : Z * Z => p.2 <= p.1)
              (fun p => Z_lt_le_dec p.1 p.2) (categoryChecks limits l)) as [H|H];
    [by left | by right].
Qed.

(** All that a returning [Compile] has done. *)
Lemma Compile_Returned_inv (limits : VkPhysicalDeviceLimits) (l l' : t)
    (w w' : CompileWorld) :
  Compile limits l w = (Returned l', w') ->
  _handles l = [] /\ belowLimits limits l
  /\ length (_handles l') = length (_setLayouts (info l))
  /\ nativeLayouts w' = nativeLayouts w ++ map LayoutBindings (_setLayouts (info l))
  /\ _allocateInfo l' = {| descriptorSetCount := Z.of_nat (length (_handles l'));
                           pSetLayouts := _handles l' |}
  /\ _setLayouts (info l') = _setLayouts (info l)
  /\ _layoutTypes (info l') = _layoutTypes (info l)
  /\ _hash (info l') = _hash (info l)
  /\ (if bool_decide (_typesUsageID (info l) = wrap32 (-1))
      then typesUsageHashMap (usageCache w') !! typesUsageHash (info l)
           = Some (_typesUsageID (info l'))
           /\ typesUsageHashMap (usageCache w) ⊆ typesUsageHashMap (usageCache w')
      else _typesUsageID (info l') = _typesUsageID (info l)
           /\ usageCache w' = usageCache w).
Proof.
  intros Hrun.
  assert (_handles l = []) as Hh.
  { destruct (decide (_handles l = [])) as [|Hne]; [done|].
    rewrite (Compile_asserts MemCrc32 vkCreateDescriptorSetLayout limits l w) in Hrun;
      [done | by left]. }
  assert (belowLimits limits l) as Hb.
  { destruct (belowLimits_or_reaches limits l) as [|Hr]; [done|].
    rewrite (Compile_asserts MemCrc32 vkCreateDescriptorSetLayout limits l w) in Hrun;
      [done | by right]. }
  split; [done|]. split; [done|].
  rewrite (Compile_passes MemCrc32 vkCreateDescriptorSetLayout _ _ _ Hh Hb) in Hrun.
  unfold bind in Hrun.
  pose proof (createLayouts_outcome vkCreateDescriptorSetLayout
                (_setLayouts (info l)) w) as Hc.
  destruct (createLayouts (_setLayouts (info l)) w) as [[hs| | |] w1]; try done.
  destruct Hc as (Hlen & Hlog & Hcache).
  case_bool_decide as Hid.
  - unfold cacheTypesUsageID in Hrun.
    destruct (CacheTypesUsageID MemCrc32 (info l) (usageCache w1)) as [i c] eqn:Hcall.
    unfold ret in Hrun. injection Hrun as <- <-. simpl.
    destruct (CacheTypesUsageID_entry MemCrc32 _ _ _ _ Hcall) as [Hent Hsub].
    unfold DescriptorSetLayoutInfoVulkan.CacheTypesUsageID in Hcall.
    destruct (typesUsageHashMap (usageCache w1) !! _); injection Hcall as <- <-;
      simpl; rewrite <- Hcache; by repeat split.
  - unfold ret in Hrun. injection Hrun as <- <-. simpl. by repeat split.
Qed.

(** With no handles yet, every total below its limit and a driver that
    creates every layout, [Compile] returns. *)
Lemma Compile_returns (limits : VkPhysicalDeviceLimits) (l : t) (w : CompileWorld) :
  _handles l = [] -> belowLimits limits l ->
  (forall created bs, vkCreateDescriptorSetLayout created bs <> None) ->
  exists l' w', Compile limits l w = (Returned l', w').
Proof.
  intros Hh Hb Hdrv.
  rewrite (Compile_passes MemCrc32 vkCreateDescriptorSetLayout _ _ _ Hh Hb).
  unfold bind.
  pose proof (createLayouts_outcome vkCreateDescriptorSetLayout
                (_setLayouts (info l)) w) as Hc.
  destruct (createLayouts (_setLayouts (info l)) w) as [[hs| | |] w1]; try done.
  - case_bool_decide.
    + unfold cacheTypesUsageID.
      destruct (CacheTypesUsageID MemCrc32 (info l) (usageCache w1)) as [i c].
      unfold ret. eauto.
    + unfold ret. eauto.
  - destruct Hc as (created & bs & E). by destruct (Hdrv created bs).
Qed.

(** X8.  A layout is compiled once.  After [Compile] has returned for a
    layout with at least one group, every further [Compile] of the result,
    whatever the limits and the world, stops on the first assertion and
    creates nothing.  A layout without groups gets no handle and no layout
    object, and compiling the result again in the world it left returns. *)
Theorem Compile_once (limits : VkPhysicalDeviceLimits) (l l' : t)
    (w w' : CompileWorld) :
  Compile limits l w = (Returned l', w') ->
  (_setLayouts (info l) <> [] ->
     forall limits2 w2, Compile limits2 l' w2 = (AssertionFailed, w2))
  /\ (_setLayouts (info l) = [] ->
      _handles l' = [] /\ nativeLayouts w' = nativeLayouts w
      /\ exists l'' w'', Compile limits l' w' = (Returned l'', w'')).
Proof.
  intros Hrun.
  destruct (Compile_Returned_inv _ _ _ _ _ Hrun)
    as (Hh & Hb & Hlen & Hlog & _ & Hg & Ht & _).
  split.
  - intros Hne limits2 w2. apply Compile_asserts. left.
    intros Hnil. rewrite Hnil in Hlen. simpl in Hlen.
    destruct (_setLayouts (info l)); [done | discriminate].
  - intros Hnil. rewrite Hnil in Hlen, Hlog. simpl in Hlog. rewrite app_nil_r in Hlog.
    assert (_handles l' = []) as Hh' by (by destruct (_handles l')).
    split; [done|]. split; [done|].
    assert (belowLimits limits l') as Hb'.
    { unfold belowLimits, categoryChecks, samplersTotal, uniformBuffersTotal,
        uniformBuffersDynamicTotal, storageBuffersTotal, storageBuffersDynamicTotal,
        sampledImagesTotal, storageImagesTotal, typesUsed in *. by rewrite Ht. }
    rewrite (Compile_passes MemCrc32 vkCreateDescriptorSetLayout _ _ _ Hh' Hb').
    rewrite Hg, Hnil. unfold bind. simpl. unfold ret.
    case_bool_decide.
    + unfold cacheTypesUsageID.
      destruct (CacheTypesUsageID MemCrc32 (info l') _). by eexists _, _.
    + by eexists _, _.
Qed.

(** X9.  A returning [Compile] leaves the groups, the histogram and the
    content hash of the signature as they were.  A usage ID that was already
    assigned is kept and the shared cache is not touched; an unassigned one
    ([~0]) becomes the ID the cache holds, after the call, under the hash of
    the histogram, and the cache has only grown. *)
Theorem Compile_keeps_signature (limits : VkPhysicalDeviceLimits) (l l' : t)
    (w w' : CompileWorld) :
  Compile limits l w = (Returned l', w') ->
  _setLayouts (info l') = _setLayouts (info l)
  /\ _layoutTypes (info l') = _layoutTypes (info l)
  /\ _hash (info l') = _hash (info l)
  /\ (_typesUsageID (info l) <> wrap32 (-1) ->
      _typesUsageID (info l') = _typesUsageID (info l)
      /\ usageCache w' = usageCache w)
  /\ (_typesUsageID (info l) = wrap32 (-1) ->
      typesUsageHashMap (usageCache w') !! typesUsageHash (info l)
      = Some (GetTypesUsageID l')
      /\ typesUsageHashMap (usageCache w) ⊆ typesUsageHashMap (usageCache w')).
Proof.
  intros Hrun.
  destruct (Compile_Returned_inv _ _ _ _ _ Hrun)
    as (_ & _ & _ & _ & _ & Hg & Ht & Hhash & Hid).
  repeat (split; [done|]).
  case_bool_decide; split; intros; done.
Qed.

(** X10.  Two layouts with no usage ID yet and the same histogram, compiled
    one after the other against the shared cache (whatever else was cached
    in between), come out with the same usage ID. *)
Theorem Compile_same_histogram_same_ID
    (limits1 limits2 : VkPhysicalDeviceLimits) (l1 l1' l2 l2' : t)
    (w w1 v v1 : CompileWorld) :
  Compile limits1 l1 w = (Returned l1', w1) ->
  Compile limits2 l2 v = (Returned l2', v1) ->
  typesUsageHashMap (usageCache w1) ⊆ typesUsageHashMap (usageCache v) ->
  _typesUsageID (info l1) = wrap32 (-1) ->
  _typesUsageID (info l2) = wrap32 (-1) ->
  (forall ty, typesUsed l1 ty = typesUsed l2 ty) ->
  GetTypesUsageID l1' = GetTypesUsageID l2'.
Proof.
  intros Hrun1 Hrun2 Hsub Hid1 Hid2 Hsame.
  destruct (Compile_Returned_inv _ _ _ _ _ Hrun1) as (_ & _ & _ & _ & _ & _ & _ & _ & H1).
  destruct (Compile_Returned_inv _ _ _ _ _ Hrun2) as (_ & _ & _ & _ & _ & _ & _ & _ & H2).
  rewrite bool_decide_eq_true_2 in H1, H2 by done.
  destruct H1 as [H1 _]. destruct H2 as [H2 Hsub2].
  rewrite (typesUsageHash_ext MemCrc32 (info l1) (info l2) Hsame) in H1.
  eapply lookup_weaken in H1; [|exact Hsub].
  eapply lookup_weaken in H1; [|exact Hsub2].
  unfold GetTypesUsageID. congruence.
Qed.

End CompileMore.

Section CompileMoreExamples.
Import DescriptorSetLayoutInfoVulkan DescriptorSetLayoutVulkan.

(** An instance: the sampler layout compiled, then compiled again. *)
Lemma Compile_once_witness :
  exists l' w',
    Compile sampleCrc32 sampleDriver (limitsWith 2) oneSampler world0 = (Returned l', w')
    /\ Compile sampleCrc32 sampleDriver (limitsWith 2) l' w' = (AssertionFailed, w').
Proof.
  destruct (Compile sampleCrc32 sampleDriver (limitsWith 2) oneSampler world0)
    as [[l'| | |] w'] eqn:Hrun; try (by vm_compute in Hrun).
  exists l', w'. split; [done|].
  apply (proj1 (Compile_once sampleCrc32 sampleDriver (limitsWith 2) oneSampler l'
                  world0 w' Hrun)).
  by vm_compute.
Defined.

(** An instance: the sampler layout keeps its one group. *)
Lemma Compile_keeps_signature_witness :
  exists l' w',
    Compile sampleCrc32 sampleDriver (limitsWith 2) oneSampler world0 = (Returned l', w')
    /\ _setLayouts (info l') = _setLayouts (info oneSampler).
Proof.
  destruct (Compile sampleCrc32 sampleDriver (limitsWith 2) oneSampler world0)
    as [[l'| | |] w'] eqn:Hrun; try (by vm_compute in Hrun).
  exists l', w'. split; [done|].
  by destruct (Compile_keeps_signature sampleCrc32 sampleDriver (limitsWith 2) oneSampler l'
                 world0 w' Hrun) as (Hg & _).
Defined.

(** An instance: [sigA] and [sigA'], same histogram and different groups,
    compiled one after the other. *)
Lemma Compile_same_histogram_same_ID_witness :
  exists l1' w1 l2' w2,
    Compile sampleCrc32 sampleDriver (limitsWith 2) (uncompiled sigA) world0
    = (Returned l1', w1)
    /\ Compile sampleCrc32 sampleDriver (limitsWith 2) (uncompiled sigA') w1
       = (Returned l2', w2)
    /\ GetTypesUsageID l1' = GetTypesUsageID l2'.
Proof.
  destruct (Compile_returns sampleCrc32 sampleDriver (limitsWith 2) (uncompiled sigA) world0)
    as (l1' & w1 & Hrun1);
    [reflexivity | repeat constructor; vm_compute; reflexivity | done |].
  destruct (Compile_returns sampleCrc32 sampleDriver (limitsWith 2) (uncompiled sigA') w1)
    as (l2' & w2 & Hrun2);
    [reflexivity | repeat constructor; vm_compute; reflexivity | done |].
  exists l1', w1, l2', w2. split; [done|]. split; [done|].
  apply (Compile_same_histogram_same_ID sampleCrc32 sampleDriver
           (limitsWith 2) (limitsWith 2) (uncompiled sigA) l1' (uncompiled sigA') l2'
           world0 w1 w1 w2 Hrun1 Hrun2).
  - done.
  - reflexivity.
  - reflexivity.
  - intros []; vm_compute; reflexivity.
Defined.

End CompileMoreExamples.

(** ** Setting up descriptor writes *)

Section WriterFacts.
Import VkWriteDescriptorSet DescriptorSetWriterVulkan.
Variable MaxDescriptors : Z.
Local Abbreviation SetupDescriptorWrites := (SetupDescriptorWrites MaxDescriptors).

Lemma body_Crashed (i : nat) (d : Descriptor) (st : Locals) :
  routedTo (DescriptorType d) = None -> body i d st = Crashed.
Proof. unfold body. destruct d as [[] c]; simpl; congruence. Qed.

Lemma body_Returned (i : nat) (d : Descriptor) (st st' : Locals) :
  body i d st = Returned st' ->
  exists a w,
    routedTo (DescriptorType d) = Some a
    /\ (forall b, cursor b st' = cursor b st + (if decide (b = a) then cursorStep d else 0))
    /\ writeDescriptors st' = <[i := w]> (writeDescriptors st)
    /\ dstBinding w = Z.of_nat i
    /\ descriptorCount w = Count d
    /\ descriptorType w = DescriptorType d
    /\ pointerInto a w = Some (cursor a st)
    /\ (forall b, b <> a ->
         pointerInto b w = pointerInto b (default zero (writeDescriptors st !! i)))
    /\ (if hasDynamicOffset (DescriptorType d)
        then bindingToDynamicOffset st'
               = <[i := wrap8 (dynamicOffsetIndex st)]> (bindingToDynamicOffset st)
             /\ dynamicOffsetIndex st' = wrap32 (dynamicOffsetIndex st + 1)
        else bindingToDynamicOffset st' = bindingToDynamicOffset st
             /\ dynamicOffsetIndex st' = dynamicOffsetIndex st).
Proof.
  unfold body. destruct d as [ty c]. destruct ty; simpl; intros [= <-];
    (eexists _, _; split; [reflexivity|]);
    (split; [intros []; simpl; unfold cursorStep; simpl; lia|]);
    (split; [reflexivity|]); simpl;
    repeat (split; [reflexivity|]);
    (split; [|by split]);
    intros []; simpl; congruence.
Qed.

Lemma body_total (i : nat) (d : Descriptor) (st : Locals) :
  handledBySwitch d -> exists st', body i d st = Returned st'.
Proof.
  unfold handledBySwitch, body. destruct d as [[] c]; simpl; intros [a Ha];
    try discriminate; eauto.
Qed.

Lemma dynamicCount_cons (d : Descriptor) (ds : list Descriptor) :
  dynamicCount (d :: ds)
  = (if hasDynamicOffset (DescriptorType d) then 1 else 0) + dynamicCount ds.
Proof.
  unfold dynamicCount. simpl.
  destruct (hasDynamicOffset (DescriptorType d)); simpl length; lia.
Qed.

Lemma dynamicCount_bounds (ds : list Descriptor) :
  0 <= dynamicCount ds <= Z.of_nat (length ds).
Proof.
  induction ds as [|d ds IH]; [unfold dynamicCount; simpl; lia|].
  rewrite dynamicCount_cons. simpl length.
  destruct (hasDynamicOffset (DescriptorType d)); lia.
Qed.

(** A descriptor type without a [case] anywhere in the list ends the loop
    in [CRASH]. *)
Lemma loop_Crashed (ds : list Descriptor) :
  forall (i : nat) (st : Locals),
  Exists (fun d => routedTo (DescriptorType d) = None) ds ->
  loop i ds st = Crashed.
Proof.
  induction ds as [|d ds IH]; intros i st H; [by apply Exists_nil in H|].
  simpl. destruct (routedTo (DescriptorType d)) as [a|] eqn:E.
  - destruct (body_total i d st) as [st' ->]; [by eexists|].
    apply IH. apply Exists_cons in H as [H|H]; [congruence|done].
  - by rewrite body_Crashed.
Qed.

Lemma loop_total (ds : list Descriptor) :
  forall (i : nat) (st : Locals),
  Forall handledBySwitch ds -> exists st', loop i ds st = Returned st'.
Proof.
  induction ds as [|d ds IH]; intros i st H; simpl; [eauto|].
  apply Forall_cons in H as [Hd Hds].
  destruct (body_total i d st Hd) as [st1 ->]. by apply IH.
Qed.

(** What a completed run of the loop leaves behind. *)
Lemma loop_Returned (ds : list Descriptor) :
  forall (i : nat) (st st' : Locals),
  loop i ds st = Returned st' ->
  length (writeDescriptors st') = length (writeDescriptors st)
  /\ length (bindingToDynamicOffset st') = length (bindingToDynamicOffset st)
  /\ (forall j, (j < i)%nat ->
        writeDescriptors st' !! j = writeDescriptors st !! j
        /\ bindingToDynamicOffset st' !! j = bindingToDynamicOffset st !! j)
  /\ (forall a, cursor a st' = cursor a st + advance cursorStep a ds)
  /\ (0 <= dynamicOffsetIndex st ->
       dynamicOffsetIndex st + Z.of_nat (length ds) < 2 ^ 32 ->
       dynamicOffsetIndex st' = dynamicOffsetIndex st + dynamicCount ds)
  /\ (forall (k : nat) (d : Descriptor),
        ds !! k = Some d -> (i + k < length (writeDescriptors st))%nat ->
        exists a w,
          routedTo (DescriptorType d) = Some a
          /\ writeDescriptors st' !! (i + k)%nat = Some w
          /\ dstBinding w = Z.of_nat (i + k)
          /\ descriptorCount w = Count d
          /\ descriptorType w = DescriptorType d
          /\ pointerInto a w = Some (cursor a st + advance cursorStep a (take k ds)))
  /\ (forall (k : nat) (d : Descriptor),
        ds !! k = Some d -> hasDynamicOffset (DescriptorType d) = true ->
        (i + k < length (bindingToDynamicOffset st))%nat ->
        0 <= dynamicOffsetIndex st ->
        dynamicOffsetIndex st + Z.of_nat (length ds) < 2 ^ 32 ->
        bindingToDynamicOffset st' !! (i + k)%nat
        = Some (wrap8 (dynamicOffsetIndex st + dynamicCount (take k ds)))).
Proof.
  induction ds as [|d ds IH]; intros i st st'; simpl.
  - intros [= <-]. repeat split; try done.
    + intros a. destruct a; simpl; lia.
    + intros _ _. unfold dynamicCount. simpl. lia.
  - destruct (body i d st) as [st1| | |] eqn:Hb; try discriminate.
    intros Hl.
    destruct (body_Returned _ _ _ _ Hb)
      as (a & w & Hroute & Hcur & Hw & Hbind & Hcnt & Hty & Hptr & _ & Hdyn).
    destruct (IH _ _ _ Hl) as (Lw & Lb & Hframe & Hc & Hd & Hwr & Hsl).
    assert (2 ^ 32 = 4294967296) as E32 by reflexivity.
    assert (0 <= dynamicOffsetIndex st ->
            dynamicOffsetIndex st + Z.of_nat (S (length ds)) < 2 ^ 32 ->
            dynamicOffsetIndex st1
            = dynamicOffsetIndex st
              + (if hasDynamicOffset (DescriptorType d) then 1 else 0)) as Hst1.
    { intros H0 Hlt. destruct (hasDynamicOffset (DescriptorType d));
        destruct Hdyn as [_ ->]; [|lia].
      apply wrap32_small. lia. }
    assert (length (bindingToDynamicOffset st1) = length (bindingToDynamicOffset st)) as Lb1.
    { destruct (hasDynamicOffset (DescriptorType d)); destruct Hdyn as [-> _];
        [apply length_insert|done]. }
    rewrite Hw, length_insert in Lw.
    split; [done|]. split; [congruence|].
    split; [|split; [|split; [|split]]].
    + intros j Hj. destruct (Hframe j ltac:(lia)) as [-> ->].
      rewrite Hw. rewrite list_lookup_insert_ne by lia. split; [done|].
      destruct (hasDynamicOffset (DescriptorType d)); destruct Hdyn as [-> _]; [|done].
      by rewrite list_lookup_insert_ne by lia.
    + intros b. rewrite Hc, Hcur, Hroute.
      destruct (decide (b = a)) as [->|Hne].
      * rewrite bool_decide_eq_true_2 by done. lia.
      * rewrite bool_decide_eq_false_2 by congruence. lia.
    + intros H0 Hlt. rewrite dynamicCount_cons.
      specialize (Hst1 H0 Hlt). pose proof (dynamicCount_bounds ds).
      rewrite Hd; [lia| |]; rewrite Hst1;
        destruct (hasDynamicOffset (DescriptorType d)); lia.
    + intros [|k] d' Hk Hlen; simpl in Hk.
      * injection Hk as <-. exists a, w.
        rewrite Nat.add_0_r in *.
        destruct (Hframe i ltac:(lia)) as [-> _].
        rewrite Hw, list_lookup_insert_eq by lia.
        simpl. rewrite Z.add_0_r. done.
      * destruct (Hwr k d' Hk) as (a' & w' & R & L & B & C & T & P).
        { rewrite Hw, length_insert. lia. }
        exists a', w'. replace (i + S k)%nat with (S i + k)%nat by lia.
        repeat (split; [done|]). rewrite P. f_equal. simpl.
        rewrite Hcur, Hroute.
        destruct (decide (a' = a)) as [->|Hne].
        -- rewrite bool_decide_eq_true_2 by done. lia.
        -- rewrite bool_decide_eq_false_2 by congruence. lia.
    + intros [|k] d' Hk Hdy Hlen H0 Hlt; simpl in Hk.
      * injection Hk as <-. rewrite Nat.add_0_r in *.
        destruct (Hframe i ltac:(lia)) as [_ ->].
        rewrite Hdy in Hdyn. destruct Hdyn as [-> _].
        rewrite list_lookup_insert_eq by lia.
        simpl. unfold dynamicCount. simpl. by rewrite Z.add_0_r.
      * replace (i + S k)%nat with (S i + k)%nat by lia.
        specialize (Hst1 H0 Hlt). simpl length in Hlt.
        rewrite (Hsl k d' Hk Hdy).
        -- simpl take. by rewrite dynamicCount_cons, Hst1, Z.add_assoc.
        -- lia.
        -- rewrite Hst1. destruct (hasDynamicOffset (DescriptorType d)); lia.
        -- rewrite Hst1. destruct (hasDynamicOffset (DescriptorType d)); lia.
Qed.

Lemma SetupDescriptorWrites_Returned (info : SpirvShaderDescriptorInfo)
    (ws : list VkWriteDescriptorSet.t) (img buf tex : Z) (b2d : list Z) :
  DescriptorTypesCount info <= MaxDescriptors ->
  Forall handledBySwitch info ->
  exists st,
    loop 0 info {| writeDescriptors := ws; bindingToDynamicOffset := b2d;
                   dynamicOffsetIndex := 0; imageInfo := img; bufferInfo := buf;
                   texelBufferView := tex |} = Returned st
    /\ SetupDescriptorWrites info ws img buf tex b2d
       = Returned (dynamicOffsetIndex st,
                   {| WriteDescriptors := writeDescriptors st;
                      WritesCount := DescriptorTypesCount info;
                      BindingToDynamicOffset := bindingToDynamicOffset st |}).
Proof.
  intros Hmax Hall. unfold SetupDescriptorWrites.
  rewrite bool_decide_eq_true_2 by done.
  destruct (loop_total info 0 {| writeDescriptors := ws; bindingToDynamicOffset := b2d;
                   dynamicOffsetIndex := 0; imageInfo := img; bufferInfo := buf;
                   texelBufferView := tex |} Hall) as [st Hst].
  exists st. by rewrite Hst.
Qed.

(** The types with a [case] in the switch are all but dynamic storage
    buffers and input attachments. *)
Lemma handledBySwitch_iff (d : Descriptor) :
  handledBySwitch d
  <-> DescriptorType d <> VK_DESCRIPTOR_TYPE_STORAGE_BUFFER_DYNAMIC
      /\ DescriptorType d <> VK_DESCRIPTOR_TYPE_INPUT_ATTACHMENT.
Proof.
  unfold handledBySwitch. destruct (DescriptorType d); simpl; split;
    try (intros [? [=]]); try (intros [? ?]; done); try (by split); by eexists.
Qed.

(** C5, as the code has it.  With [MaxDescriptors] at most 256 (slots are
    stored as [uint8]), for a metadata list that passes the count assertion
    and a slot array of at least that many entries.  Where the list holds
    no dynamic storage buffer and no input attachment, the two types without
    a [case] in the switch, the call returns the number of bindings whose
    type carries a dynamic offset, and the binding at position [i] that
    carries one is given as slot the number of such bindings before it: the
    k-th of them in declaration order gets slot k-1.  Where the list holds a
    dynamic storage buffer (a type that carries a dynamic offset) or an
    input attachment, the call does not return: it ends in [CRASH]. *)
Theorem SetupDescriptorWrites_dynamic_slots (info : SpirvShaderDescriptorInfo)
    (ws : list VkWriteDescriptorSet.t) (img buf tex : Z) (b2d : list Z) :
  MaxDescriptors <= 256 ->
  DescriptorTypesCount info <= MaxDescriptors ->
  (length info <= length b2d)%nat ->
  (Forall (fun d => DescriptorType d <> VK_DESCRIPTOR_TYPE_STORAGE_BUFFER_DYNAMIC
                    /\ DescriptorType d <> VK_DESCRIPTOR_TYPE_INPUT_ATTACHMENT) info ->
   exists wr,
     SetupDescriptorWrites info ws img buf tex b2d = Returned (dynamicCount info, wr)
     /\ forall (i : nat) (d : Descriptor),
          info !! i = Some d -> hasDynamicOffset (DescriptorType d) = true ->
          BindingToDynamicOffset wr !! i = Some (dynamicCount (take i info)))
  /\ (Exists (fun d => DescriptorType d = VK_DESCRIPTOR_TYPE_STORAGE_BUFFER_DYNAMIC
                       \/ DescriptorType d = VK_DESCRIPTOR_TYPE_INPUT_ATTACHMENT) info ->
      SetupDescriptorWrites info ws img buf tex b2d = Crashed).
Proof.
  intros H256 Hmax Hlen. split.
  - intros Hall.
    assert (Forall handledBySwitch info) as Hall'.
    { eapply Forall_impl; [exact Hall|]. intros d Hd. by apply handledBySwitch_iff. }
    unfold DescriptorTypesCount in Hmax.
    destruct (SetupDescriptorWrites_Returned info ws img buf tex b2d Hmax Hall')
      as (st & Hloop & ->).
    destruct (loop_Returned _ _ _ _ Hloop) as (_ & _ & _ & _ & Hdyn & _ & Hslots).
    simpl in Hdyn, Hslots.
    assert (2 ^ 32 = 4294967296) as E32 by reflexivity.
    rewrite Hdyn by lia. eexists. split; [reflexivity|]. simpl.
    intros i d Hi Hd.
    pose proof (lookup_lt_Some _ _ _ Hi) as Hlt.
    rewrite (Hslots i d Hi Hd) by lia. f_equal. rewrite Z.add_0_l.
    apply wrap8_small.
    pose proof (dynamicCount_bounds (take i info)) as Hb.
    rewrite length_take in Hb. lia.
  - intros Hex. unfold SetupDescriptorWrites.
    rewrite bool_decide_eq_true_2 by done. rewrite loop_Crashed; [done|].
    eapply Exists_impl; [exact Hex|]. by intros d [-> | ->].
Qed.

(** Every write whose entry exists points into the array of its type, at
    the incoming pointer plus what the code moved the cursor by over the
    earlier bindings routed to that array. *)
Lemma SetupDescriptorWrites_pointers (info : SpirvShaderDescriptorInfo)
    (ws : list VkWriteDescriptorSet.t) (img buf tex : Z) (b2d : list Z) :
  DescriptorTypesCount info <= MaxDescriptors ->
  Forall handledBySwitch info ->
  (length info <= length ws)%nat ->
  exists n wr,
    SetupDescriptorWrites info ws img buf tex b2d = Returned (n, wr)
    /\ length (WriteDescriptors wr) = length ws
    /\ forall (i : nat) (d : Descriptor),
         info !! i = Some d ->
         exists a w,
           routedTo (DescriptorType d) = Some a
           /\ WriteDescriptors wr !! i = Some w
           /\ dstBinding w = Z.of_nat i
           /\ descriptorCount w = Count d
           /\ descriptorType w = DescriptorType d
           /\ pointerInto a w
              = Some (match a with
                      | ImageInfoArray => img
                      | BufferInfoArray => buf
                      | TexelBufferViewArray => tex
                      end + advance cursorStep a (take i info)).
Proof.
  intros Hmax Hall Hlen.
  destruct (SetupDescriptorWrites_Returned info ws img buf tex b2d Hmax Hall)
    as (st & Hloop & ->).
  destruct (loop_Returned _ _ _ _ Hloop) as (Lw & _ & _ & _ & _ & Hwr & _).
  simpl in Lw, Hwr. eexists _, _. split; [reflexivity|]. simpl. split; [done|].
  intros i d Hi. pose proof (lookup_lt_Some _ _ _ Hi) as Hlt.
  destruct (Hwr i d Hi ltac:(lia)) as (a & w & R & L & B & C & T & P).
  exists a, w. repeat (split; [done|]). rewrite P. by destruct a.
Qed.

(** Where every dynamic uniform buffer is a single descriptor, the cursor
    has moved by the element counts. *)
Lemma advance_cursorStep_Count (a : InfoArray) (ds : list Descriptor) :
  Forall (fun d => DescriptorType d = VK_DESCRIPTOR_TYPE_UNIFORM_BUFFER_DYNAMIC ->
                   Count d = 1) ds ->
  advance cursorStep a ds = advance Count a ds.
Proof.
  induction 1 as [|d ds Hd _ IH]; simpl; [done|]. rewrite IH. f_equal.
  case_bool_decide; [|done]. unfold cursorStep.
  destruct (DescriptorType d); try done. symmetry. by apply Hd.
Qed.

(** A dynamic storage buffer in the metadata: the call never returns. *)
Lemma SetupDescriptorWrites_unhandled (info : SpirvShaderDescriptorInfo)
    (ws : list VkWriteDescriptorSet.t) (img buf tex : Z) (b2d : list Z) :
  Exists (fun d => routedTo (DescriptorType d) = None) info ->
  SetupDescriptorWrites info ws img buf tex b2d
  = if bool_decide (DescriptorTypesCount info <= MaxDescriptors)
    then Crashed else AssertionFailed.
Proof.
  intros H. unfold SetupDescriptorWrites.
  case_bool_decide; [|done]. by rewrite loop_Crashed.
Qed.

End WriterFacts.

Section WriterExamples.
Import VkWriteDescriptorSet DescriptorSetWriterVulkan.

Example SetupDescriptorWrites_fiveBindings :
  exists wr,
    SetupDescriptorWrites 64 fiveBindings (replicate 5 zero) 0 0 0 (replicate 5 255)
    = Returned (3, wr)
    /\ BindingToDynamicOffset wr = [255; 0; 255; 1; 2]
    /\ pointerInto BufferInfoArray <$> WriteDescriptors wr
       = [None; Some 0; Some 1; Some 4; Some 5]
    /\ pointerInto ImageInfoArray <$> WriteDescriptors wr
       = [Some 0; None; None; None; None].
Proof. eexists. split; [vm_compute; reflexivity|]. by vm_compute. Qed.

(** An instance: the five bindings of [fiveBindings]. *)
Lemma SetupDescriptorWrites_dynamic_slots_witness :
  exists wr,
    SetupDescriptorWrites 64 fiveBindings (replicate 5 zero) 0 0 0 (replicate 5 255)
    = Returned (dynamicCount fiveBindings, wr)
    /\ forall (i : nat) (d : Descriptor),
         fiveBindings !! i = Some d -> hasDynamicOffset (DescriptorType d) = true ->
         BindingToDynamicOffset wr !! i = Some (dynamicCount (take i fiveBindings)).
Proof.
  apply (SetupDescriptorWrites_dynamic_slots 64 fiveBindings (replicate 5 zero) 0 0 0
           (replicate 5 255)).
  - lia.
  - vm_compute. discriminate.
  - simpl. lia.
  - unfold fiveBindings. repeat constructor; discriminate.
Defined.

(** C5 as the specification states it, for every metadata list, fails on a
    list with a dynamic storage buffer.  In [fiveBindingsStorageDynamic] the
    bindings at positions 1, 3 and 4 carry a dynamic offset, three in all,
    and the list passes the count assertion; the call ends in [CRASH] at
    position 3 and returns nothing, so no slots and no count of 3. *)
Lemma SetupDescriptorWrites_dynamic_slots_counterexample :
  (fun d => hasDynamicOffset (DescriptorType d)) <$> fiveBindingsStorageDynamic
  = [false; true; false; true; true]
  /\ dynamicCount fiveBindingsStorageDynamic = 3
  /\ DescriptorTypesCount fiveBindingsStorageDynamic <= 64
  /\ SetupDescriptorWrites 64 fiveBindingsStorageDynamic (replicate 5 zero) 0 0 0
       (replicate 5 255) = Crashed
  /\ ~ exists wr,
         SetupDescriptorWrites 64 fiveBindingsStorageDynamic (replicate 5 zero) 0 0 0
           (replicate 5 255) = Returned (dynamicCount fiveBindingsStorageDynamic, wr).
Proof.
  split; [reflexivity|]. split; [reflexivity|].
  split; [vm_compute; discriminate|]. split; [reflexivity|].
  intros [wr Hrun]. vm_compute in Hrun. discriminate.
Qed.

(** C9.  [VK_DESCRIPTOR_TYPE_STORAGE_BUFFER_DYNAMIC] has no [case] in the
    switch of [SetupDescriptorWrites]: metadata holding such a binding never
    makes the call return, and ends it in [CRASH] whenever the count
    assertion passes.  [Compile] does know the type: its count is checked
    against [maxDescriptorSetStorageBuffersDynamic], and a layout with one
    such binding compiles when the limits leave room. *)
Theorem SetupDescriptorWrites_storage_buffer_dynamic_crashes
    (MaxDescriptors : Z) (info : SpirvShaderDescriptorInfo)
    (ws : list VkWriteDescriptorSet.t) (img buf tex : Z) (b2d : list Z) :
  Exists (fun d => DescriptorType d = VK_DESCRIPTOR_TYPE_STORAGE_BUFFER_DYNAMIC) info ->
  (forall r, SetupDescriptorWrites MaxDescriptors info ws img buf tex b2d <> Returned r)
  /\ (DescriptorTypesCount info <= MaxDescriptors ->
      SetupDescriptorWrites MaxDescriptors info ws img buf tex b2d = Crashed)
  /\ (forall crc driver limits l w,
        maxDescriptorSetStorageBuffersDynamic limits
          <= DescriptorSetLayoutVulkan.typesUsed l VK_DESCRIPTOR_TYPE_STORAGE_BUFFER_DYNAMIC ->
        DescriptorSetLayoutVulkan.Compile crc driver limits l w = (AssertionFailed, w))
  /\ (exists l' w',
        DescriptorSetLayoutVulkan.Compile sampleCrc32 DescriptorSetLayoutVulkan.sampleDriver
          (DescriptorSetLayoutVulkan.limitsWith 16) oneStorageBufferDynamic
          DescriptorSetLayoutVulkan.world0 = (Returned l', w')).
Proof.
  intros H.
  assert (Exists (fun d => routedTo (DescriptorType d) = None) info) as H'.
  { eapply Exists_impl; [exact H|]. by intros d ->. }
  rewrite (SetupDescriptorWrites_unhandled MaxDescriptors info ws img buf tex b2d H').
  split; [intros r; by case_bool_decide|].
  split; [intros Hc; by rewrite bool_decide_eq_true_2|].
  split.
  - intros crc driver limits l w Hl. apply Compile_asserts.
    right. unfold DescriptorSetLayoutVulkan.reachesSomeLimit,
      DescriptorSetLayoutVulkan.categoryChecks.
    do 4 apply Exists_cons_tl. apply Exists_cons_hd. exact Hl.
  - eexists _, _. vm_compute. reflexivity.
Qed.

(** An instance: a uniform buffer followed by a dynamic storage buffer. *)
Lemma SetupDescriptorWrites_storage_buffer_dynamic_crashes_witness :
  SetupDescriptorWrites 64
    [descriptor VK_DESCRIPTOR_TYPE_UNIFORM_BUFFER 1; descriptor VK_DESCRIPTOR_TYPE_STORAGE_BUFFER_DYNAMIC 1]
    [zero; zero] 0 0 0 [0; 0] = Crashed.
Proof.
  apply (SetupDescriptorWrites_storage_buffer_dynamic_crashes 64
           [descriptor VK_DESCRIPTOR_TYPE_UNIFORM_BUFFER 1; descriptor VK_DESCRIPTOR_TYPE_STORAGE_BUFFER_DYNAMIC 1]
           [zero; zero] 0 0 0 [0; 0]).
  - apply Exists_cons_tl, Exists_cons_hd. reflexivity.
  - vm_compute. discriminate.
Defined.

(** C6 at [dynamicArrayThenBuffer].  The first write covers two buffer infos from offset
    0 ([descriptorCount] 2), the sum of the element counts before the second
    binding is 2, and the second write is pointed at offset 1: the cursor
    moved by one, not by the element count. *)
Lemma SetupDescriptorWrites_dynamic_array_cursor :
  exists wr w0 w1,
    SetupDescriptorWrites 64 dynamicArrayThenBuffer [zero; zero] 0 0 0 [0; 0]
    = Returned (1, wr)
    /\ WriteDescriptors wr = [w0; w1]
    /\ descriptorCount w0 = 2 /\ pBufferInfo w0 = Some 0
    /\ descriptorCount w1 = 1 /\ pBufferInfo w1 = Some 1
    /\ advance Count BufferInfoArray (take 1 dynamicArrayThenBuffer) = 2
    /\ advance cursorStep BufferInfoArray (take 1 dynamicArrayThenBuffer) = 1.
Proof. eexists _, _, _. split; [vm_compute; reflexivity|]. by vm_compute. Qed.

End WriterExamples.

(** ** More on descriptor writes *)

Section WriterMore.
Import VkWriteDescriptorSet DescriptorSetWriterVulkan.
Variable MaxDescriptors : Z.
Local Abbreviation SetupDescriptorWrites := (SetupDescriptorWrites MaxDescriptors).

Lemma loop_handled (ds : list Descriptor) :
  forall (i : nat) (st st' : Locals),
  loop i ds st = Returned st' -> Forall handledBySwitch ds.
Proof.
  induction ds as [|d ds IH]; intros i st st'; simpl; [constructor|].
  destruct (body i d st) as [st1| | |] eqn:Hb; try discriminate.
  intros Hl. constructor; [|eauto].
  destruct (body_Returned _ _ _ _ Hb) as (a & _ & Hr & _). by exists a.
Qed.

Lemma loop_outcome (ds : list Descriptor) (i : nat) (st : Locals) :
  (Forall handledBySwitch ds /\ exists st', loop i ds st = Returned st')
  \/ (Exists (fun d => routedTo (DescriptorType d) = None) ds
      /\ loop i ds st = Crashed).
Proof.
  destruct (loop i ds st) as [st'| | |] eqn:Hl.
  - left. split; [by eapply loop_handled | by eexists].
  - exfalso. revert i st Hl. induction ds as [|d ds IH]; intros i st; simpl; [done|].
    destruct (body i d st) as [st1| | |] eqn:Hb; try done; [eauto|].
    unfold body in Hb. by destruct (descriptorType _).
  - exfalso. revert i st Hl. induction ds as [|d ds IH]; intros i st; simpl; [done|].
    destruct (body i d st) as [st1| | |] eqn:Hb; try done; [eauto|].
    unfold body in Hb. by destruct (descriptorType _).
  - right. split; [|done].
    revert i st Hl. induction ds as [|d ds IH]; intros i st; simpl; [done|].
    destruct (routedTo (DescriptorType d)) as [a|] eqn:Hr.
    + destruct (body_total i d st) as [st1 ->]; [by exists a|].
      intros Hl. apply Exists_cons_tl. eauto.
    + intros _. by apply Exists_cons_hd.
Qed.

(** What a completed run of the loop does not touch. *)
Lemma loop_untouched (ds : list Descriptor) :
  forall (i : nat) (st st' : Locals),
  loop i ds st = Returned st' ->
  (forall j, (j < i \/ i + length ds <= j)%nat ->
     writeDescriptors st' !! j = writeDescriptors st !! j
     /\ bindingToDynamicOffset st' !! j = bindingToDynamicOffset st !! j)
  /\ (forall (k : nat) (d : Descriptor),
        ds !! k = Some d -> hasDynamicOffset (DescriptorType d) = false ->
        bindingToDynamicOffset st' !! (i + k)%nat
        = bindingToDynamicOffset st !! (i + k)%nat)
  /\ (forall (k : nat) (d : Descriptor) (a b : InfoArray),
        ds !! k = Some d -> routedTo (DescriptorType d) = Some a -> b <> a ->
        pointerInto b <$> writeDescriptors st' !! (i + k)%nat
        = pointerInto b <$> writeDescriptors st !! (i + k)%nat).
Proof.
  induction ds as [|d ds IH]; intros i st st'; simpl.
  - intros [= <-]. by repeat split.
  - destruct (body i d st) as [st1| | |] eqn:Hb; try discriminate.
    intros Hl.
    destruct (body_Returned _ _ _ _ Hb)
      as (a & w & Hroute & _ & Hw & _ & _ & _ & _ & Hother & Hdyn).
    destruct (IH _ _ _ Hl) as (Hout & Hslots & Hptrs).
    assert (forall j, j <> i ->
              writeDescriptors st1 !! j = writeDescriptors st !! j
              /\ bindingToDynamicOffset st1 !! j = bindingToDynamicOffset st !! j)
      as Hstep.
    { intros j Hj. rewrite Hw, list_lookup_insert_ne by done. split; [done|].
      destruct (hasDynamicOffset (DescriptorType d)); destruct Hdyn as [-> _]; [|done].
      by rewrite list_lookup_insert_ne. }
    split; [|split].
    + intros j Hj. destruct (Hout j ltac:(lia)) as [-> ->]. apply Hstep. lia.
    + intros [|k] d' Hk Hd'; simpl in Hk.
      * injection Hk as <-. rewrite Nat.add_0_r.
        destruct (Hout i ltac:(lia)) as [_ ->].
        rewrite Hd' in Hdyn. by destruct Hdyn as [-> _].
      * replace (i + S k)%nat with (S i + k)%nat by lia.
        rewrite (Hslots k d' Hk Hd'). apply Hstep. lia.
    + intros [|k] d' a' b Hk Hr Hb'; simpl in Hk.
      * injection Hk as <-. rewrite Nat.add_0_r.
        destruct (Hout i ltac:(lia)) as [-> _]. rewrite Hw.
        assert (a' = a) as -> by congruence.
        destruct (writeDescriptors st !! i) as [w0|] eqn:Hw0.
        -- rewrite list_lookup_insert_eq by (by eapply lookup_lt_Some).
           simpl. f_equal. by apply Hother.
        -- rewrite list_insert_ge by (by apply lookup_ge_None). by rewrite Hw0.
      * replace (i + S k)%nat with (S i + k)%nat by lia.
        rewrite (Hptrs k d' a' b Hk Hr Hb'). f_equal. apply Hstep. lia.
Qed.

Lemma dynamicCount_app (ds1 ds2 : list Descriptor) :
  dynamicCount (ds1 ++ ds2) = dynamicCount ds1 + dynamicCount ds2.
Proof.
  unfold dynamicCount. rewrite List.filter_app, length_app. lia.
Qed.

(** The bindings before a dynamic one hold fewer dynamic bindings than the
    whole list. *)
Lemma dynamicCount_take_lt (ds : list Descriptor) (i : nat) (d : Descriptor) :
  ds !! i = Some d -> hasDynamicOffset (DescriptorType d) = true ->
  dynamicCount (take i ds) < dynamicCount ds.
Proof.
  intros Hi Hd. rewrite <- (take_drop_middle ds i d Hi) at 2.
  rewrite dynamicCount_app, dynamicCount_cons, Hd.
  pose proof (dynamicCount_bounds (drop (S i) ds)). lia.
Qed.

Lemma dynamicCount_take_mono (ds : list Descriptor) (i j : nat) (d : Descriptor) :
  (i < j)%nat -> ds !! i = Some d -> hasDynamicOffset (DescriptorType d) = true ->
  dynamicCount (take i ds) < dynamicCount (take j ds).
Proof.
  intros Hij Hi Hd.
  assert (take j ds !! i = Some d) as Hi' by (by rewrite lookup_take_lt).
  pose proof (dynamicCount_take_lt (take j ds) i d Hi' Hd) as Hlt.
  rewrite take_take, Nat.min_l in Hlt by lia. exact Hlt.
Qed.

(** X1.  How [SetupDescriptorWrites] ends is decided by the metadata alone:
    the count assertion fails exactly when there are more than
    [MaxDescriptors] bindings; otherwise the call ends in [CRASH] exactly
    when some binding has a type without a [case], and returns exactly when
    every type has one.  No other exit exists. *)
Theorem SetupDescriptorWrites_outcome (info : SpirvShaderDescriptorInfo)
    (ws : list VkWriteDescriptorSet.t) (img buf tex : Z) (b2d : list Z) :
  (SetupDescriptorWrites info ws img buf tex b2d = AssertionFailed
   <-> MaxDescriptors < DescriptorTypesCount info)
  /\ (SetupDescriptorWrites info ws img buf tex b2d = Crashed
      <-> DescriptorTypesCount info <= MaxDescriptors
          /\ Exists (fun d => routedTo (DescriptorType d) = None) info)
  /\ ((exists r, SetupDescriptorWrites info ws img buf tex b2d = Returned r)
      <-> DescriptorTypesCount info <= MaxDescriptors
          /\ Forall handledBySwitch info)
  /\ SetupDescriptorWrites info ws img buf tex b2d <> VulkanResultFailed.
Proof.
  unfold DescriptorSetWriterVulkan.SetupDescriptorWrites.
  assert (forall ds, Forall handledBySwitch ds ->
                     Exists (fun d => routedTo (DescriptorType d) = None) ds -> False)
    as Hexcl.
  { intros ds Hall Hex. apply Exists_exists in Hex as (d & Hd & Hn).
    rewrite Forall_forall in Hall. destruct (Hall d Hd) as [a Ha]. congruence. }
  case_bool_decide as Hc.
  - destruct (loop_outcome info 0
                {| writeDescriptors := ws; bindingToDynamicOffset := b2d;
                   dynamicOffsetIndex := 0; imageInfo := img; bufferInfo := buf;
                   texelBufferView := tex |}) as [[Hall [st' ->]]|[Hex ->]].
    + split; [split; [done|lia]|]. split; [split; [done|]|].
      { intros [_ Hex]. destruct (Hexcl _ Hall Hex). }
      split; [|done]. split; [done|]. intros _. by eexists.
    + split; [split; [done|lia]|]. split; [done|].
      split; [|done]. split; [by intros [? ?]|].
      intros [_ Hall]. destruct (Hexcl _ Hall Hex).
  - split; [split; [lia|done]|]. split; [split; [done|tauto]|].
    split; [|done]. split; [by intros [? ?] | tauto].
Qed.

(** X2.  When the call returns and the write array has an entry per binding,
    [WritesCount] is the number of bindings and write [i] carries binding
    index [i], the element count and the type of binding [i]; its pointer
    into the array of its type is the incoming pointer plus what the code
    moved that cursor by over the earlier bindings (one for a dynamic uniform
    buffer, the element count otherwise), and its two other resource pointers
    are what the caller's entry held. *)
Theorem SetupDescriptorWrites_writes (info : SpirvShaderDescriptorInfo)
    (ws : list VkWriteDescriptorSet.t) (img buf tex : Z) (b2d : list Z)
    (n : Z) (wr : DescriptorSetWriterVulkan.t) :
  SetupDescriptorWrites info ws img buf tex b2d = Returned (n, wr) ->
  (length info <= length ws)%nat ->
  WritesCount wr = Z.of_nat (length info)
  /\ length (WriteDescriptors wr) = length ws
  /\ forall (i : nat) (d : Descriptor),
       info !! i = Some d ->
       exists a w w0,
         routedTo (DescriptorType d) = Some a
         /\ WriteDescriptors wr !! i = Some w
         /\ ws !! i = Some w0
         /\ dstBinding w = Z.of_nat i
         /\ descriptorCount w = Count d
         /\ descriptorType w = DescriptorType d
         /\ pointerInto a w
            = Some (match a with
                    | ImageInfoArray => img
                    | BufferInfoArray => buf
                    | TexelBufferViewArray => tex
                    end + advance cursorStep a (take i info))
         /\ forall b, b <> a -> pointerInto b w = pointerInto b w0.
Proof.
  unfold DescriptorSetWriterVulkan.SetupDescriptorWrites.
  case_bool_decide; [|done].
  destruct (loop 0 info _) as [st| | |] eqn:Hloop; try done.
  intros [= <- <-] Hlen. simpl.
  destruct (loop_Returned _ _ _ _ Hloop) as (Lw & _ & _ & _ & _ & Hwr & _).
  destruct (loop_untouched _ _ _ _ Hloop) as (_ & _ & Hptrs).
  simpl in Lw, Hwr, Hptrs. split; [done|]. split; [done|].
  intros i d Hi. pose proof (lookup_lt_Some _ _ _ Hi) as Hlt.
  destruct (Hwr i d Hi ltac:(lia)) as (a & w & R & L & B & C & T & P).
  destruct (lookup_lt_is_Some_2 ws i ltac:(lia)) as [w0 Hw0].
  exists a, w, w0. do 6 (split; [done|]).
  split; [rewrite P; by destruct a|].
  intros b Hb. pose proof (Hptrs i d a b Hi R Hb) as Hp.
  rewrite L, Hw0 in Hp. simpl in Hp. congruence.
Qed.

(** X3.  When the call returns, both out arrays keep their length, every
    entry at an index from the number of bindings on is as the caller
    passed it, and so is the slot entry of every binding whose type has no
    dynamic offset: only the slots of dynamic bindings are written. *)
Theorem SetupDescriptorWrites_untouched (info : SpirvShaderDescriptorInfo)
    (ws : list VkWriteDescriptorSet.t) (img buf tex : Z) (b2d : list Z)
    (n : Z) (wr : DescriptorSetWriterVulkan.t) :
  SetupDescriptorWrites info ws img buf tex b2d = Returned (n, wr) ->
  length (WriteDescriptors wr) = length ws
  /\ length (BindingToDynamicOffset wr) = length b2d
  /\ (forall j, (length info <= j)%nat ->
        WriteDescriptors wr !! j = ws !! j
        /\ BindingToDynamicOffset wr !! j = b2d !! j)
  /\ (forall (i : nat) (d : Descriptor),
        info !! i = Some d -> hasDynamicOffset (DescriptorType d) = false ->
        BindingToDynamicOffset wr !! i = b2d !! i).
Proof.
  unfold DescriptorSetWriterVulkan.SetupDescriptorWrites.
  case_bool_decide; [|done].
  destruct (loop 0 info _) as [st| | |] eqn:Hloop; try done.
  intros [= <- <-]. simpl.
  destruct (loop_Returned _ _ _ _ Hloop) as (Lw & Lb & _).
  destruct (loop_untouched _ _ _ _ Hloop) as (Hout & Hslots & _).
  simpl in *. split; [done|]. split; [done|]. split.
  - intros j Hj. apply Hout. by right.
  - exact Hslots.
Qed.

(** X4.  With [MaxDescriptors] at most 256, when the call returns and the
    slot array has an entry per binding, the value returned is between 0 and
    the number of bindings, every slot recorded for a dynamic binding is
    below the value returned, and a later dynamic binding gets a larger
    slot than an earlier one: the slots index an offset array of exactly the
    returned length without collision. *)
Theorem SetupDescriptorWrites_slots_in_range (info : SpirvShaderDescriptorInfo)
    (ws : list VkWriteDescriptorSet.t) (img buf tex : Z) (b2d : list Z)
    (n : Z) (wr : DescriptorSetWriterVulkan.t) :
  MaxDescriptors <= 256 ->
  SetupDescriptorWrites info ws img buf tex b2d = Returned (n, wr) ->
  (length info <= length b2d)%nat ->
  0 <= n <= Z.of_nat (length info)
  /\ (forall (i : nat) (d : Descriptor),
        info !! i = Some d -> hasDynamicOffset (DescriptorType d) = true ->
        exists slot, BindingToDynamicOffset wr !! i = Some slot /\ 0 <= slot < n)
  /\ (forall (i j : nat) (d d' : Descriptor) (slot slot' : Z),
        (i < j)%nat ->
        info !! i = Some d -> hasDynamicOffset (DescriptorType d) = true ->
        info !! j = Some d' -> hasDynamicOffset (DescriptorType d') = true ->
        BindingToDynamicOffset wr !! i = Some slot ->
        BindingToDynamicOffset wr !! j = Some slot' ->
        slot < slot').
Proof.
  intros H256. unfold DescriptorSetWriterVulkan.SetupDescriptorWrites.
  case_bool_decide as Hmax; [|done]. unfold DescriptorTypesCount in Hmax.
  destruct (loop 0 info _) as [st| | |] eqn:Hloop; try done.
  intros [= <- <-] Hlen. simpl.
  destruct (loop_Returned _ _ _ _ Hloop) as (_ & _ & _ & _ & Hdyn & _ & Hslots).
  simpl in Hdyn, Hslots.
  assert (2 ^ 32 = 4294967296) as E32 by reflexivity.
  rewrite Hdyn by lia. rewrite Z.add_0_l.
  assert (forall i d, info !! i = Some d -> hasDynamicOffset (DescriptorType d) = true ->
            bindingToDynamicOffset st !! i = Some (dynamicCount (take i info))) as Hslot.
  { intros i d Hi Hd. pose proof (lookup_lt_Some _ _ _ Hi) as Hlt.
    rewrite (Hslots i d Hi Hd) by lia. f_equal. rewrite Z.add_0_l.
    apply wrap8_small. pose proof (dynamicCount_bounds (take i info)) as Hb.
    rewrite length_take in Hb. lia. }
  split; [apply dynamicCount_bounds|]. split.
  - intros i d Hi Hd. eexists. split; [by eapply Hslot|].
    pose proof (dynamicCount_bounds (take i info)).
    pose proof (dynamicCount_take_lt info i d Hi Hd). lia.
  - intros i j d d' slot slot' Hij Hi Hd Hj Hd' Hs Hs'.
    rewrite (Hslot i d Hi Hd) in Hs. rewrite (Hslot j d' Hj Hd') in Hs'.
    injection Hs as <-. injection Hs' as <-.
    by eapply dynamicCount_take_mono.
Qed.

End WriterMore.

Section WriterMoreExamples.
Import VkWriteDescriptorSet DescriptorSetWriterVulkan.

(** An instance: the writes set up for [fiveBindings]. *)
Lemma SetupDescriptorWrites_writes_witness :
  exists n wr,
    SetupDescriptorWrites 64 fiveBindings (replicate 5 zero) 0 0 0 (replicate 5 255)
    = Returned (n, wr)
    /\ WritesCount wr = 5
    /\ length (WriteDescriptors wr) = 5%nat.
Proof.
  destruct (SetupDescriptorWrites 64 fiveBindings (replicate 5 zero) 0 0 0 (replicate 5 255))
    as [[n wr]| | |] eqn:Hrun; try (by vm_compute in Hrun).
  exists n, wr. split; [done|].
  destruct (SetupDescriptorWrites_writes 64 fiveBindings (replicate 5 zero) 0 0 0
              (replicate 5 255) n wr Hrun ltac:(simpl; lia)) as (Hc & Hl & _).
  by split.
Defined.

(** An instance: the non-dynamic slots of [fiveBindings] keep the 255 they
    held. *)
Lemma SetupDescriptorWrites_untouched_witness :
  exists n wr,
    SetupDescriptorWrites 64 fiveBindings (replicate 5 zero) 0 0 0 (replicate 5 255)
    = Returned (n, wr)
    /\ BindingToDynamicOffset wr !! 2%nat = Some 255.
Proof.
  destruct (SetupDescriptorWrites 64 fiveBindings (replicate 5 zero) 0 0 0 (replicate 5 255))
    as [[n wr]| | |] eqn:Hrun; try (by vm_compute in Hrun).
  exists n, wr. split; [done|].
  destruct (SetupDescriptorWrites_untouched 64 fiveBindings (replicate 5 zero) 0 0 0
              (replicate 5 255) n wr Hrun) as (_ & _ & _ & Hslots).
  by rewrite (Hslots 2%nat (descriptor VK_DESCRIPTOR_TYPE_STORAGE_BUFFER 3) eq_refl eq_refl).
Defined.

(** An instance: the slots of [fiveBindings] against the count returned. *)
Lemma SetupDescriptorWrites_slots_in_range_witness :
  exists n wr,
    SetupDescriptorWrites 64 fiveBindings (replicate 5 zero) 0 0 0 (replicate 5 255)
    = Returned (n, wr)
    /\ 0 <= n <= 5.
Proof.
  destruct (SetupDescriptorWrites 64 fiveBindings (replicate 5 zero) 0 0 0 (replicate 5 255))
    as [[n wr]| | |] eqn:Hrun; try (by vm_compute in Hrun).
  exists n, wr. split; [done|].
  by destruct (SetupDescriptorWrites_slots_in_range 64 fiveBindings (replicate 5 zero) 0 0 0
                 (replicate 5 255) n wr ltac:(lia) Hrun ltac:(simpl; lia)) as (Hn & _).
Defined.

End WriterMoreExamples.

(** ** Descriptor pools *)

Section PoolFacts.
Import DescriptorPoolVulkan.
Context `{VulkanDriver}.
Variable BUILD_RELEASE : bool.
Local Abbreviation Track := (Track BUILD_RELEASE).

Lemma sameTypesUsed_true (pool : t) (layout : DescriptorSetLayoutVulkan.t) :
  sameTypesUsed pool layout = true
  <-> forall ty, DescriptorSetLayoutVulkan.typesUsed (_layout pool) ty
                 = DescriptorSetLayoutVulkan.typesUsed layout ty.
Proof.
  unfold sameTypesUsed. rewrite forallb_forall. split.
  - intros Hall ty. specialize (Hall ty). rewrite bool_decide_eq_true in Hall.
    apply Hall. unfold VULKAN_DESCRIPTOR_TYPES. destruct ty; simpl; tauto.
  - intros Hall ty _. by apply bool_decide_eq_true.
Qed.

Lemma sameTypesUsed_false (pool : t) (layout : DescriptorSetLayoutVulkan.t) :
  sameTypesUsed pool layout = false
  <-> exists ty, DescriptorSetLayoutVulkan.typesUsed (_layout pool) ty
                 <> DescriptorSetLayoutVulkan.typesUsed layout ty.
Proof.
  unfold sameTypesUsed. split.
  - intros Hf.
    assert (Exists (fun ty => DescriptorSetLayoutVulkan.typesUsed (_layout pool) ty
                              <> DescriptorSetLayoutVulkan.typesUsed layout ty)
                   VULKAN_DESCRIPTOR_TYPES) as Hex.
    { induction VULKAN_DESCRIPTOR_TYPES as [|ty tys IH]; simpl in Hf; [done|].
      apply andb_false_iff in Hf as [Hf|Hf].
      - apply Exists_cons_hd. by apply bool_decide_eq_false in Hf.
      - apply Exists_cons_tl. by apply IH. }
    apply Exists_exists in Hex as (ty & _ & Hty). by exists ty.
  - intros [ty Hty]. apply not_true_is_false. intros Ht.
    apply Hty. by apply sameTypesUsed_true.
Qed.

(** X11.  For a layout that uses every descriptor type as often as the
    pool's own, and a tracked count that is a [uint32]: [Track] returns,
    [TrackRemoveUsage] of the same layout then returns and puts the tracked
    count back to what it was, even where the addition wrapped; the recorded
    peak is at least the count [Track] left and at least the old peak, and
    [TrackRemoveUsage] does not lower it.  The handle and the capacity are
    not touched. *)
Theorem Track_TrackRemoveUsage (layout : DescriptorSetLayoutVulkan.t) (pool : t) :
  (forall ty, DescriptorSetLayoutVulkan.typesUsed (_layout pool) ty
              = DescriptorSetLayoutVulkan.typesUsed layout ty) ->
  0 <= _allocatedDescriptorSetsCount pool < 2 ^ 32 ->
  exists p1 p2,
    Track layout pool = Returned p1
    /\ TrackRemoveUsage layout p1 = Returned p2
    /\ _allocatedDescriptorSetsCount p1
       = wrap32 (_allocatedDescriptorSetsCount pool
                 + Z.of_nat (length (DescriptorSetLayoutVulkan.GetLayouts layout)))
    /\ _allocatedDescriptorSetsCount p2 = _allocatedDescriptorSetsCount pool
    /\ _allocatedDescriptorSetsCount p1 <= _allocatedDescriptorSetsCountMax p1
    /\ _allocatedDescriptorSetsCountMax pool <= _allocatedDescriptorSetsCountMax p1
    /\ _allocatedDescriptorSetsCountMax p2 = _allocatedDescriptorSetsCountMax p1
    /\ _handle p2 = _handle pool
    /\ _descriptorSetsMax p2 = _descriptorSetsMax pool.
Proof.
  intros Hsame Hrange. apply sameTypesUsed_true in Hsame.
  unfold DescriptorPoolVulkan.Track, TrackRemoveUsage. rewrite Hsame. simpl.
  rewrite andb_false_r. eexists _, _. split; [reflexivity|].
  unfold sameTypesUsed in *. simpl _layout. rewrite Hsame. simpl.
  split; [reflexivity|]. split; [reflexivity|].
  split; [|split; [lia|split; [lia|done]]].
  unfold wrap32. rewrite Zminus_mod_idemp_l.
  replace (_allocatedDescriptorSetsCount pool
           + Z.of_nat (length (DescriptorSetLayoutVulkan.GetLayouts layout))
           - Z.of_nat (length (DescriptorSetLayoutVulkan.GetLayouts layout)))
    with (_allocatedDescriptorSetsCount pool) by lia.
  by apply Z.mod_small.
Qed.

(** X12.  [TrackRemoveUsage] stops on its assertion exactly when the layout
    passed and the pool's own differ in the use of some descriptor type, in
    every build.  [Track] stops exactly then too, but only outside release
    builds: in a release build it returns for every layout. *)
Theorem Track_assertions (layout : DescriptorSetLayoutVulkan.t) (pool : t) :
  (TrackRemoveUsage layout pool = AssertionFailed
   <-> exists ty, DescriptorSetLayoutVulkan.typesUsed (_layout pool) ty
                  <> DescriptorSetLayoutVulkan.typesUsed layout ty)
  /\ (Track layout pool = AssertionFailed
      <-> BUILD_RELEASE = false
          /\ exists ty, DescriptorSetLayoutVulkan.typesUsed (_layout pool) ty
                        <> DescriptorSetLayoutVulkan.typesUsed layout ty)
  /\ (TrackRemoveUsage layout pool <> AssertionFailed ->
      exists p, TrackRemoveUsage layout pool = Returned p)
  /\ (Track layout pool <> AssertionFailed -> exists p, Track layout pool = Returned p).
Proof.
  rewrite <- sameTypesUsed_false.
  unfold DescriptorPoolVulkan.Track, TrackRemoveUsage.
  destruct (sameTypesUsed pool layout), BUILD_RELEASE; simpl;
    repeat split; try done; try (by intros [? ?]); by eexists.
Qed.

(** The pool sizes, as a map over the types in use. *)
Lemma poolSizesFor_types (layout : DescriptorSetLayoutVulkan.t) :
  poolSizesFor layout
  = map (fun ty => {| poolSize_type := ty;
                      poolSize_descriptorCount :=
                        wrap32 (DescriptorSetLayoutVulkan.typesUsed layout ty
                                * MaxSetsAllocations) |})
        (List.filter (fun ty => bool_decide (0 < DescriptorSetLayoutVulkan.typesUsed layout ty))
                     VULKAN_DESCRIPTOR_TYPES).
Proof.
  unfold poolSizesFor. generalize VULKAN_DESCRIPTOR_TYPES as tys.
  induction tys as [|ty tys IH]; simpl; [done|].
  case_bool_decide; simpl; [f_equal|]; exact IH.
Qed.

(** X13.  The pool sizes a new pool asks for list exactly the descriptor
    types the layout uses, each once and in the order of the enumeration, so
    never more than the eleven entries the fixed array holds; each asks for
    256 descriptors per use, as a [uint32], which is the exact product and
    positive while the use count is below [2^24]. *)
Theorem poolSizesFor_used_types (layout : DescriptorSetLayoutVulkan.t) :
  poolSize_type <$> poolSizesFor layout
  = List.filter (fun ty => bool_decide (0 < DescriptorSetLayoutVulkan.typesUsed layout ty))
                VULKAN_DESCRIPTOR_TYPES
  /\ (length (poolSizesFor layout) <= 11)%nat
  /\ NoDup (poolSize_type <$> poolSizesFor layout)
  /\ (forall ty, (exists size, size ∈ poolSizesFor layout /\ poolSize_type size = ty)
                 <-> 0 < DescriptorSetLayoutVulkan.typesUsed layout ty)
  /\ (forall size, size ∈ poolSizesFor layout ->
        poolSize_descriptorCount size
        = wrap32 (DescriptorSetLayoutVulkan.typesUsed layout (poolSize_type size) * 256)
        /\ (DescriptorSetLayoutVulkan.typesUsed layout (poolSize_type size) < 2 ^ 24 ->
            poolSize_descriptorCount size
            = DescriptorSetLayoutVulkan.typesUsed layout (poolSize_type size) * 256
            /\ 0 < poolSize_descriptorCount size)).
Proof.
  rewrite poolSizesFor_types.
  set (used := List.filter _ VULKAN_DESCRIPTOR_TYPES).
  assert (forall ty, ty ∈ used <-> 0 < DescriptorSetLayoutVulkan.typesUsed layout ty)
    as Hused.
  { intros ty. unfold used. rewrite list_elem_of_In, filter_In, bool_decide_eq_true.
    split; [tauto|]. intros Hty. split; [|done].
    unfold VULKAN_DESCRIPTOR_TYPES. destruct ty; simpl; tauto. }
  assert (poolSize_type <$>
            map (fun ty => {| poolSize_type := ty;
                              poolSize_descriptorCount :=
                                wrap32 (DescriptorSetLayoutVulkan.typesUsed layout ty
                                        * MaxSetsAllocations) |}) used = used) as Htypes.
  { rewrite <- list_fmap_compose. apply list_fmap_id. }
  split; [exact Htypes|]. split; [|split; [|split]].
  - rewrite length_map. unfold used.
    etrans; [apply filter_length_le|]. done.
  - rewrite Htypes. unfold used. apply NoDup_ListNoDup, List.NoDup_filter.
    unfold VULKAN_DESCRIPTOR_TYPES.
    repeat (constructor; [simpl; intuition discriminate|]). constructor.
  - intros ty. rewrite <- Hused. split.
    + intros (size & Hin & <-). apply list_elem_of_In, in_map_iff in Hin.
      destruct Hin as (ty & <- & Hin). by apply list_elem_of_In.
    + intros Hin.
      exists {| poolSize_type := ty;
                poolSize_descriptorCount :=
                  wrap32 (DescriptorSetLayoutVulkan.typesUsed layout ty
                          * MaxSetsAllocations) |}.
      split; [|reflexivity].
      apply list_elem_of_In, in_map_iff. exists ty. split; [reflexivity|].
      by apply list_elem_of_In.
  - intros size Hin. apply list_elem_of_In, in_map_iff in Hin.
    destruct Hin as (ty & <- & Hin). simpl. split; [done|].
    apply list_elem_of_In, Hused in Hin. intros Hlt.
    assert (2 ^ 24 = 16777216) as E24 by reflexivity.
    assert (2 ^ 32 = 4294967296) as E32 by reflexivity.
    unfold MaxSetsAllocations. rewrite wrap32_small by lia. lia.
Qed.

End PoolFacts.

Section PoolExamples.
Import DescriptorPoolVulkan.
#[local] Existing Instance TypedDescriptorPoolSetVulkan.twoPerPool.

(** An instance: a pool of the sampler layout with a tracked count of one
    below the [uint32] maximum, where the addition wraps. *)
Lemma Track_TrackRemoveUsage_witness :
  exists p1 p2,
    Track false TypedDescriptorPoolSetVulkan.compiledSampler
      (TypedDescriptorPoolSetVulkan.trackedPool 4294967295) = Returned p1
    /\ TrackRemoveUsage TypedDescriptorPoolSetVulkan.compiledSampler p1 = Returned p2
    /\ _allocatedDescriptorSetsCount p1 = 0
    /\ _allocatedDescriptorSetsCount p2 = 4294967295.
Proof.
  destruct (Track_TrackRemoveUsage false TypedDescriptorPoolSetVulkan.compiledSampler
              (TypedDescriptorPoolSetVulkan.trackedPool 4294967295))
    as (p1 & p2 & H1 & H2 & Hc1 & Hc2 & _).
  - intros ty. reflexivity.
  - simpl. lia.
  - exists p1, p2. by repeat split.
Defined.

End PoolExamples.

(** ** Reuse of a pool chain after [Reset] *)

Section PoolChainFacts.
Import TypedDescriptorPoolSetVulkan.
Context `{VulkanDriver}.
Variable VULKAN_HASH_POOLS_WITH_TYPES_USAGE_ID : bool.
(** What "a pool holds [C] allocations" asks of the driver: [allocated]
    counts the allocations a pool has served since it was created or last
    reset, and an allocation from a pool that served fewer than [C]
    succeeds. *)
Variable C : nat.
Variable allocated : NativePool -> nat.
Hypothesis allocated_reset : forall native, allocated (vkResetDescriptorPool native) = 0%nat.
Hypothesis allocate_below_capacity :
  forall native info, (allocated native < C)%nat ->
  exists native' sets,
    vkAllocateDescriptorSets native info = Some (native', sets)
    /\ allocated native' = S (allocated native).
Local Abbreviation AllocateDescriptorSets :=
  (AllocateDescriptorSets VULKAN_HASH_POOLS_WITH_TYPES_USAGE_ID).
Local Abbreviation allocateRun := (allocateRun VULKAN_HASH_POOLS_WITH_TYPES_USAGE_ID).
Local Abbreviation served := (served allocated).

Lemma Reset_pools_empty (s : t) :
  Forall (fun pool =>
            DescriptorPoolVulkan._allocatedDescriptorSetsCount pool = 0
            /\ (is_Some (DescriptorPoolVulkan._handle pool) -> served pool = Some 0%nat))
         (pools (Reset s)).
Proof.
  unfold Reset. simpl. apply Forall_fmap, Forall_true. intros pool. simpl.
  split; [done|]. unfold served. simpl.
  destruct (DescriptorPoolVulkan._handle pool); simpl; [|by intros [? ?]].
  intros _. by rewrite allocated_reset.
Qed.

(** One allocation with the cursor on a first pool that has room. *)
Lemma AllocateDescriptorSets_first_pool (fuel : nat) (layout : DescriptorSetLayoutVulkan.t)
    (pool0 : DescriptorPoolVulkan.t) (rest : list DescriptorPoolVulkan.t)
    (l : DescriptorSetLayoutVulkan.t) (k : nat) :
  served pool0 = Some k -> (k < C)%nat -> (0 < fuel)%nat ->
  exists pool0' sets,
    AllocateDescriptorSets fuel layout
      {| pools := pool0 :: rest; _poolListCurrent := Some 0%nat; _layout := l |}
    = Some (Returned ({| pools := pool0' :: rest; _poolListCurrent := Some 0%nat;
                         _layout := l |}, sets))
    /\ served pool0'
       = Some (if bool_decide (DescriptorSetLayoutVulkan.GetHandles layout <> [])
               then S k else k).
Proof.
  intros Hs Hk Hfuel. unfold AllocateDescriptorSets.
  case_bool_decide; [|by eexists _, _].
  destruct fuel as [|fuel]; [lia|]. simpl.
  unfold served in Hs. unfold DescriptorPoolVulkan.AllocateDescriptorSets.
  destruct (DescriptorPoolVulkan._handle pool0) as [native|] eqn:Hn; [|done].
  injection Hs as <-.
  destruct (allocate_below_capacity native
              (DescriptorSetLayoutVulkan.GetAllocateInfo layout) Hk)
    as (native' & sets & -> & Hal).
  eexists _, _. split; [reflexivity|]. unfold served. simpl. by rewrite Hal.
Qed.

Lemma allocateRun_first_pool (fuel : nat) (layout : DescriptorSetLayoutVulkan.t)
    (rest : list DescriptorPoolVulkan.t) (l : DescriptorSetLayoutVulkan.t) (n : nat) :
  forall (pool0 : DescriptorPoolVulkan.t) (k : nat),
  served pool0 = Some k -> (k + n <= C)%nat -> (0 < fuel)%nat ->
  exists pool0',
    allocateRun fuel layout n
      {| pools := pool0 :: rest; _poolListCurrent := Some 0%nat; _layout := l |}
    = Some (Returned {| pools := pool0' :: rest; _poolListCurrent := Some 0%nat;
                        _layout := l |})
    /\ served pool0'
       = Some (if bool_decide (DescriptorSetLayoutVulkan.GetHandles layout <> [])
               then (k + n)%nat else k).
Proof.
  induction n as [|n IH]; intros pool0 k Hs Hk Hfuel; simpl.
  - exists pool0. split; [done|]. rewrite Hs, Nat.add_0_r. by case_bool_decide.
  - destruct (AllocateDescriptorSets_first_pool fuel layout pool0 rest l k Hs
                ltac:(lia) Hfuel) as (pool1 & sets & -> & Hs1).
    case_bool_decide.
    + destruct (IH pool1 (S k) Hs1 ltac:(lia) Hfuel) as (pool2 & -> & Hs2).
      exists pool2. split; [done|]. rewrite Hs2. f_equal. lia.
    + destruct (IH pool1 k Hs1 ltac:(lia) Hfuel) as (pool2 & -> & Hs2).
      by exists pool2.
Qed.

(** C8.  [Reset] leaves every pool of the chain with a tracked count of
    zero and nothing served by the driver, and the cursor on the first
    pool.  From there, any run of [n <= C] allocations returns with the
    cursor still on the first pool, the chain exactly as long as before and
    all later pools as the reset left them: that pool served all [n], and no
    pool was created.  (The chain has a first pool with a live handle, as the
    constructor leaves it; [fuel] bounds the attempts of one allocation, and
    one attempt is enough.) *)
Theorem Reset_then_allocations_reuse_first_pool
    (s : t) (layout : DescriptorSetLayoutVulkan.t) (fuel n : nat)
    (pool0 : DescriptorPoolVulkan.t) (rest : list DescriptorPoolVulkan.t) :
  pools s = pool0 :: rest ->
  is_Some (DescriptorPoolVulkan._handle pool0) ->
  (0 < fuel)%nat -> (n <= C)%nat ->
  Forall (fun pool =>
            DescriptorPoolVulkan._allocatedDescriptorSetsCount pool = 0
            /\ (is_Some (DescriptorPoolVulkan._handle pool) -> served pool = Some 0%nat))
         (pools (Reset s))
  /\ _poolListCurrent (Reset s) = Some 0%nat
  /\ exists pool0',
       allocateRun fuel layout n (Reset s)
       = Some (Returned {| pools := pool0' :: (DescriptorPoolVulkan.Reset <$> rest);
                           _poolListCurrent := Some 0%nat;
                           _layout := _layout s |})
       /\ length (pool0' :: (DescriptorPoolVulkan.Reset <$> rest)) = length (pools s)
       /\ served pool0'
          = Some (if bool_decide (DescriptorSetLayoutVulkan.GetHandles layout <> [])
                  then n else 0%nat).
Proof.
  intros Hp [native Hn] Hfuel Hle.
  split; [apply Reset_pools_empty|].
  unfold Reset. rewrite Hp. simpl. split; [done|].
  destruct (allocateRun_first_pool fuel layout (DescriptorPoolVulkan.Reset <$> rest)
              (_layout s) n (DescriptorPoolVulkan.Reset pool0) 0%nat)
    as (pool0' & Hrun & Hs); [| lia | done |].
  - unfold served. simpl. rewrite Hn. simpl. by rewrite allocated_reset.
  - exists pool0'. split; [exact Hrun|]. split; [by rewrite length_fmap|].
    exact Hs.
Qed.

End PoolChainFacts.

Section PoolChainExamples.
Import TypedDescriptorPoolSetVulkan.

(** Three allocations from a chain of one fresh pool: the third does not
    fit, a second pool is pushed and the cursor moves to it. *)
Example allocateRun_grows :
  allocateRun true 2 compiledSampler 3 (chainOf [poolServing 0] 0)
  = Some (Returned (chainOf [poolServing 2; poolServing 1] 1)).
Proof. vm_compute. reflexivity. Qed.

(** An instance: the chain grown to two pools above is reset, and two more
    allocations are made. *)
Lemma Reset_then_allocations_reuse_first_pool_witness :
  exists pool0',
    allocateRun true 1 compiledSampler 2 (Reset (chainOf [poolServing 2; poolServing 1] 1))
    = Some (Returned (chainOf [pool0'; poolServing 0] 0))
    /\ served (H := twoPerPool) (fun n : nat => n) pool0' = Some 2%nat.
Proof.
  destruct (Reset_then_allocations_reuse_first_pool (H := twoPerPool) true 2
              (fun n : nat => n)
              (fun _ => eq_refl)
              (fun native info (Hlt : (native < 2)%nat) =>
                 ex_intro _ (S native)
                   (ex_intro _ (replicate (Z.to_nat (descriptorSetCount info)) 1)
                      (conj (f_equal (fun b : bool =>
                                        if b then Some (S native, replicate
                                                     (Z.to_nat (descriptorSetCount info)) 1)
                                        else None)
                                     (bool_decide_eq_true_2 _ Hlt))
                            eq_refl)))
              (chainOf [poolServing 2; poolServing 1] 1) compiledSampler 1 2
              (poolServing 2) [poolServing 1] eq_refl (mk_is_Some _ _ eq_refl)
              ltac:(lia) ltac:(lia))
    as (_ & _ & pool0' & Hrun & _ & Hserved).
  exists pool0'. split; [exact Hrun | exact Hserved].
Defined.

End PoolChainExamples.

(** ** Growth of a pool chain *)

Section PoolChainGrowth.
Import TypedDescriptorPoolSetVulkan.
Context `{VulkanDriver}.
Variable VULKAN_HASH_POOLS_WITH_TYPES_USAGE_ID : bool.
(** The driver creates every pool asked for, and a pool just created
    serves an allocation. *)
Hypothesis create_succeeds : forall createInfo, is_Some (vkCreateDescriptorPool createInfo).
Hypothesis created_pool_serves :
  forall createInfo native info,
  vkCreateDescriptorPool createInfo = Some native ->
  is_Some (vkAllocateDescriptorSets native info).
Local Abbreviation allocateLoop := (allocateLoop VULKAN_HASH_POOLS_WITH_TYPES_USAGE_ID).
Local Abbreviation AllocateDescriptorSets :=
  (AllocateDescriptorSets VULKAN_HASH_POOLS_WITH_TYPES_USAGE_ID).

Lemma allocateLoop_terminates (info : VkDescriptorSetAllocateInfo) (fuel : nat) :
  forall (s : t) (i : nat),
  _poolListCurrent s = Some i -> (i < length (pools s))%nat ->
  (length (pools s) - i < fuel)%nat ->
  exists s' sets j,
    allocateLoop fuel info s = Some (Returned (s', sets))
    /\ _poolListCurrent s' = Some j /\ (i <= j < length (pools s'))%nat
    /\ (length (pools s) <= length (pools s') <= S (length (pools s)))%nat
    /\ (forall k, k <> j -> (k < length (pools s))%nat -> pools s' !! k = pools s !! k)
    /\ _layout s' = _layout s.
Proof.
  induction fuel as [|fuel IH]; intros s i Hcur Hi Hfuel; [lia|].
  simpl. rewrite Hcur.
  destruct (lookup_lt_is_Some_2 (pools s) i Hi) as [pool Hpool]. rewrite Hpool.
  destruct (DescriptorPoolVulkan.AllocateDescriptorSets info pool)
    as [[[] pool'] sets] eqn:Ha.
  - eexists _, sets, i. split; [reflexivity|]. simpl.
    rewrite length_insert. repeat split; try done; try lia.
    intros k Hk _. by rewrite list_lookup_insert_ne.
  - unfold GetFreePool. rewrite Hcur. simpl. case_bool_decide as Hnext.
    + destruct (IH {| pools := pools s; _poolListCurrent := Some (S i);
                      _layout := _layout s |} (S i) eq_refl Hnext ltac:(simpl; lia))
        as (s' & sets' & j & -> & Hj & Hr & Hl & Hk & Hlay).
      simpl in *. exists s', sets', j. repeat split; try done; lia.
    + unfold PushNewPool, DescriptorPoolVulkan.new.
      destruct (create_succeeds
                  {| poolSizes := DescriptorPoolVulkan.poolSizesFor (_layout s);
                     maxSets :=
                       wrap32 (DescriptorPoolVulkan.MaxSetsAllocations
                               * (if VULKAN_HASH_POOLS_WITH_TYPES_USAGE_ID then 1
                                  else Z.of_nat (length (DescriptorSetLayoutVulkan.GetLayouts
                                                           (_layout s))))) |})
        as [native Hnative].
      rewrite Hnative, Hcur. rewrite take_ge by lia.
      destruct fuel as [|fuel]; [lia|]. simpl.
      assert (length (pools s) = S i) as Hlen by lia.
      rewrite lookup_app_r by lia. rewrite Hlen, Nat.sub_diag. simpl.
      destruct (created_pool_serves _ native info Hnative) as [[native' sets'] Hserve].
      unfold DescriptorPoolVulkan.AllocateDescriptorSets. simpl.
      rewrite Hserve. eexists _, sets', (S i). split; [reflexivity|]. simpl.
      rewrite length_insert, length_app. simpl. repeat split; try lia.
      intros k Hk Hlt. rewrite list_lookup_insert_ne by lia.
      rewrite lookup_app_l by lia. done.
Qed.

(** X14.  With a driver that creates every pool asked for and serves an
    allocation from a pool just created: from a chain whose cursor is on one
    of its pools, [AllocateDescriptorSets] returns as soon as the attempts
    allowed exceed the number of pools from the cursor on.  The cursor has
    not moved back and is on a pool of the chain, at most one pool was added
    and none removed, and every pool other than the one under the new cursor
    is as it was. *)
Theorem AllocateDescriptorSets_terminates (fuel : nat)
    (layout : DescriptorSetLayoutVulkan.t) (s : t) (i : nat) :
  _poolListCurrent s = Some i -> (i < length (pools s))%nat ->
  (length (pools s) - i < fuel)%nat ->
  exists s' sets j,
    AllocateDescriptorSets fuel layout s = Some (Returned (s', sets))
    /\ _poolListCurrent s' = Some j /\ (i <= j < length (pools s'))%nat
    /\ (length (pools s) <= length (pools s') <= S (length (pools s)))%nat
    /\ (forall k, k <> j -> (k < length (pools s))%nat -> pools s' !! k = pools s !! k)
    /\ _layout s' = _layout s.
Proof.
  intros Hcur Hi Hfuel. unfold TypedDescriptorPoolSetVulkan.AllocateDescriptorSets.
  case_bool_decide.
  - by apply allocateLoop_terminates.
  - exists s, [], i. repeat split; try done; lia.
Qed.

End PoolChainGrowth.

Section PoolChainCount.
Import TypedDescriptorPoolSetVulkan.
Context `{VulkanDriver}.
Variable VULKAN_HASH_POOLS_WITH_TYPES_USAGE_ID : bool.
(** A driver whose pools hold exactly [C] allocations: [allocated] counts
    the allocations a pool has served; a new pool has served none; an
    allocation succeeds, and is counted, while fewer than [C] were served,
    and fails from then on. *)
Variable C : nat.
Variable allocated : NativePool -> nat.
Hypothesis C_positive : (0 < C)%nat.
Hypothesis create_succeeds : forall createInfo, is_Some (vkCreateDescriptorPool createInfo).
Hypothesis created_empty :
  forall createInfo native,
  vkCreateDescriptorPool createInfo = Some native -> allocated native = 0%nat.
Hypothesis allocate_below_capacity :
  forall native info, (allocated native < C)%nat ->
  exists native' sets,
    vkAllocateDescriptorSets native info = Some (native', sets)
    /\ allocated native' = S (allocated native).
Hypothesis allocate_at_capacity :
  forall native info, (C <= allocated native)%nat ->
  vkAllocateDescriptorSets native info = None.
Local Abbreviation AllocateDescriptorSets :=
  (AllocateDescriptorSets VULKAN_HASH_POOLS_WITH_TYPES_USAGE_ID).
Local Abbreviation allocateRun := (allocateRun VULKAN_HASH_POOLS_WITH_TYPES_USAGE_ID).
Local Abbreviation served := (served allocated).

(** One allocation from a chain of [q] full pools and a last pool that
    served [r], with the cursor on the last. *)
Lemma AllocateDescriptorSets_counts (fuel : nat) (layout : DescriptorSetLayoutVulkan.t)
    (s : t) (q r : nat) :
  DescriptorSetLayoutVulkan.GetHandles layout <> [] ->
  (2 <= fuel)%nat -> (r <= C)%nat ->
  served <$> pools s = replicate q (Some C) ++ [Some r] ->
  _poolListCurrent s = Some q ->
  exists s' sets,
    AllocateDescriptorSets fuel layout s = Some (Returned (s', sets))
    /\ _layout s' = _layout s
    /\ if decide (r < C)%nat
       then served <$> pools s' = replicate q (Some C) ++ [Some (S r)]
            /\ _poolListCurrent s' = Some q
       else served <$> pools s' = replicate (S q) (Some C) ++ [Some 1%nat]
            /\ _poolListCurrent s' = Some (S q).
Proof.
  intros Hh Hfuel Hr Hserved Hcur.
  unfold TypedDescriptorPoolSetVulkan.AllocateDescriptorSets.
  rewrite bool_decide_eq_true_2 by done.
  assert (length (pools s) = S q) as Hlen.
  { rewrite <- (length_fmap served), Hserved, length_app, length_replicate. simpl. lia. }
  destruct (lookup_lt_is_Some_2 (pools s) q ltac:(lia)) as [pool Hpool].
  assert (served pool = Some r) as Hpr.
  { assert ((served <$> pools s) !! q = Some (Some r)) as Hq.
    { rewrite Hserved. apply list_lookup_middle. by rewrite length_replicate. }
    rewrite list_lookup_fmap, Hpool in Hq. by injection Hq. }
  unfold TypedDescriptorPoolSetVulkan.served in Hpr.
  destruct (DescriptorPoolVulkan._handle pool) as [native|] eqn:Hnative; [|done].
  injection Hpr as Hal.
  destruct fuel as [|fuel]; [lia|]. simpl. rewrite Hcur, Hpool.
  unfold DescriptorPoolVulkan.AllocateDescriptorSets. rewrite Hnative.
  case_decide as Hroom.
  - destruct (allocate_below_capacity native
                (DescriptorSetLayoutVulkan.GetAllocateInfo layout) ltac:(lia))
      as (native' & sets & -> & Hal').
    eexists _, sets. split; [reflexivity|]. simpl. split; [done|]. split; [|done].
    rewrite list_fmap_insert, Hserved.
    rewrite insert_app_r_alt by (rewrite length_replicate; lia).
    rewrite length_replicate, Nat.sub_diag. simpl.
    unfold TypedDescriptorPoolSetVulkan.served. simpl. rewrite Hal', Hal. done.
  - rewrite allocate_at_capacity by lia.
    unfold GetFreePool. rewrite Hcur. simpl.
    rewrite bool_decide_eq_false_2 by lia.
    unfold PushNewPool, DescriptorPoolVulkan.new.
    destruct (create_succeeds
                {| poolSizes := DescriptorPoolVulkan.poolSizesFor (_layout s);
                   maxSets :=
                     wrap32 (DescriptorPoolVulkan.MaxSetsAllocations
                             * (if VULKAN_HASH_POOLS_WITH_TYPES_USAGE_ID then 1
                                else Z.of_nat (length (DescriptorSetLayoutVulkan.GetLayouts
                                                         (_layout s))))) |})
      as [fresh Hfresh].
    rewrite Hfresh, Hcur. rewrite take_ge by lia.
    destruct fuel as [|fuel]; [lia|]. simpl.
    rewrite lookup_app_r by lia. rewrite Hlen, Nat.sub_diag. simpl.
    unfold DescriptorPoolVulkan.AllocateDescriptorSets. simpl.
    pose proof (created_empty _ _ Hfresh) as Hzero.
    destruct (allocate_below_capacity fresh
                (DescriptorSetLayoutVulkan.GetAllocateInfo layout) ltac:(lia))
      as (fresh' & sets & -> & Hal').
    eexists _, sets. split; [reflexivity|]. simpl. split; [done|]. split; [|done].
    rewrite list_fmap_insert, fmap_app, Hserved.
    rewrite insert_app_r_alt
      by (rewrite length_app, length_replicate; simpl; lia).
    rewrite length_app, length_replicate. simpl.
    replace (S q - (q + 1))%nat with 0%nat by lia. simpl.
    unfold TypedDescriptorPoolSetVulkan.served at 1. simpl. rewrite Hal', Hzero.
    assert (r = C) as -> by lia.
    by rewrite <- replicate_S_end.
Qed.

Lemma allocateRun_counts (fuel : nat) (layout : DescriptorSetLayoutVulkan.t) (n : nat) :
  forall (s : t) (q r : nat),
  DescriptorSetLayoutVulkan.GetHandles layout <> [] ->
  (2 <= fuel)%nat -> (r <= C)%nat ->
  served <$> pools s = replicate q (Some C) ++ [Some r] ->
  _poolListCurrent s = Some q ->
  exists s' q' r',
    allocateRun fuel layout n s = Some (Returned s')
    /\ served <$> pools s' = replicate q' (Some C) ++ [Some r']
    /\ _poolListCurrent s' = Some q'
    /\ (r' <= C)%nat /\ (q' * C + r' = q * C + r + n)%nat
    /\ (0 < r + n -> 0 < r')%nat.
Proof.
  induction n as [|n IH]; intros s q r Hh Hfuel Hr Hserved Hcur; simpl.
  - exists s, q, r. repeat split; try done; lia.
  - destruct (AllocateDescriptorSets_counts fuel layout s q r Hh Hfuel Hr Hserved Hcur)
      as (s1 & sets & -> & _ & Hstep).
    case_decide as Hroom; destruct Hstep as [Hserved1 Hcur1].
    + destruct (IH s1 q (S r) Hh Hfuel ltac:(lia) Hserved1 Hcur1)
        as (s' & q' & r' & -> & Hs' & Hc' & Hr' & Hsum & Hpos).
      exists s', q', r'. repeat split; try done; lia.
    + destruct (IH s1 (S q) 1%nat Hh Hfuel ltac:(lia) Hserved1 Hcur1)
        as (s' & q' & r' & -> & Hs' & Hc' & Hr' & Hsum & Hpos).
      exists s', q', r'. repeat split; try done; lia.
Qed.

(** X15.  With a driver whose pools hold exactly [C >= 1] allocations each:
    [n] allocations for a layout with handles, from a chain of one unused
    pool and at least two attempts allowed per allocation, all return; the
    chain then has [(n - 1) / C + 1] pools (the ceiling of [n / C] for
    [n >= 1], one pool for none), all full but possibly the last, and the
    cursor is on the last. *)
Theorem allocateRun_pool_count (fuel : nat) (layout : DescriptorSetLayoutVulkan.t)
    (n : nat) (s : t) :
  DescriptorSetLayoutVulkan.GetHandles layout <> [] ->
  (2 <= fuel)%nat ->
  served <$> pools s = [Some 0%nat] ->
  _poolListCurrent s = Some 0%nat ->
  exists s',
    allocateRun fuel layout n s = Some (Returned s')
    /\ length (pools s') = S ((n - 1) / C)
    /\ _poolListCurrent s' = Some ((n - 1) / C)%nat
    /\ served <$> pools s'
       = replicate ((n - 1) / C) (Some C) ++ [Some (n - (n - 1) / C * C)%nat].
Proof.
  intros Hh Hfuel Hserved Hcur.
  destruct (allocateRun_counts fuel layout n s 0 0 Hh Hfuel ltac:(lia) Hserved Hcur)
    as (s' & q & r & Hrun & Hs' & Hc' & Hr & Hsum & Hpos).
  assert (q = ((n - 1) / C)%nat /\ r = (n - (n - 1) / C * C)%nat) as [-> ->].
  { destruct n as [|n].
    - assert (q = 0%nat) by nia. subst. simpl.
      rewrite Nat.Div0.div_0_l. split; lia.
    - specialize (Hpos ltac:(lia)).
      replace (S n - 1)%nat with n by lia.
      assert (q = (n / C)%nat) as ->.
      { apply (Nat.div_unique n C q (r - 1)); lia. }
      split; [done|]. lia. }
  exists s'. split; [done|]. split; [|by split].
  rewrite <- (length_fmap served), Hs', length_app, length_replicate. simpl. lia.
Qed.

End PoolChainCount.

Section PoolChainGrowthExamples.
Import TypedDescriptorPoolSetVulkan.
#[local] Existing Instance TypedDescriptorPoolSetVulkan.twoPerPool.

(** The sample driver creates every pool, empty, and a pool serves until it
    has served two. *)
Lemma twoPerPool_creates (createInfo : VkDescriptorPoolCreateInfo) :
  is_Some (vkCreateDescriptorPool createInfo).
Proof. by eexists. Qed.

Lemma twoPerPool_created_empty (createInfo : VkDescriptorPoolCreateInfo) (native : nat) :
  vkCreateDescriptorPool createInfo = Some native -> native = 0%nat.
Proof. simpl. congruence. Qed.

Lemma twoPerPool_below_capacity (native : nat) (info : VkDescriptorSetAllocateInfo) :
  (native < 2)%nat ->
  exists native' sets,
    vkAllocateDescriptorSets native info = Some (native', sets) /\ native' = S native.
Proof.
  intros Hlt. simpl. rewrite bool_decide_eq_true_2 by done. by eexists _, _.
Qed.

Lemma twoPerPool_at_capacity (native : nat) (info : VkDescriptorSetAllocateInfo) :
  (2 <= native)%nat -> vkAllocateDescriptorSets native info = None.
Proof.
  intros Hge. simpl. rewrite bool_decide_eq_false_2 by lia. done.
Qed.

(** An instance: the chain grown to two pools above, with the cursor on the
    second, is asked for one more allocation. *)
Lemma AllocateDescriptorSets_terminates_witness :
  exists s' sets,
    AllocateDescriptorSets true 2 compiledSampler
      (chainOf [poolServing 2; poolServing 1] 1) = Some (Returned (s', sets)).
Proof.
  destruct (AllocateDescriptorSets_terminates true twoPerPool_creates) with
    (fuel := 2%nat) (layout := compiledSampler)
    (s := chainOf [poolServing 2; poolServing 1] 1) (i := 1%nat)
    as (s' & sets & _ & Hrun & _).
  - intros createInfo native info Hcreated.
    rewrite (twoPerPool_created_empty _ _ Hcreated). by eexists.
  - reflexivity.
  - simpl. lia.
  - simpl. lia.
  - by exists s', sets.
Defined.

(** An instance: five allocations from pools of two give three pools. *)
Lemma allocateRun_pool_count_witness :
  exists s',
    allocateRun true 2 compiledSampler 5 (chainOf [poolServing 0] 0) = Some (Returned s')
    /\ length (pools s') = 3%nat.
Proof.
  destruct (allocateRun_pool_count (H := twoPerPool) true 2 (fun n : nat => n)) with
    (fuel := 2%nat) (layout := compiledSampler) (n := 5%nat)
    (s := chainOf [poolServing 0] 0)
    as (s' & Hrun & Hlen & _).
  - lia.
  - exact twoPerPool_creates.
  - exact twoPerPool_created_empty.
  - exact twoPerPool_below_capacity.
  - exact twoPerPool_at_capacity.
  - discriminate.
  - lia.
  - reflexivity.
  - reflexivity.
  - by exists s'.
Defined.

End PoolChainGrowthExamples.

(** ** Registries *)

Section ContainerFacts.
Import DescriptorPoolSetContainerVulkan.
Context `{VulkanDriver}.

(** C7, as the code has it.  [SetUsed] sets the used flag to the value
    given; it records the current frame counter as the timestamp when the
    registry is marked used, and leaves the timestamp as it was when the
    registry is marked free.  The pool chains are not touched. *)
Theorem SetUsed_flag_and_timestamp (FrameCount : Z) (used : bool) (c : t) :
  _used (SetUsed FrameCount used c) = used
  /\ _lastFrameUsed (SetUsed FrameCount true c) = FrameCount
  /\ _lastFrameUsed (SetUsed FrameCount false c) = _lastFrameUsed c
  /\ _typedDescriptorPools (SetUsed FrameCount used c) = _typedDescriptorPools c
  /\ IsUnused (SetUsed FrameCount used c) = negb used.
Proof. by repeat split. Qed.

End ContainerFacts.

Section ContainerExamples.
Import DescriptorPoolSetContainerVulkan.

(** C7 as the specification states it fails both ways in frame 7: marking
    the registry free keeps the timestamp 3 where it should become 7, and
    marking it used moves the timestamp to 7 where it should stay 3. *)
Lemma SetUsed_timestamp_counterexample :
  _lastFrameUsed (SetUsed 7 false usedSinceFrame3) = 3
  /\ _lastFrameUsed (SetUsed_as_specified 7 false usedSinceFrame3) = 7
  /\ _lastFrameUsed (SetUsed 7 true usedSinceFrame3) = 7
  /\ _lastFrameUsed (SetUsed_as_specified 7 true usedSinceFrame3) = 3
  /\ SetUsed 7 false usedSinceFrame3 <> SetUsed_as_specified 7 false usedSinceFrame3
  /\ SetUsed 7 true usedSinceFrame3 <> SetUsed_as_specified 7 true usedSinceFrame3.
Proof. repeat split; discriminate. Qed.

End ContainerExamples.

(** ** The manager: garbage collection and leases *)

Section ManagerFacts.
Import DescriptorPoolSetContainerVulkan DescriptorPoolsManagerVulkan.
Context `{VulkanDriver}.
Variable VULKAN_RESOURCE_DELETE_SAFE_FRAMES_COUNT : Z.
Local Abbreviation collectable := (collectable VULKAN_RESOURCE_DELETE_SAFE_FRAMES_COUNT).
Local Abbreviation GC_loop := (GC_loop VULKAN_RESOURCE_DELETE_SAFE_FRAMES_COUNT).
Local Abbreviation GC := (GC VULKAN_RESOURCE_DELETE_SAFE_FRAMES_COUNT).
Local Abbreviation step := (step VULKAN_RESOURCE_DELETE_SAFE_FRAMES_COUNT).
Local Abbreviation run := (run VULKAN_RESOURCE_DELETE_SAFE_FRAMES_COUNT).

(** *** Removal from the engine's array *)

Lemma RemoveAt_last {A : Type} (l : list A) (x : A) :
  RemoveAt (length l) (l ++ [x]) = l.
Proof.
  unfold RemoveAt. rewrite last_snoc, length_app. simpl.
  replace (length l + 1 - 1)%nat with (length l) by lia.
  rewrite insert_app_r_alt by lia. rewrite Nat.sub_diag. simpl.
  apply take_app_length.
Qed.

Lemma RemoveAt_swap {A : Type} (l1 l2 : list A) (p x : A) :
  RemoveAt (length l1) (l1 ++ p :: l2 ++ [x]) = l1 ++ x :: l2.
Proof.
  unfold RemoveAt.
  assert (last (l1 ++ p :: l2 ++ [x]) = Some x) as ->.
  { assert (l1 ++ p :: l2 ++ [x] = (l1 ++ p :: l2) ++ [x]) as ->
      by (by rewrite <- app_assoc).
    apply last_snoc. }
  rewrite insert_app_r_alt by lia. rewrite Nat.sub_diag. simpl.
  assert (l1 ++ x :: l2 ++ [x] = (l1 ++ x :: l2) ++ [x]) as ->
    by (by rewrite <- app_assoc).
  assert (length (l1 ++ p :: l2 ++ [x]) - 1 = length (l1 ++ x :: l2))%nat as ->.
  { rewrite !length_app. simpl. rewrite length_app. simpl. lia. }
  apply take_app_length.
Qed.

(** Removal takes out the item at the index and keeps every other item,
    in some order. *)
Lemma RemoveAt_middle {A : Type} (l1 l2 : list A) (p : A) :
  p :: RemoveAt (length l1) (l1 ++ p :: l2) ≡ₚ l1 ++ p :: l2.
Proof.
  induction l2 as [|x l2 _] using rev_ind.
  - rewrite RemoveAt_last. apply Permutation_cons_append.
  - rewrite RemoveAt_swap. rewrite <- (Permutation_middle l1 (l2 ++ [x]) p).
    constructor. apply Permutation_app_head, Permutation_cons_append.
Qed.

Lemma RemoveAt_length {A : Type} (l1 l2 : list A) (p : A) :
  S (length (RemoveAt (length l1) (l1 ++ p :: l2))) = length (l1 ++ p :: l2).
Proof. apply (Permutation_length (RemoveAt_middle l1 l2 p)). Qed.

Lemma RemoveAt_NoDup {A : Type} (l1 l2 : list A) (p : A) :
  NoDup (l1 ++ p :: l2) ->
  NoDup (RemoveAt (length l1) (l1 ++ p :: l2))
  /\ forall x, x ∈ RemoveAt (length l1) (l1 ++ p :: l2) <-> x ∈ l1 ++ p :: l2 /\ x <> p.
Proof.
  intros Hnd. pose proof (RemoveAt_middle l1 l2 p) as Hperm.
  rewrite <- Hperm in Hnd. apply NoDup_cons in Hnd as [Hp Hnd].
  split; [done|]. intros x. split.
  - intros Hx. split; [|by intros ->]. rewrite <- Hperm. by right.
  - intros [Hx Hne]. rewrite <- Hperm in Hx.
    by apply elem_of_cons in Hx as [->|Hx].
Qed.

(** *** Garbage collection *)

Lemma collectable_true (frameCount : Z) (m : t) (p : positive) :
  collectable frameCount m p = true <->
  exists c, objects m !! p = Some c /\ _used c = false
            /\ VULKAN_RESOURCE_DELETE_SAFE_FRAMES_COUNT
               < wrap64 (frameCount - _lastFrameUsed c).
Proof.
  unfold collectable, IsUnused, GetLastFrameUsed.
  destruct (objects m !! p) as [c|]; [|split; [done | by intros (? & ? & _)]].
  rewrite andb_true_iff, negb_true_iff, bool_decide_eq_true.
  split; [intros []; by exists c | intros (c' & [= <-] & ? & ?); done].
Qed.

(** The loop stops at the last collectable entry among the first [n], and
    removes that one; with none it changes nothing. *)
Lemma GC_loop_spec (frameCount : Z) (m : t) (n : nat) :
  (n <= length (_poolSets m))%nat ->
  (Forall (fun p => collectable frameCount m p = false) (take n (_poolSets m))
   /\ GC_loop frameCount n m = (m, []))
  \/ (exists l1 p l2,
        take n (_poolSets m) = l1 ++ p :: l2
        /\ collectable frameCount m p = true
        /\ Forall (fun q => collectable frameCount m q = false) l2
        /\ GC_loop frameCount n m
           = ({| _poolSets := RemoveAt (length l1) (_poolSets m);
                 objects := delete p (objects m) |}, [CallDelete p])).
Proof.
  induction n as [|i IH]; intros Hn; simpl.
  - left. rewrite take_0. by split.
  - destruct (lookup_lt_is_Some_2 (_poolSets m) i ltac:(lia)) as [p Hp].
    rewrite Hp, (take_S_r _ _ _ Hp).
    destruct (collectable frameCount m p) eqn:Hc.
    + right. exists (take i (_poolSets m)), p, [].
      rewrite length_take, Nat.min_l by lia. by repeat split.
    + destruct (IH ltac:(lia)) as [[Hall ->]|(l1 & q & l2 & Ht & Hq & Hl2 & ->)].
      * left. split; [|done]. apply Forall_app. by split; [|repeat constructor].
      * right. exists l1, q, (l2 ++ [p]). rewrite Ht, <- app_assoc. simpl.
        split; [done|]. split; [done|]. split; [|done].
        apply Forall_app. by split; [|repeat constructor].
Qed.

(** The two ways a call of [GC] can go. *)
Lemma GC_cases (frameCount : Z) (m : t) :
  (Forall (fun p => collectable frameCount m p = false) (_poolSets m)
   /\ GC frameCount m = (m, []))
  \/ (exists l1 p l2 c,
        _poolSets m = l1 ++ p :: l2
        /\ objects m !! p = Some c /\ _used c = false
        /\ VULKAN_RESOURCE_DELETE_SAFE_FRAMES_COUNT
           < wrap64 (frameCount - _lastFrameUsed c)
        /\ Forall (fun q => collectable frameCount m q = false) l2
        /\ GC frameCount m
           = ({| _poolSets := RemoveAt (length l1) (_poolSets m);
                 objects := delete p (objects m) |},
              [CallDelete p])).
Proof.
  unfold GC.
  destruct (GC_loop_spec frameCount m (length (_poolSets m)) ltac:(lia))
    as [[Hall ->]|(l1 & p & l2 & Ht & Hp & Hl2 & ->)].
  - left. by rewrite firstn_all in Hall.
  - right. rewrite firstn_all in Ht.
    apply collectable_true in Hp as (c & Hc & Hu & Hm).
    exists l1, p, l2, c. by repeat (split; [done|]).
Qed.

(** An entry the loop passes over is not a free registry older than the
    margin. *)
Lemma collectable_false (frameCount : Z) (m : t) (p : positive)
    (c : DescriptorPoolSetContainerVulkan.t) :
  collectable frameCount m p = false -> objects m !! p = Some c ->
  _used c = true
  \/ wrap64 (frameCount - _lastFrameUsed c) <= VULKAN_RESOURCE_DELETE_SAFE_FRAMES_COUNT.
Proof.
  intros Hnot Hc. destruct (_used c) eqn:Hu; [by left|]. right.
  destruct (Z_lt_le_dec VULKAN_RESOURCE_DELETE_SAFE_FRAMES_COUNT
              (wrap64 (frameCount - _lastFrameUsed c))) as [Hlt|Hle]; [|done].
  apply not_true_iff_false in Hnot. destruct Hnot.
  apply collectable_true. by exists c.
Qed.

(** C1.  One call of [GC] goes one of two ways.  Either every listed
    registry is in use or has a timestamp at most the safety margin of
    frames behind the frame counter ([uint64] difference), and the call
    changes nothing.  Or it destroys exactly one registry: the entry nearest
    the end of [_poolSets] that is free and whose timestamp lies more than
    the margin behind the frame counter; that entry is taken out of the list
    by [RemoveAt], every other entry stays listed, and no other registry is
    touched.  A registry that is in use, or whose timestamp is within the
    margin of the frame counter, is still listed and still alive after the
    call. *)
Theorem GC_removes_last_stale_registry (frameCount : Z) (m : t) :
  (((forall p c, p ∈ _poolSets m -> objects m !! p = Some c ->
       _used c = true
       \/ wrap64 (frameCount - _lastFrameUsed c)
          <= VULKAN_RESOURCE_DELETE_SAFE_FRAMES_COUNT)
    /\ GC frameCount m = (m, []))
   \/ (exists l1 p l2 c,
         _poolSets m = l1 ++ p :: l2
         /\ objects m !! p = Some c /\ _used c = false
         /\ VULKAN_RESOURCE_DELETE_SAFE_FRAMES_COUNT
            < wrap64 (frameCount - _lastFrameUsed c)
         /\ (forall q c', q ∈ l2 -> objects m !! q = Some c' ->
               _used c' = true
               \/ wrap64 (frameCount - _lastFrameUsed c')
                  <= VULKAN_RESOURCE_DELETE_SAFE_FRAMES_COUNT)
         /\ GC frameCount m
            = ({| _poolSets := RemoveAt (length l1) (_poolSets m);
                  objects := delete p (objects m) |},
               [CallDelete p])
         /\ p :: _poolSets (GC frameCount m).1 ≡ₚ _poolSets m))
  /\ (forall p c,
        p ∈ _poolSets m -> objects m !! p = Some c ->
        _used c = true
        \/ (0 <= _lastFrameUsed c <= frameCount /\ frameCount < 2 ^ 64
            /\ frameCount - _lastFrameUsed c <= VULKAN_RESOURCE_DELETE_SAFE_FRAMES_COUNT) ->
        p ∈ _poolSets (GC frameCount m).1
        /\ objects (GC frameCount m).1 !! p = Some c
        /\ CallDelete p ∉ (GC frameCount m).2).
Proof.
  split.
  - destruct (GC_cases frameCount m)
      as [[Hall Hgc]|(l1 & p & l2 & c & Hl & Hc & Hu & Hm & Hl2 & Hgc)].
    + left. split; [|done]. intros p c Hp Hc.
      rewrite Forall_forall in Hall.
      exact (collectable_false frameCount m p c (Hall p Hp) Hc).
    + right. exists l1, p, l2, c. repeat (split; [done|]). split; [|split; [done|]].
      * intros q c' Hq Hc'. rewrite Forall_forall in Hl2.
        exact (collectable_false frameCount m q c' (Hl2 q Hq) Hc').
      * rewrite Hgc. simpl. rewrite Hl. apply RemoveAt_middle.
  - intros p c Hin Hobj Hkeep.
    assert (collectable frameCount m p = false) as Hnot.
    { apply not_true_is_false. rewrite collectable_true.
      intros (c' & Hc' & Hu & Hm). rewrite Hobj in Hc'. injection Hc' as <-.
      destruct Hkeep as [Hused|(Hr & Hf & Hd)]; [congruence|].
      rewrite wrap64_small in Hm by lia. lia. }
    destruct (GC_cases frameCount m)
      as [[_ ->]|(l1 & q & l2 & c' & Hl & Hq & Hu & Hm & _ & ->)]; simpl.
    + split; [done|]. split; [done|]. apply not_elem_of_nil.
    + assert (p <> q) as Hne.
      { intros ->. apply not_true_iff_false in Hnot. apply Hnot.
        apply collectable_true. by exists c'. }
      split; [|split].
      * rewrite Hl in Hin |- *.
        rewrite <- (RemoveAt_middle l1 l2 q) in Hin.
        by apply elem_of_cons in Hin as [Hin|Hin].
      * by rewrite lookup_delete_ne.
      * rewrite list_elem_of_singleton. congruence.
Qed.

(** *** Leases *)

Ltac key_cases k q :=
  destruct (decide (k = q)) as [<-|?];
  [ rewrite ?lookup_insert_eq, ?lookup_alter_eq, ?lookup_delete_eq
  | rewrite ?lookup_insert_ne, ?lookup_alter_ne, ?lookup_delete_ne by done ].

Lemma removeFirst_elem_of (p q : positive) (l : list positive) :
  NoDup l -> q ∈ removeFirst p l <-> q ∈ l /\ q <> p.
Proof.
  induction 1 as [|x l Hx Hl IH]; simpl.
  - split; [intros []%elem_of_nil | intros [[]%elem_of_nil _]].
  - destruct (decide (x = p)) as [->|Hne].
    + rewrite elem_of_cons. split; [|intros [[->|?] ?]; done].
      intros Hq. split; [by right|]. by intros ->.
    + rewrite !elem_of_cons, IH. split.
      * intros [->|[? ?]]; [by split; [left|] | by split; [right|]].
      * intros [[->|?] ?]; [by left | by right].
Qed.

Lemma removeFirst_NoDup (p : positive) (l : list positive) :
  NoDup l -> NoDup (removeFirst p l).
Proof.
  induction 1 as [|x l Hx Hl IH]; simpl; [constructor|].
  destruct (decide (x = p)); [done|].
  constructor; [|done]. rewrite removeFirst_elem_of by done. tauto.
Qed.

Lemma run_snoc (es : list Event) (e : Event) (s : System) :
  run (es ++ [e]) s = match run es s with Some s' => step e s' | None => None end.
Proof.
  revert s. induction es as [|e' es IH]; intros s; simpl.
  - by destruct (step e s).
  - destruct (step e' s); [apply IH | done].
Qed.

(** The two ways [AcquirePoolSetContainer] can go. *)
Lemma AcquirePoolSetContainer_cases (frameCount : Z) (m : t) :
  (exists p c,
     p ∈ _poolSets m /\ objects m !! p = Some c /\ _used c = false
     /\ AcquirePoolSetContainer frameCount m
        = (p,
           {| _poolSets := _poolSets m;
              objects := <[p := Reset (SetUsed frameCount true c)]> (objects m) |},
           [CallSetUsed p true; CallReset p]))
  \/ ((forall p, p ∈ _poolSets m -> IsUnusedAt m p = false)
      /\ AcquirePoolSetContainer frameCount m
         = (fresh (dom (objects m)),
            {| _poolSets := _poolSets m ++ [fresh (dom (objects m))];
               objects := <[fresh (dom (objects m))
                            := DescriptorPoolSetContainerVulkan.new frameCount]> (objects m) |},
            [CallNew (fresh (dom (objects m)))])).
Proof.
  unfold AcquirePoolSetContainer.
  destruct (List.find (IsUnusedAt m) (_poolSets m)) as [p|] eqn:Hf.
  - left. apply find_some in Hf as [Hin Hu]. apply list_elem_of_In in Hin.
    unfold IsUnusedAt, IsUnused in Hu.
    destruct (objects m !! p) as [c|] eqn:Hc; [|done].
    apply negb_true_iff in Hu. exists p, c. repeat (split; [done|]).
    f_equal. f_equal. f_equal. apply map_eq. intros q.
    rewrite lookup_alter, lookup_insert. case_decide; subst; [by rewrite Hc | done].
  - right. split; [|done]. intros p Hin. apply list_elem_of_In in Hin.
    by apply (find_none _ _ Hf).
Qed.

Lemma step_Invariant (es : list Event) (e : Event) (s s' : System) :
  Invariant es s -> step e s = Some s' -> Invariant (es ++ [e]) s'.
Proof.
  intros [Hnd Hlive Hlnd Hused Hfree] Hstep.
  assert (forall p c, objects (manager s) !! p = Some c -> _used c = false ->
                      Release p ∈ es ++ [e]) as Hfree'.
  { intros p c Hc Hu. apply elem_of_app. left. eauto. }
  destruct e as [|p| | |p chains]; simpl in Hstep.
  - (* Acquire *)
    destruct (AcquirePoolSetContainer_cases (FrameCount s) (manager s))
      as [(p & c & Hin & Hc & Hu & Heq)|[Hnone Heq]];
      rewrite Heq in Hstep; injection Hstep as <-; split; simpl.
    + done.
    + intros q. rewrite Hlive. key_cases p q; [|done].
      rewrite Hc. split; by eexists.
    + constructor; [|done]. rewrite Hused. intros (c' & Hc' & Hu'). congruence.
    + intros q. rewrite elem_of_cons, Hused. key_cases p q.
      * split; [by eexists|by left].
      * split; [intros [?|?]; done | by right].
    + intros q c'. key_cases p q; [|apply Hfree'].
      intros [= <-]. done.
    + apply NoDup_app. split; [done|]. split; [|apply NoDup_singleton].
      intros q Hq ->%list_elem_of_singleton.
      apply Hlive, elem_of_dom in Hq. by apply is_fresh in Hq.
    + intros q. rewrite elem_of_app, list_elem_of_singleton, Hlive.
      key_cases (fresh (dom (objects (manager s)))) q;
        [split; [by eexists | by right]|].
      split; [intros [?|?]; congruence | by left].
    + constructor; [|done]. rewrite Hused. intros (c' & Hc' & _).
      apply (is_fresh (dom (objects (manager s)))). apply elem_of_dom. by eexists.
    + intros q. rewrite elem_of_cons, Hused.
      key_cases (fresh (dom (objects (manager s)))) q.
      * split; [by eexists | by left].
      * split; [intros [?|?]; congruence | by right].
    + intros q c'. key_cases (fresh (dom (objects (manager s)))) q; [|apply Hfree'].
      intros [= <-]. done.
  - (* Release *)
    case_decide as Hp; [|done]. injection Hstep as <-. split; simpl.
    + done.
    + intros q. rewrite Hlive. key_cases p q; [|done].
      by rewrite fmap_is_Some.
    + by apply removeFirst_NoDup.
    + intros q. rewrite removeFirst_elem_of, Hused by done. key_cases p q.
      * split; [intros [_ ?]; done|]. intros (c & Hc & Hu).
        destruct (objects (manager s) !! p); simpl in Hc; [|done].
        injection Hc as <-. done.
      * split; [by intros [? _] | by split].
    + intros q c. key_cases p q; [|apply Hfree'].
      intros _ _. apply elem_of_app. right. by apply list_elem_of_singleton.
  - (* CollectGarbage *)
    injection Hstep as <-.
    destruct (GC_cases (FrameCount s) (manager s))
      as [[_ ->]|(l1 & q & l2 & c & Hl & Hq & Hu & _ & _ & ->)]; simpl.
    { by split. }
    rewrite Hl in Hnd. destruct (RemoveAt_NoDup l1 l2 q Hnd) as [Hnd' Hmem].
    rewrite <- Hl in Hnd', Hmem.
    split; simpl.
    + done.
    + intros x. rewrite Hmem, Hlive. key_cases q x.
      * split; [by intros [_ ?] | by intros [? ?]].
      * split; [by intros [? _] | by split].
    + done.
    + intros x. rewrite Hused. key_cases q x; [|done].
      split; [|by intros (? & ? & _)]. intros (c' & Hc' & Hu'). congruence.
    + intros x c'. key_cases q x; [done|]. apply Hfree'.
  - (* NextFrame *)
    injection Hstep as <-. by split.
  - (* Work *)
    case_decide as Hp; [|done]. injection Hstep as <-. split; simpl.
    + done.
    + intros q. rewrite Hlive. key_cases p q; [|done].
      by rewrite fmap_is_Some.
    + done.
    + intros q. rewrite Hused. key_cases p q; [|done].
      destruct (objects (manager s) !! p) as [c|]; simpl.
      * split; intros (c' & [= <-] & Hu); by eexists.
      * split; by intros (? & ? & _).
    + intros q c. key_cases p q; [|apply Hfree'].
      destruct (objects (manager s) !! p) as [c0|] eqn:Hc0; simpl; [|done].
      intros [= <-]. simpl. by apply Hfree'.
Qed.

Lemma run_Invariant (frame0 : Z) (es : list Event) :
  forall s, run es (initial frame0) = Some s -> Invariant es s.
Proof.
  induction es as [|e es IH] using rev_ind; intros s.
  - intros [= <-]. split; simpl.
    + constructor.
    + intros p. rewrite lookup_empty. split; [intros []%elem_of_nil | by intros [? ?]].
    + constructor.
    + intros p. split; [intros []%elem_of_nil | by intros (? & ? & _)].
    + intros p c. by rewrite lookup_empty.
  - rewrite run_snoc. destruct (run es (initial frame0)) as [s0|]; [|done].
    intros Hstep. eapply step_Invariant; eauto.
Qed.

(** C2.  After any sequence of calls in which callers release only what
    they hold, the outstanding leases are pairwise distinct and each leased
    registry is marked used.  The next [AcquirePoolSetContainer] returns a
    registry that no lease refers to, marked used in the state it leaves;
    that registry is either an entry of [_poolSets] that was marked free, by
    a [ReleasePoolSet] earlier in the sequence, or a new object at an
    address that was not live, built by the constructor and appended. *)
Theorem AcquirePoolSetContainer_exclusive (frame0 : Z) (es : list Event) (s : System) :
  run es (initial frame0) = Some s ->
  NoDup (leases s)
  /\ (forall p, p ∈ leases s ->
        exists c, objects (manager s) !! p = Some c /\ _used c = true)
  /\ (let r := AcquirePoolSetContainer (FrameCount s) (manager s) in
      let p := r.1.1 in
      let m' := r.1.2 in
      (p ∉ leases s)
      /\ (exists c, objects m' !! p = Some c /\ _used c = true)
      /\ ((p ∈ _poolSets (manager s)
           /\ IsUnusedAt (manager s) p = true
           /\ Release p ∈ es
           /\ _poolSets m' = _poolSets (manager s))
          \/ (objects (manager s) !! p = None
              /\ (p ∉ _poolSets (manager s))
              /\ _poolSets m' = _poolSets (manager s) ++ [p]
              /\ objects m' !! p
                 = Some (DescriptorPoolSetContainerVulkan.new (FrameCount s))))).
Proof.
  intros Hrun. destruct (run_Invariant _ _ _ Hrun) as [Hnd Hlive Hlnd Hused Hfree].
  split; [done|]. split; [intros p; apply Hused|].
  destruct (AcquirePoolSetContainer_cases (FrameCount s) (manager s))
    as [(p & c & Hin & Hc & Hu & ->)|[Hnone ->]]; simpl.
  - split; [rewrite Hused; intros (c' & Hc' & Hu'); congruence|].
    split; [rewrite lookup_insert_eq; by eexists|].
    left. unfold IsUnusedAt, IsUnused. rewrite Hc, Hu. eauto.
  - assert (objects (manager s) !! fresh (dom (objects (manager s))) = None) as Hfresh.
    { apply not_elem_of_dom, is_fresh. }
    split; [rewrite Hused, Hfresh; by intros (? & ? & _)|].
    split; [rewrite lookup_insert_eq; by eexists|].
    right. split; [done|]. split; [|by rewrite lookup_insert_eq].
    rewrite Hlive, Hfresh. by intros [? ?].
Qed.

(** C10.  After any such sequence of calls, the next
    [AcquirePoolSetContainer] calls [Reset] only on the registry it returns,
    and only when that registry was an entry of [_poolSets] marked free by an
    earlier [ReleasePoolSet]; it then marks it used first.  When the registry
    returned is new, the only call made is the constructor: the object is
    what the constructor built, marked used, stamped with the frame counter
    of that moment, and [Reset] was not called on it. *)
Theorem AcquirePoolSetContainer_resets_only_reused
    (frame0 : Z) (es : list Event) (s : System) :
  run es (initial frame0) = Some s ->
  let r := AcquirePoolSetContainer (FrameCount s) (manager s) in
  let p := r.1.1 in
  let m' := r.1.2 in
  let calls := r.2 in
  (forall q, CallReset q ∈ calls ->
     q = p /\ p ∈ _poolSets (manager s)
     /\ IsUnusedAt (manager s) p = true /\ Release p ∈ es)
  /\ (p ∈ _poolSets (manager s) ->
      calls = [CallSetUsed p true; CallReset p]
      /\ exists c, objects (manager s) !! p = Some c
                   /\ objects m' !! p
                      = Some (Reset (SetUsed (FrameCount s) true c)))
  /\ (p ∉ _poolSets (manager s) ->
      calls = [CallNew p]
      /\ exists c, objects m' !! p = Some c
                   /\ c = DescriptorPoolSetContainerVulkan.new (FrameCount s)
                   /\ _used c = true
                   /\ _lastFrameUsed c = FrameCount s).
Proof.
  intros Hrun. destruct (run_Invariant _ _ _ Hrun) as [Hnd Hlive Hlnd Hused Hfree].
  destruct (AcquirePoolSetContainer_cases (FrameCount s) (manager s))
    as [(p & c & Hin & Hc & Hu & ->)|[Hnone ->]]; simpl.
  - split; [|split; [|done]].
    + intros q Hq. apply elem_of_cons in Hq as [[=]|Hq].
      apply list_elem_of_singleton in Hq as [= ->].
      unfold IsUnusedAt, IsUnused. rewrite Hc, Hu. eauto.
    + intros _. split; [done|]. exists c. by rewrite lookup_insert_eq.
  - assert (fresh (dom (objects (manager s))) ∉ _poolSets (manager s)) as Hfresh.
    { rewrite Hlive, <- elem_of_dom. apply is_fresh. }
    split; [|split; [done|]].
    + intros q Hq. by apply list_elem_of_singleton in Hq.
    + intros _. split; [done|]. eexists. by rewrite lookup_insert_eq.
Qed.

End ManagerFacts.

Section ManagerExamples.
Import DescriptorPoolSetContainerVulkan DescriptorPoolsManagerVulkan.
#[local] Existing Instance TypedDescriptorPoolSetVulkan.twoPerPool.

Example GC_fourRegistries :
  (GC 2 10 fourRegistries).2 = [CallDelete 3%positive]
  /\ _poolSets (GC 2 10 fourRegistries).1 = [1; 2; 4]%positive
  /\ (GC 2 10 (GC 2 10 fourRegistries).1).2 = [CallDelete 1%positive]
  /\ _poolSets (GC 2 10 (GC 2 10 fourRegistries).1).1 = [4; 2]%positive
  /\ (GC 2 10 (GC 2 10 (GC 2 10 fourRegistries).1).1).2 = [].
Proof. by vm_compute. Qed.

(** An instance: the registry stamped one frame ago survives the call that
    destroys registry 3. *)
Lemma GC_removes_last_stale_registry_witness :
  4%positive ∈ _poolSets (GC 2 10 fourRegistries).1
  /\ objects (GC 2 10 fourRegistries).1 !! 4%positive = Some (registry 9 false)
  /\ CallDelete 4%positive ∉ (GC 2 10 fourRegistries).2.
Proof.
  apply (proj2 (GC_removes_last_stale_registry 2 10 fourRegistries)
           4%positive (registry 9 false)).
  - unfold fourRegistries. simpl. set_solver.
  - by vm_compute.
  - right. simpl. lia.
Defined.

Example run_sampleCalls :
  (fun s => (leases s, _poolSets (manager s))) <$>
    run 2 sampleCalls (initial 0)
  = Some ([3; 1; 2]%positive, [1; 2; 3]%positive).
Proof. by vm_compute. Qed.

(** The timestamp is the frame of the last acquisition: a registry held
    for three frames is collectable in the frame it is released. *)
Example GC_after_long_lease :
  (fun s => (_poolSets (manager s), FrameCount s)) <$>
    run 2 [Acquire; NextFrame; NextFrame; NextFrame; Release 1%positive] (initial 0)
  = Some ([1%positive], 3)
  /\ (fun s => _poolSets (manager s)) <$>
       run 2 [Acquire; NextFrame; NextFrame; NextFrame; Release 1%positive; CollectGarbage]
         (initial 0)
     = Some [].
Proof. by vm_compute. Qed.

(** An instance: the state after [sampleCalls]. *)
Lemma AcquirePoolSetContainer_exclusive_witness :
  exists s,
    run 2 sampleCalls (initial 0) = Some s
    /\ NoDup (leases s)
    /\ (AcquirePoolSetContainer (FrameCount s) (manager s)).1.1 ∉ leases s.
Proof.
  destruct (run 2 sampleCalls (initial 0))
    as [s|] eqn:Hrun; [|by vm_compute in Hrun].
  exists s. split; [done|].
  destruct (AcquirePoolSetContainer_exclusive 2 0 sampleCalls s Hrun)
    as (Hnd & _ & Hnew & _).
  by split.
Defined.

(** An instance: one registry acquired and released; the next acquisition
    resets it. *)
Lemma AcquirePoolSetContainer_resets_only_reused_witness :
  exists s,
    run 2 [Acquire; Release 1%positive] (initial 0) = Some s
    /\ forall q, CallReset q ∈ (AcquirePoolSetContainer (FrameCount s) (manager s)).2 ->
                 q = (AcquirePoolSetContainer (FrameCount s) (manager s)).1.1
                 /\ Release q ∈ [Acquire; Release 1%positive].
Proof.
  destruct (run 2 [Acquire; Release 1%positive] (initial 0))
    as [s|] eqn:Hrun; [|by vm_compute in Hrun].
  exists s. split; [done|]. intros q Hq.
  destruct (AcquirePoolSetContainer_resets_only_reused 2 0
              [Acquire; Release 1%positive] s Hrun) as (Hreset & _).
  destruct (Hreset q Hq) as (-> & _ & _ & Hrel). by split.
Defined.

End ManagerExamples.

(** ** More on the manager of registries *)

Section ManagerMore.
Import DescriptorPoolSetContainerVulkan DescriptorPoolsManagerVulkan.
Context `{VulkanDriver}.
Variable VULKAN_RESOURCE_DELETE_SAFE_FRAMES_COUNT : Z.
Local Abbreviation collectable := (collectable VULKAN_RESOURCE_DELETE_SAFE_FRAMES_COUNT).
Local Abbreviation GC := (GC VULKAN_RESOURCE_DELETE_SAFE_FRAMES_COUNT).
Local Abbreviation GC_calls := (GC_calls VULKAN_RESOURCE_DELETE_SAFE_FRAMES_COUNT).
Local Abbreviation step := (step VULKAN_RESOURCE_DELETE_SAFE_FRAMES_COUNT).
Local Abbreviation run := (run VULKAN_RESOURCE_DELETE_SAFE_FRAMES_COUNT).

Lemma run_app (es1 es2 : list Event) (s : System) :
  run (es1 ++ es2) s
  = match run es1 s with Some s' => run es2 s' | None => None end.
Proof.
  revert s. induction es1 as [|e es1 IH]; intros s; simpl; [done|].
  destruct (step e s); [apply IH | done].
Qed.

(** The invariant is kept by further calls. *)
Lemma run_Invariant_from (es' : list Event) :
  forall (es : list Event) (s s' : System),
  Invariant es s -> run es' s = Some s' -> Invariant (es ++ es') s'.
Proof.
  induction es' as [|e es' IH]; intros es s s' Hinv; simpl.
  - intros [= <-]. by rewrite app_nil_r.
  - destruct (step e s) as [s1|] eqn:Hstep; [|done]. intros Hrun.
    replace (es ++ e :: es') with ((es ++ [e]) ++ es') by (by rewrite <- app_assoc).
    eapply IH; [|done].
    by eapply (step_Invariant VULKAN_RESOURCE_DELETE_SAFE_FRAMES_COUNT).
Qed.

(** *** A lease is the holder's alone *)

Lemma step_lease_untouched (es : list Event) (e : Event) (s s' : System) (p : positive) :
  Invariant es s -> p ∈ leases s -> step e s = Some s' -> touches p e = false ->
  p ∈ leases s' /\ objects (manager s') !! p = objects (manager s) !! p.
Proof.
  intros [Hnd Hlive Hlnd Hused Hfree] Hp Hstep Htouch.
  destruct (proj1 (Hused p) Hp) as (cp & Hcp & Hup).
  destruct e as [|q| | |q chains]; simpl in Hstep, Htouch.
  - destruct (AcquirePoolSetContainer_cases (FrameCount s) (manager s))
      as [(q & c & Hin & Hc & Hu & Heq)|[Hnone Heq]];
      rewrite Heq in Hstep; injection Hstep as <-; simpl.
    + split; [by apply elem_of_cons; right|].
      apply lookup_insert_ne. intros ->. congruence.
    + split; [by apply elem_of_cons; right|].
      apply lookup_insert_ne. intros Heq'.
      apply (is_fresh (dom (objects (manager s)))). rewrite Heq'.
      apply elem_of_dom. by eexists.
  - apply bool_decide_eq_false in Htouch.
    case_decide; [|done]. injection Hstep as <-. simpl.
    split; [by apply removeFirst_elem_of|]. by apply lookup_alter_ne.
  - injection Hstep as <-.
    destruct (GC_cases VULKAN_RESOURCE_DELETE_SAFE_FRAMES_COUNT (FrameCount s) (manager s))
      as [[_ ->]|(l1 & q & l2 & c & Hl & Hq & Hu & _ & _ & ->)]; simpl; [done|].
    split; [done|]. apply lookup_delete_ne. intros ->. congruence.
  - injection Hstep as <-. done.
  - apply bool_decide_eq_false in Htouch.
    case_decide; [|done]. injection Hstep as <-. simpl.
    split; [done|]. by apply lookup_alter_ne.
Qed.

(** X17.  A registry on lease is the holder's alone.  Through any further
    calls other than the holder's own ([ReleasePoolSet] of that registry,
    work on it), whoever makes them (acquisitions and releases of other
    registries, garbage collections, frames passing), the registry stays on
    lease, listed and alive at its address, marked used, and its contents
    are what they were: no acquisition resets it and no garbage collection
    destroys it. *)
Theorem lease_untouched (frame0 : Z) (es es' : list Event) (s s' : System)
    (p : positive) :
  run es (initial frame0) = Some s -> p ∈ leases s ->
  run es' s = Some s' ->
  Forall (fun e => touches p e = false) es' ->
  p ∈ leases s' /\ p ∈ _poolSets (manager s')
  /\ objects (manager s') !! p = objects (manager s) !! p
  /\ exists c, objects (manager s') !! p = Some c /\ _used c = true.
Proof.
  intros Hrun Hp Hrun' Hall.
  pose proof (run_Invariant VULKAN_RESOURCE_DELETE_SAFE_FRAMES_COUNT _ _ _ Hrun) as Hinv.
  assert (p ∈ leases s' /\ objects (manager s') !! p = objects (manager s) !! p
          /\ Invariant (es ++ es') s') as (Hp' & Hobj & Hinv').
  { clear Hrun. revert es s Hinv Hp Hrun'.
    induction Hall as [|e es' He Hall IH]; intros es s Hinv Hp; simpl.
    - intros [= <-]. by rewrite app_nil_r.
    - destruct (step e s) as [s1|] eqn:Hstep; [|done]. intros Hrun'.
      destruct (step_lease_untouched es e s s1 p Hinv Hp Hstep He) as [Hp1 Hobj1].
      pose proof (step_Invariant VULKAN_RESOURCE_DELETE_SAFE_FRAMES_COUNT
                    es e s s1 Hinv Hstep) as Hinv1.
      destruct (IH (es ++ [e]) s1 Hinv1 Hp1 Hrun') as (Hp' & Hobj & Hinv').
      rewrite <- app_assoc in Hinv'. simpl in Hinv'.
      split; [done|]. split; [congruence | done]. }
  destruct Hinv' as [_ Hlive _ Hused _].
  destruct (proj1 (Hused p) Hp') as (c & Hc & Hu).
  split; [done|]. split; [apply Hlive; by eexists|]. split; [done|]. by exists c.
Qed.

(** *** Registries are constructed only when none is free *)

Lemma leases_listed (es : list Event) (s : System) :
  Invariant es s -> leases s ⊆ _poolSets (manager s).
Proof.
  intros [_ Hlive _ Hused _] p Hp.
  destruct (proj1 (Hused p) Hp) as (c & Hc & _). apply Hlive. by eexists.
Qed.

Lemma leases_length (es : list Event) (s : System) :
  Invariant es s -> (length (leases s) <= length (_poolSets (manager s)))%nat.
Proof.
  intros Hinv. apply submseteq_length, NoDup_submseteq.
  - by destruct Hinv.
  - intros p. by apply (leases_listed es).
Qed.

(** What [AcquirePoolSetContainer] does to the list, by the leases out. *)
Lemma AcquirePoolSetContainer_length (es : list Event) (s : System) :
  Invariant es s ->
  let m' := (AcquirePoolSetContainer (FrameCount s) (manager s)).1.2 in
  (length (leases s) < length (_poolSets (manager s))
   /\ _poolSets m' = _poolSets (manager s))%nat
  \/ (leases s ≡ₚ _poolSets (manager s)
      /\ exists p, (p ∉ _poolSets (manager s)) /\ _poolSets m' = _poolSets (manager s) ++ [p]).
Proof.
  intros Hinv. pose proof Hinv as [Hnd Hlive Hlnd Hused Hfree].
  destruct (AcquirePoolSetContainer_cases (FrameCount s) (manager s))
    as [(p & c & Hin & Hc & Hu & ->)|[Hnone ->]]; simpl.
  - left. split; [|done].
    assert (p ∉ leases s) as Hp.
    { rewrite Hused. intros (c' & Hc' & Hu'). congruence. }
    assert (length (p :: leases s) <= length (_poolSets (manager s)))%nat as Hlen.
    { apply submseteq_length, NoDup_submseteq; [by constructor|].
      intros q [->|Hq]%elem_of_cons; [done | by apply (leases_listed es)]. }
    simpl in Hlen. lia.
  - right. split.
    + apply NoDup_Permutation; [done..|]. intros p. split; [by apply (leases_listed es)|].
      intros Hp. apply Hused. specialize (Hnone p Hp).
      unfold IsUnusedAt, IsUnused in Hnone.
      apply Hlive in Hp as [c Hc]. rewrite Hc in Hnone.
      exists c. split; [done|]. by apply negb_false_iff.
    + exists (fresh (dom (objects (manager s)))). split; [|done].
      rewrite Hlive, <- elem_of_dom. apply is_fresh.
Qed.

(** X18.  After any sequence of calls the leases out are among the listed
    registries.  The next [AcquirePoolSetContainer] constructs a registry,
    and lengthens the list by that one, exactly when every listed registry
    is on lease; while fewer leases are out than registries are listed it
    constructs nothing and the list stays as it is. *)
Theorem AcquirePoolSetContainer_constructs_when_all_leased
    (frame0 : Z) (es : list Event) (s : System) :
  run es (initial frame0) = Some s ->
  let r := AcquirePoolSetContainer (FrameCount s) (manager s) in
  (length (leases s) <= length (_poolSets (manager s)))%nat
  /\ (CallNew r.1.1 ∈ r.2 <-> leases s ≡ₚ _poolSets (manager s))
  /\ (leases s ≡ₚ _poolSets (manager s) ->
      (r.1.1 ∉ _poolSets (manager s))
      /\ _poolSets r.1.2 = _poolSets (manager s) ++ [r.1.1])
  /\ ((length (leases s) < length (_poolSets (manager s)))%nat ->
      _poolSets r.1.2 = _poolSets (manager s) /\ r.1.1 ∈ _poolSets (manager s)).
Proof.
  intros Hrun.
  pose proof (run_Invariant VULKAN_RESOURCE_DELETE_SAFE_FRAMES_COUNT _ _ _ Hrun) as Hinv.
  pose proof (leases_length es s Hinv) as Hle.
  pose proof (AcquirePoolSetContainer_length es s Hinv) as Hcases.
  pose proof Hinv as [Hnd Hlive Hlnd Hused Hfree].
  cbv zeta in *. split; [done|].
  destruct (AcquirePoolSetContainer_cases (FrameCount s) (manager s))
    as [(p & c & Hin & Hc & Hu & Heq)|[Hnone Heq]]; rewrite Heq in *; simpl in *.
  - destruct Hcases as [[Hlt _]|[Hperm (q & Hq & Happ)]].
    + split; [|split; [|done]].
      * split.
        -- intros [[=]|[[=]|[]%elem_of_nil]%elem_of_cons]%elem_of_cons.
        -- intros Hperm. apply Permutation_length in Hperm. lia.
      * intros Hperm. apply Permutation_length in Hperm. lia.
    + apply (f_equal length) in Happ. rewrite length_app in Happ. simpl in Happ. lia.
  - destruct Hcases as [[Hlt Hsame]|[Hperm (q & Hq & Happ)]].
    + apply (f_equal length) in Hsame. rewrite length_app in Hsame. simpl in Hsame. lia.
    + split; [|split].
      * split; [done|]. intros _. by apply list_elem_of_singleton.
      * intros _. split; [|done]. rewrite Hlive, <- elem_of_dom. apply is_fresh.
      * intros Hlt. apply Permutation_length in Hperm. lia.
Qed.

Lemma peakLeases_ge (es : list Event) :
  forall held peak : nat, (peak <= peakLeases held peak es)%nat.
Proof.
  induction es as [|e es IH]; intros held peak; simpl; [done|].
  destruct e; try apply IH.
  etrans; [|apply IH]. lia.
Qed.

Lemma removeFirst_length (p : positive) (l : list positive) :
  p ∈ l -> length (removeFirst p l) = Nat.pred (length l).
Proof.
  induction l as [|q l IH]; simpl; [by intros []%elem_of_nil|].
  intros Hp. destruct (decide (q = p)) as [->|Hne]; [done|].
  apply elem_of_cons in Hp as [->|Hp]; [done|].
  simpl. rewrite IH by done. destruct l; [by apply elem_of_nil in Hp | done].
Qed.

Lemma run_peakLeases (es' : list Event) :
  forall (es : list Event) (s s' : System) (peak : nat),
  Invariant es s -> run es' s = Some s' ->
  (length (_poolSets (manager s)) <= peak)%nat ->
  (length (_poolSets (manager s')) <= peakLeases (length (leases s)) peak es')%nat.
Proof.
  induction es' as [|e es' IH]; intros es s s' peak Hinv; simpl.
  - by intros [= <-].
  - destruct (step e s) as [s1|] eqn:Hstep; [|done]. intros Hrun Hpeak.
    pose proof (step_Invariant VULKAN_RESOURCE_DELETE_SAFE_FRAMES_COUNT
                  es e s s1 Hinv Hstep) as Hinv1.
    destruct e as [|q| | |q chains]; simpl in Hstep.
    + pose proof (AcquirePoolSetContainer_length es s Hinv) as Hcases.
      cbv zeta in Hcases.
      destruct (AcquirePoolSetContainer (FrameCount s) (manager s)) as [[p m'] calls].
      injection Hstep as <-. simpl in Hcases.
      apply (IH _ _ _ _ Hinv1 Hrun). simpl.
      destruct Hcases as [[Hlt ->]|[Hperm (q & _ & ->)]]; [lia|].
      apply Permutation_length in Hperm. rewrite length_app. simpl. lia.
    + case_decide as Hq; [|done]. injection Hstep as <-.
      specialize (IH _ _ _ peak Hinv1 Hrun). simpl in IH.
      rewrite removeFirst_length in IH by done. by apply IH.
    + injection Hstep as <-.
      specialize (IH _ _ _ peak Hinv1 Hrun). simpl in IH. apply IH.
      destruct (GC_cases VULKAN_RESOURCE_DELETE_SAFE_FRAMES_COUNT (FrameCount s) (manager s))
        as [[_ ->]|(l1 & q & l2 & c & Hl & _ & _ & _ & _ & ->)]; simpl; [done|].
      rewrite Hl in Hpeak |- *. pose proof (RemoveAt_length l1 l2 q). lia.
    + injection Hstep as <-. by apply (IH _ _ _ peak Hinv1 Hrun).
    + case_decide as Hq; [|done]. injection Hstep as <-.
      by apply (IH _ _ _ peak Hinv1 Hrun).
Qed.

(** X19.  The manager never lists more registries than the greatest number
    of leases that were out at one time: registries are reused before any
    is constructed. *)
Theorem registries_bounded_by_peak_leases (frame0 : Z) (es : list Event) (s : System) :
  run es (initial frame0) = Some s ->
  (length (leases s) <= length (_poolSets (manager s)) <= peakLeases 0 0 es)%nat.
Proof.
  intros Hrun. split.
  - apply (leases_length es).
    by apply (run_Invariant VULKAN_RESOURCE_DELETE_SAFE_FRAMES_COUNT frame0).
  - apply (run_peakLeases es [] (initial frame0) s 0%nat); [|done|done].
    by apply (run_Invariant VULKAN_RESOURCE_DELETE_SAFE_FRAMES_COUNT frame0 []).
Qed.

(** *** Timestamps and the frame counter *)

Lemma nextFrames_cons (e : Event) (es : list Event) :
  nextFrames (e :: es)
  = (match e with NextFrame => 1 | _ => 0 end + nextFrames es)%nat.
Proof. unfold nextFrames. simpl. by destruct e. Qed.

Lemma run_timestamps (lo : Z) (es : list Event) :
  forall s s' : System,
  0 <= FrameCount s -> FrameCount s + Z.of_nat (nextFrames es) < 2 ^ 64 ->
  (forall p c, objects (manager s) !! p = Some c ->
               lo <= _lastFrameUsed c <= FrameCount s) ->
  lo <= FrameCount s ->
  run es s = Some s' ->
  FrameCount s' = FrameCount s + Z.of_nat (nextFrames es)
  /\ forall p c, objects (manager s') !! p = Some c ->
                 lo <= _lastFrameUsed c <= FrameCount s'.
Proof.
  induction es as [|e es IH]; intros s s' Hf Hn Hts Hlo; simpl.
  - intros [= <-]. split; [unfold nextFrames; simpl; lia | done].
  - rewrite nextFrames_cons in *.
    destruct (step e s) as [s1|] eqn:Hstep; [|done]. intros Hrun.
    assert (FrameCount s1 = FrameCount s + match e with NextFrame => 1 | _ => 0 end
            /\ forall p c, objects (manager s1) !! p = Some c ->
                           lo <= _lastFrameUsed c <= FrameCount s1) as [Hf1 Hts1].
    { destruct e as [|q| | |q chains]; simpl in Hstep.
      - destruct (AcquirePoolSetContainer_cases (FrameCount s) (manager s))
          as [(q & c & Hin & Hc & Hu & Heq)|[Hnone Heq]];
          rewrite Heq in Hstep; injection Hstep as <-; simpl;
          (split; [lia|]); intros p c'.
        + destruct (decide (q = p)) as [<-|Hne].
          * rewrite lookup_insert_eq. intros [= <-]. simpl. lia.
          * rewrite lookup_insert_ne by done. apply Hts.
        + destruct (decide (fresh (dom (objects (manager s))) = p)) as [<-|Hne].
          * rewrite lookup_insert_eq. intros [= <-]. simpl. lia.
          * rewrite lookup_insert_ne by done. apply Hts.
      - case_decide; [|done]. injection Hstep as <-. simpl. split; [lia|].
        intros p c. destruct (decide (q = p)) as [<-|Hne].
        + rewrite lookup_alter_eq.
          destruct (objects (manager s) !! q) as [c0|] eqn:Hc0; simpl; [|done].
          intros [= <-]. simpl. by apply (Hts q).
        + rewrite lookup_alter_ne by done. apply Hts.
      - injection Hstep as <-. simpl. split; [lia|].
        destruct (GC_cases VULKAN_RESOURCE_DELETE_SAFE_FRAMES_COUNT (FrameCount s) (manager s))
          as [[_ ->]|(l1 & q & l2 & c & Hl & _ & _ & _ & _ & ->)]; simpl; [done|].
        intros p c'. destruct (decide (q = p)) as [<-|Hne].
        + by rewrite lookup_delete_eq.
        + rewrite lookup_delete_ne by done. apply Hts.
      - injection Hstep as <-. simpl.
        assert (2 ^ 64 = 18446744073709551616) as E64 by reflexivity.
        rewrite wrap64_small by lia. split; [done|].
        intros p c Hc. specialize (Hts p c Hc). lia.
      - case_decide; [|done]. injection Hstep as <-. simpl. split; [lia|].
        intros p c. destruct (decide (q = p)) as [<-|Hne].
        + rewrite lookup_alter_eq.
          destruct (objects (manager s) !! q) as [c0|] eqn:Hc0; simpl; [|done].
          intros [= <-]. simpl. by apply (Hts q).
        + rewrite lookup_alter_ne by done. apply Hts. }
    destruct (IH s1 s') as [Hf' Hts']; [destruct e; lia.. | done | destruct e; lia | done |].
    split; [destruct e; lia | done].
Qed.

(** X20.  While the frame counter has not passed [2^64 - 1], it is the
    counter the manager started in plus the frames gone by, and the
    timestamp of every live registry lies between the starting counter and
    the current one.  The [uint64] subtraction in [GC] is then the exact
    age: a registry is collectable exactly when it is marked free and more
    than the safety margin of frames lie between its timestamp and the
    frame counter. *)
Theorem timestamps_behind_frame_counter (frame0 : Z) (es : list Event) (s : System) :
  0 <= frame0 -> frame0 + Z.of_nat (nextFrames es) < 2 ^ 64 ->
  run es (initial frame0) = Some s ->
  FrameCount s = frame0 + Z.of_nat (nextFrames es)
  /\ forall p c, objects (manager s) !! p = Some c ->
       frame0 <= _lastFrameUsed c <= FrameCount s
       /\ (collectable (FrameCount s) (manager s) p = true
           <-> _used c = false
               /\ VULKAN_RESOURCE_DELETE_SAFE_FRAMES_COUNT
                  < FrameCount s - _lastFrameUsed c).
Proof.
  intros Hf Hn Hrun.
  destruct (run_timestamps frame0 es (initial frame0) s) as [Hfc Hts]; simpl; try done.
  simpl in Hfc. split; [done|]. intros p c Hc.
  pose proof (Hts p c Hc) as Ht. split; [done|].
  rewrite (collectable_true VULKAN_RESOURCE_DELETE_SAFE_FRAMES_COUNT).
  assert (wrap64 (FrameCount s - _lastFrameUsed c) = FrameCount s - _lastFrameUsed c) as Hw.
  { apply wrap64_small. lia. }
  split.
  - intros (c' & Hc' & Hu & Hm). rewrite Hc in Hc'. injection Hc' as <-.
    split; [done|]. by rewrite <- Hw.
  - intros [Hu Hm]. exists c. split; [done|]. split; [done|]. by rewrite Hw.
Qed.

(** *** Garbage collection, call after call *)

(** X21.  [GC] destroys at most one registry per call.  Let a list without
    duplicates hold the registries [stale] (each free, with a timestamp more
    than the margin behind the frame counter) and, besides them, the
    registries [kept] (each in use or within the margin).  Then [n] calls
    in a row within one frame shorten the list by the smaller of [n] and the
    number of stale registries.  From that many calls on, exactly the stale
    registries are gone from the list and from the heap, the list holds the
    others (in some order: [RemoveAt] does not keep it), every other object
    is unchanged, and a further call does nothing. *)
Theorem GC_calls_collect_stale (frameCount : Z) (n : nat) (m : t)
    (stale kept : list positive) :
  NoDup (_poolSets m) ->
  _poolSets m ≡ₚ stale ++ kept ->
  (forall p, p ∈ stale ->
     exists c, objects m !! p = Some c /\ _used c = false
               /\ VULKAN_RESOURCE_DELETE_SAFE_FRAMES_COUNT
                  < wrap64 (frameCount - _lastFrameUsed c)) ->
  (forall p c, p ∈ kept -> objects m !! p = Some c ->
     _used c = true
     \/ wrap64 (frameCount - _lastFrameUsed c)
        <= VULKAN_RESOURCE_DELETE_SAFE_FRAMES_COUNT) ->
  length (_poolSets (GC_calls frameCount n m))
  = (length (_poolSets m) - Nat.min n (length stale))%nat
  /\ ((length stale <= n)%nat ->
      _poolSets (GC_calls frameCount n m) ≡ₚ kept
      /\ (forall p, p ∈ stale -> objects (GC_calls frameCount n m) !! p = None)
      /\ (forall p, p ∉ stale ->
            objects (GC_calls frameCount n m) !! p = objects m !! p)
      /\ GC frameCount (GC_calls frameCount n m) = (GC_calls frameCount n m, [])).
Proof.
  revert m stale. induction n as [|n IH]; intros m stale Hnd Hperm Hstale Hkept;
    cbn [DescriptorPoolsManagerVulkan.GC_calls].
  - split; [lia|]. intros Hk.
    assert (stale = []) as -> by (apply length_zero_iff_nil; lia).
    split; [done|]. split; [by intros p []%elem_of_nil|]. split; [done|].
    destruct (GC_cases VULKAN_RESOURCE_DELETE_SAFE_FRAMES_COUNT frameCount m)
      as [[_ Hgc]|(l1 & p & l2 & c & Hl & Hc & Hu & Hm & _ & _)]; [done|].
    assert (p ∈ kept) as Hp.
    { simpl in Hperm. rewrite <- Hperm, Hl. apply elem_of_app. right. by left. }
    destruct (Hkept p c Hp Hc); [congruence | lia].
  - destruct (GC_cases VULKAN_RESOURCE_DELETE_SAFE_FRAMES_COUNT frameCount m)
      as [[Hall ->]|(l1 & p & l2 & c & Hl & Hc & Hu & Hm & _ & ->)]; cbn [fst].
    + assert (stale = []) as ->.
      { destruct stale as [|p stale]; [done|]. exfalso.
        destruct (Hstale p) as (c & Hc & Hu & Hm); [by left|].
        rewrite Forall_forall in Hall.
        assert (p ∈ _poolSets m) as Hp by (rewrite Hperm; by left).
        destruct (collectable_false VULKAN_RESOURCE_DELETE_SAFE_FRAMES_COUNT
                    frameCount m p c (Hall p Hp) Hc); [congruence | lia]. }
      destruct (IH m [] Hnd Hperm Hstale Hkept) as [IHlen IHall].
      cbn [length] in *. split; [rewrite IHlen; lia|]. intros _. apply IHall. lia.
    + assert (p ∈ stale) as Hp.
      { assert (p ∈ _poolSets m) as Hin
          by (rewrite Hl; apply elem_of_app; right; by left).
        rewrite Hperm in Hin. apply elem_of_app in Hin as [Hin|Hin]; [done|].
        destruct (Hkept p c Hin Hc); [congruence | lia]. }
      apply list_elem_of_split in Hp as (s1 & s2 & ->).
      assert (forall q, q ∈ s1 ++ p :: s2 <-> q = p \/ q ∈ s1 ++ s2) as Hsplit.
      { intros q. rewrite <- Permutation_middle. apply elem_of_cons. }
      assert (p ∉ s1 ++ s2) as Hp.
      { rewrite Hperm in Hnd. apply NoDup_app in Hnd as (Hnds & _ & _).
        rewrite <- Permutation_middle in Hnds. by apply NoDup_cons in Hnds as [? _]. }
      rewrite Hl in Hnd. destruct (RemoveAt_NoDup l1 l2 p Hnd) as [Hnd1 _].
      pose proof (RemoveAt_middle l1 l2 p) as Hmid.
      pose proof (RemoveAt_length l1 l2 p) as Hlen.
      rewrite <- Hl in Hnd1, Hmid, Hlen.
      destruct (IH {| _poolSets := RemoveAt (length l1) (_poolSets m);
                      objects := delete p (objects m) |} (s1 ++ s2))
        as [IHlen IHall].
      * done.
      * cbn [DescriptorPoolsManagerVulkan._poolSets].
        apply (Permutation_cons_inv (a := p)). rewrite Hmid, Hperm.
        rewrite <- !app_assoc. simpl. by rewrite <- Permutation_middle.
      * intros q Hq. cbn [DescriptorPoolsManagerVulkan.objects].
        rewrite lookup_delete_ne by (intros ->; done).
        apply Hstale, Hsplit. by right.
      * intros q c' Hq. cbn [DescriptorPoolsManagerVulkan.objects].
        destruct (decide (p = q)) as [<-|Hne]; [by rewrite lookup_delete_eq|].
        rewrite lookup_delete_ne by done. by apply Hkept.
      * cbn [DescriptorPoolsManagerVulkan._poolSets DescriptorPoolsManagerVulkan.objects]
          in IHlen, IHall.
        rewrite !length_app in *. cbn [length] in *.
        split; [rewrite IHlen; lia|].
        intros Hk. destruct IHall as (Hlist & Hgone & Hother & Hstop); [lia|].
        split; [done|]. split; [|split; [|done]].
        -- intros q [->|Hq]%Hsplit.
           ++ rewrite (Hother p Hp). apply lookup_delete_eq.
           ++ by apply Hgone.
        -- intros q Hq. rewrite Hother by (intros ?; apply Hq, Hsplit; by right).
           apply lookup_delete_ne. intros ->. apply Hq, Hsplit. by left.
Qed.

End ManagerMore.

Section ManagerMoreExamples.
Import DescriptorPoolSetContainerVulkan DescriptorPoolsManagerVulkan.
#[local] Existing Instance TypedDescriptorPoolSetVulkan.twoPerPool.

(** An instance: two registries on lease; the second is released, grows
    stale and is destroyed, and a new registry is constructed at its
    address.  The first is as it was. *)
Lemma lease_untouched_witness :
  exists s s',
    run 2 [Acquire; Acquire] (initial 0) = Some s
    /\ run 2 [Release 2%positive; NextFrame; NextFrame; NextFrame; CollectGarbage; Acquire] s
       = Some s'
    /\ objects (manager s') !! 1%positive = objects (manager s) !! 1%positive.
Proof.
  assert (exists s,
            run 2 [Acquire; Acquire] (initial 0) = Some s
            /\ 1%positive ∈ leases s
            /\ exists s',
                 run 2 [Release 2%positive; NextFrame; NextFrame; NextFrame;
                        CollectGarbage; Acquire] s = Some s')
    as (s & Hrun & Hp & s' & Hrun').
  { eexists. split; [by vm_compute|]. split; [|eexists; by vm_compute].
    simpl. set_solver. }
  exists s, s'. split; [done|]. split; [done|].
  apply (lease_untouched 2 0 [Acquire; Acquire]
           [Release 2%positive; NextFrame; NextFrame; NextFrame; CollectGarbage; Acquire]
           s s' 1%positive Hrun Hp Hrun').
  by repeat constructor.
Defined.

(** An instance: two registries listed and one on lease; the next
    acquisition constructs nothing. *)
Lemma AcquirePoolSetContainer_constructs_when_all_leased_witness :
  exists s,
    run 2 [Acquire; Acquire; Release 1%positive] (initial 0) = Some s
    /\ _poolSets (AcquirePoolSetContainer (FrameCount s) (manager s)).1.2
       = _poolSets (manager s).
Proof.
  assert (exists s,
            run 2 [Acquire; Acquire; Release 1%positive] (initial 0) = Some s
            /\ (length (leases s) < length (_poolSets (manager s)))%nat)
    as (s & Hrun & Hlt).
  { eexists. split; [by vm_compute|]. simpl. lia. }
  exists s. split; [done|].
  destruct (AcquirePoolSetContainer_constructs_when_all_leased 2 0
              [Acquire; Acquire; Release 1%positive] s Hrun) as (_ & _ & _ & Hsame).
  by destruct (Hsame Hlt).
Defined.

(** An instance: in [sampleCalls] at most three leases are out at a time. *)
Lemma registries_bounded_by_peak_leases_witness :
  exists s,
    run 2 sampleCalls (initial 0) = Some s
    /\ (length (_poolSets (manager s)) <= 3)%nat.
Proof.
  destruct (run 2 sampleCalls (initial 0)) as [s|] eqn:Hrun; [|by vm_compute in Hrun].
  exists s. split; [done|].
  by destruct (registries_bounded_by_peak_leases 2 0 sampleCalls s Hrun) as [_ Hpeak].
Defined.

(** An instance: three frames pass while a registry is on lease. *)
Lemma timestamps_behind_frame_counter_witness :
  exists s,
    run 2 [Acquire; NextFrame; NextFrame; NextFrame; Release 1%positive] (initial 0) = Some s
    /\ FrameCount s = 3.
Proof.
  destruct (run 2 [Acquire; NextFrame; NextFrame; NextFrame; Release 1%positive] (initial 0))
    as [s|] eqn:Hrun; [|by vm_compute in Hrun].
  exists s. split; [done|].
  destruct (timestamps_behind_frame_counter 2 0
              [Acquire; NextFrame; NextFrame; NextFrame; Release 1%positive] s)
    as [Hf _]; [lia | by vm_compute | done | exact Hf].
Defined.

(** An instance: the four registries of above, two of them stale. *)
Lemma GC_calls_collect_stale_witness :
  _poolSets (GC_calls 2 10 2 fourRegistries) ≡ₚ [2; 4]%positive
  /\ GC 2 10 (GC_calls 2 10 2 fourRegistries) = (GC_calls 2 10 2 fourRegistries, []).
Proof.
  destruct (GC_calls_collect_stale 2 10 2 fourRegistries [1; 3]%positive [2; 4]%positive)
    as [_ Hall].
  - unfold fourRegistries. simpl. apply NoDup_ListNoDup.
    repeat (constructor; [simpl; intuition discriminate|]). constructor.
  - unfold fourRegistries. simpl. constructor. apply perm_swap.
  - intros p [->|[->|[]%elem_of_nil]%elem_of_cons]%elem_of_cons.
    + exists (registry 1 false). by vm_compute.
    + exists (registry 3 false). by vm_compute.
  - intros p c [->|[->|[]%elem_of_nil]%elem_of_cons]%elem_of_cons.
    + intros [= <-]. by left.
    + intros [= <-]. right. by vm_compute.
  - destruct Hall as (Hlist & _ & _ & Hstop); [simpl; lia|]. by split.
Defined.

End ManagerMoreExamples.
